(** * Payload normalisation and idempotent upsert engine

    A shallow embedding of [scripts/processPayloads.mjs] (with the
    [models/Message.js] schema, the older [import.js] script and the
    message and status routes of [server.js]) and the properties of its
    upsert engine, status correlation, payload normalisation and batch
    driver.

    Layout:
    - [JS]            the JavaScript values the scripts manipulate:
                      truthiness, property access, [||] and [??], [Number],
                      [String], [Date];
    - [Store]         the message collection and the store calls used;
    - [Engine]        [asDate], [upsertMessage], [applyStatus];
    - [Schema]        the types of [models/Message.js] and the values
                      they take as they are;
    - [Script]        state, exceptions and loops of a running script;
    - [Batch]         [extractContacts], [asArray], [processFile], [main];
    - [ImportScript]  [importPayloads] of the older script;
    - [Samples]       the inputs of the examples;
    - [Server]        [POST /messages], [POST /delivered], [POST /read];
    - [Views]         what the facts speak of: the content of a record,
                      the invariants of the collection;
    - then the facts, one module per topic: idempotent create, status
      updates, timestamps, ordering, payload shapes, rejection, status
      correlation, per-source ordering, batch isolation, the import
      script; and further facts
      about the engine, the timestamps, the batch driver, the import
      script and the server.

    What is modelled and what is not:
    - numbers are integers ([Z]); a numeric string with a fractional value
      converts to [Frac], and a date built from it is [DateUnknown];
    - [Date] parsing is determined for the UTC forms of the date-time
      string format and for strings without a digit; other strings give
      [DateUnknown];
    - the collection is a list of documents in insertion order, with
      equality filters and first-match updates; the casting and the
      validation of the object-document mapper are not modelled: the
      store calls succeed and store what they are handed.  [Schema] says
      for which values that is what the code does (strings where the
      schema has [String], a valid date, a boolean), and the facts about
      what is matched or stored are stated for those;
    - [JSON.parse] and the file system are not modelled: a file is given
      by its name and by what its text parses to;
    - the current time is read from a clock indexed by the number of
      engine calls made so far;
    - of the server, the three routes that write are modelled, with
      [MessageModel.create] taken as given and a store that does not
      fail; the routes that read (sorting, aggregation) and the
      cross-origin policy are not. *)

From Stdlib Require Import ZArith List String Ascii Bool Lia DecimalString.
From Stdlib Require Import DecimalPos DecimalZ.
Import ListNotations.

Set Implicit Arguments.
Set Warnings "-register-all".
Local Open Scope string_scope.
Local Open Scope list_scope.
Local Open Scope Z_scope.

(* ===================================================================== *)
(** * JavaScript values *)
(* ===================================================================== *)

Module JS.

(** What [JSON.parse] can return, plus [undefined] (the result of reading a
    missing property) and the one function object the script can meet
    (an inherited array method).  Numbers are integers: JSON numbers with a
    fractional part are outside this development.  An object is the list
    of its own properties, read by first match. *)
Inductive value : Type :=
| VUndef
| VNull
| VBool (b : bool)
| VNum (n : Z)
| VStr (s : string)
| VArr (items : list value)
| VObj (props : list (string * value))
| VFun (name : string).

(** A structural induction principle that also goes through the lists
    nested in arrays and objects. *)
Section ValueInd.
Variable P : value -> Prop.
Hypothesis HUndef : P VUndef.
Hypothesis HNull : P VNull.
Hypothesis HBool : forall b, P (VBool b).
Hypothesis HNum : forall n, P (VNum n).
Hypothesis HStr : forall s, P (VStr s).
Hypothesis HArr : forall l, Forall P l -> P (VArr l).
Hypothesis HObj : forall l, Forall (fun kv => P (snd kv)) l -> P (VObj l).
Hypothesis HFun : forall s, P (VFun s).

Fixpoint value_rect' (v : value) : P v :=
  match v with
  | VUndef => HUndef
  | VNull => HNull
  | VBool b => HBool b
  | VNum n => HNum n
  | VStr s => HStr s
  | VArr l =>
      HArr ((fix go (l : list value) : Forall P l :=
               match l with
               | [] => Forall_nil _
               | x :: r => Forall_cons x (value_rect' x) (go r)
               end) l)
  | VObj l =>
      HObj ((fix go (l : list (string * value))
               : Forall (fun kv => P (snd kv)) l :=
               match l with
               | [] => Forall_nil _
               | kv :: r =>
                   Forall_cons (P := fun kv => P (snd kv)) kv
                     (value_rect' (snd kv)) (go r)
               end) l)
  | VFun s => HFun s
  end.
End ValueInd.

(** Structural equality of values. *)
Fixpoint value_eqb (a b : value) {struct a} : bool :=
  match a, b with
  | VUndef, VUndef => true
  | VNull, VNull => true
  | VBool x, VBool y => Bool.eqb x y
  | VNum x, VNum y => Z.eqb x y
  | VStr x, VStr y => String.eqb x y
  | VArr xs, VArr ys =>
      (fix go (xs ys : list value) {struct xs} : bool :=
         match xs, ys with
         | [], [] => true
         | x :: xs', y :: ys' => value_eqb x y && go xs' ys'
         | _, _ => false
         end) xs ys
  | VObj xs, VObj ys =>
      (fix go (xs ys : list (string * value)) {struct xs} : bool :=
         match xs, ys with
         | [], [] => true
         | (k, x) :: xs', (k', y) :: ys' =>
             String.eqb k k' && value_eqb x y && go xs' ys'
         | _, _ => false
         end) xs ys
  | VFun x, VFun y => String.eqb x y
  | _, _ => false
  end.

(** ** Truthiness and the short-circuit operators *)

(** [!!v]. *)
Definition truthy (v : value) : bool :=
  match v with
  | VUndef | VNull => false
  | VBool b => b
  | VNum n => negb (Z.eqb n 0)
  | VStr s => negb (String.eqb s "")
  | VArr _ | VObj _ | VFun _ => true
  end.

(** [v == null]: [null] or [undefined]. *)
Definition nullish (v : value) : bool :=
  match v with
  | VUndef | VNull => true
  | _ => false
  end.

(** [a || b] (both operands here are side-effect free). *)
Definition or_ (a b : value) : value := if truthy a then a else b.

(** [a ?? b]. *)
Definition coalesce (a b : value) : value := if nullish a then b else a.

Declare Scope js_scope.
Delimit Scope js_scope with js.
Infix "|?" := or_ (at level 51, left associativity) : js_scope.
Infix "??" := coalesce (at level 51, left associativity) : js_scope.

(** ** Property access *)

Fixpoint lookup (k : string) (l : list (string * value)) : value :=
  match l with
  | [] => VUndef
  | (k', v) :: r => if String.eqb k k' then v else lookup k r
  end.

(** [v.k] for a [v] that is neither [null] nor [undefined].  Of the
    property names the scripts read, [entries] is the only one an array
    inherits and [name] the only one a function has; the scripts read
    neither [length] nor an index through this form. *)
Definition get (v : value) (k : string) : value :=
  match v with
  | VObj l => lookup k l
  | VArr _ => if String.eqb k "entries" then VFun "entries" else VUndef
  | VFun n => if String.eqb k "name" then VStr n else VUndef
  | _ => VUndef
  end.

(** [v?.k]. *)
Definition oget (v : value) (k : string) : value :=
  if nullish v then VUndef else get v k.

(** [v?.[0]]: first element of an array, first character of a string,
    property ["0"] of an object. *)
Definition oindex0 (v : value) : value :=
  match v with
  | VArr (x :: _) => x
  | VStr (String c _) => VStr (String c EmptyString)
  | VObj l => lookup "0" l
  | _ => VUndef
  end.

Infix "?." := oget (at level 25, left associativity) : js_scope.

(** ** Numbers out of values: [Number(v)] *)

(** The result of a numeric conversion.  [Frac] stands for a finite number
    that is not an integer: the integer model keeps the fact, not the
    value. *)
Inductive number : Type :=
| NaN
| Int (n : Z)
| Infinite
| Frac.

Definition is_digit (c : ascii) : bool :=
  let n := nat_of_ascii c in (48 <=? n)%nat && (n <=? 57)%nat.

Definition digit_val (c : ascii) : Z := Z.of_nat (nat_of_ascii c) - 48.

(** Digit of a radix-16, -8 or -2 literal. *)
Definition radix_digit (r : Z) (c : ascii) : option Z :=
  let n := Z.of_nat (nat_of_ascii c) in
  let d := if (48 <=? n) && (n <=? 57) then n - 48
           else if (97 <=? n) && (n <=? 102) then n - 87
           else if (65 <=? n) && (n <=? 70) then n - 55
           else 16 in
  if d <? r then Some d else None.

(** ASCII white space and line terminators (the non-ASCII ones of
    [StrWhiteSpaceChar] are not recognised: strings are byte strings). *)
Definition is_ws (c : ascii) : bool :=
  let n := nat_of_ascii c in
  ((9 <=? n)%nat && (n <=? 13)%nat) || (n =? 32)%nat.

Fixpoint drop_ws (l : list ascii) : list ascii :=
  match l with
  | c :: r => if is_ws c then drop_ws r else l
  | [] => []
  end.

Definition trim (l : list ascii) : list ascii :=
  rev (drop_ws (rev (drop_ws l))).

Fixpoint span_digits (l : list ascii) : list ascii * list ascii :=
  match l with
  | c :: r =>
      if is_digit c then let (ds, rest) := span_digits r in (c :: ds, rest)
      else ([], l)
  | [] => ([], [])
  end.

Definition digits_val (ds : list ascii) : Z :=
  fold_left (fun acc c => acc * 10 + digit_val c) ds 0.

Fixpoint radix_val (r : Z) (acc : Z) (l : list ascii) : number :=
  match l with
  | [] => Int acc
  | c :: l' =>
      match radix_digit r c with
      | Some d => radix_val r (acc * r + d) l'
      | None => NaN
      end
  end.

(** [0x..], [0o..], [0b..]: at least one digit. *)
Definition radix_literal (r : Z) (l : list ascii) : number :=
  match l with
  | [] => NaN
  | _ => radix_val r 0 l
  end.

Definition chars (s : string) : list ascii := list_ascii_of_string s.

Definition ascii_list_eqb (a b : list ascii) : bool :=
  String.eqb (string_of_list_ascii a) (string_of_list_ascii b).

(** The exponent part that may follow the mantissa: nothing, or [e]/[E],
    an optional sign and at least one digit, up to the end. *)
Definition exponent_part (l : list ascii) : option Z :=
  match l with
  | [] => Some 0
  | c :: r =>
      if (Ascii.eqb c "e" || Ascii.eqb c "E")%bool then
        let '(neg, r') :=
          match r with
          | s :: r' =>
              if Ascii.eqb s "-" then (true, r')
              else if Ascii.eqb s "+" then (false, r')
              else (false, r)
          | [] => (false, r)
          end in
        match span_digits r' with
        | ([], _) => None
        | (ds, []) => Some (if neg then - digits_val ds else digits_val ds)
        | (_, _ :: _) => None
        end
      else None
  end.

(** [StrUnsignedDecimalLiteral]: [Infinity], or digits with an optional
    fraction and exponent. *)
Definition unsigned_literal (l : list ascii) : number :=
  if ascii_list_eqb l (chars "Infinity") then Infinite
  else
    let (d1, r1) := span_digits l in
    let (d2, r2) :=
      match r1 with
      | c :: r => if Ascii.eqb c "." then span_digits r else ([], r1)
      | [] => ([], r1)
      end in
    match d1 ++ d2 with
    | [] => NaN
    | ds =>
        match exponent_part r2 with
        | None => NaN
        | Some e =>
            let mant := digits_val ds in
            let e' := e - Z.of_nat (List.length d2) in
            if mant =? 0 then Int 0
            else if 0 <=? e' then Int (mant * 10 ^ e')
            else if mant mod 10 ^ (- e') =? 0 then Int (mant / 10 ^ (- e'))
            else Frac
        end
    end.

Definition negate (n : number) : number :=
  match n with
  | Int z => Int (- z)
  | _ => n
  end.

(** [StringToNumber]: the [StringNumericLiteral] grammar. *)
Definition StringToNumber (s : string) : number :=
  match trim (chars s) with
  | [] => Int 0
  | c :: r =>
      let radix :=
        match r with
        | x :: r' =>
            if negb (Ascii.eqb c "0") then None
            else if (Ascii.eqb x "x" || Ascii.eqb x "X")%bool then Some (16, r')
            else if (Ascii.eqb x "o" || Ascii.eqb x "O")%bool then Some (8, r')
            else if (Ascii.eqb x "b" || Ascii.eqb x "B")%bool then Some (2, r')
            else None
        | [] => None
        end in
      match radix with
      | Some (b, ds) => radix_literal b ds
      | None =>
          if Ascii.eqb c "-" then negate (unsigned_literal r)
          else if Ascii.eqb c "+" then unsigned_literal r
          else unsigned_literal (c :: r)
      end
  end.

(** ** Strings out of values: [String(v)] *)

Definition string_of_Z (n : Z) : string := NilZero.string_of_int (Z.to_int n).

Fixpoint join (sep : string) (l : list string) : string :=
  match l with
  | [] => ""
  | [x] => x
  | x :: r => (x ++ sep ++ join sep r)%string
  end.

(** Integers print in plain decimal (the exponent form that JavaScript
    uses from 10^21 on denotes the same number). *)
Fixpoint ToString (v : value) : string :=
  match v with
  | VUndef => "undefined"
  | VNull => "null"
  | VBool b => if b then "true" else "false"
  | VNum n => string_of_Z n
  | VStr s => s
  | VArr l =>
      join "," (map (fun x => if nullish x then "" else ToString x) l)
  | VObj _ => "[object Object]"
  | VFun n => ("function " ++ n ++ "() { [native code] }")%string
  end.

(** [Number(v)]. *)
Definition ToNumber (v : value) : number :=
  match v with
  | VUndef => NaN
  | VNull => Int 0
  | VBool b => Int (if b then 1 else 0)
  | VNum n => Int n
  | VStr s => StringToNumber s
  | VArr _ | VObj _ | VFun _ => StringToNumber (ToString v)
  end.

(** ** Dates *)

(** A [Date] object: a time value in milliseconds since the epoch (UTC),
    or the invalid date.  [DateUnknown] is a date this model does not
    determine: one built from a non-integral number, or from a string that
    engines read by their own heuristics or relative to the local zone. *)
Inductive date : Type :=
| Date (ms : Z)
| InvalidDate
| DateUnknown.

Definition max_time : Z := 8640000000000000.

(** [new Date(n)] for a number [n] ([TimeClip]). *)
Definition Date_of_number (n : number) : date :=
  match n with
  | Int z => if Z.abs z <=? max_time then Date z else InvalidDate
  | NaN | Infinite => InvalidDate
  | Frac => DateUnknown
  end.

Definition leap_year (y : Z) : bool :=
  ((y mod 4 =? 0) && negb (y mod 100 =? 0)) || (y mod 400 =? 0).

Definition days_in_month (y m : Z) : Z :=
  if m =? 2 then (if leap_year y then 29 else 28)
  else if (m =? 4) || (m =? 6) || (m =? 9) || (m =? 11) then 30
  else 31.

(** Days from 1970-01-01 to the civil date [y]-[m]-[d] (proleptic
    Gregorian calendar). *)
Definition days_from_civil (y m d : Z) : Z :=
  let y' := if m <=? 2 then y - 1 else y in
  let era := y' / 400 in
  let yoe := y' - era * 400 in
  let doy := (153 * (if 2 <? m then m - 3 else m + 9) + 2) / 5 + d - 1 in
  let doe := yoe * 365 + yoe / 4 - yoe / 100 + doy in
  era * 146097 + doe - 719468.

Fixpoint take_digits (n : nat) (acc : Z) (l : list ascii)
  : option (Z * list ascii) :=
  match n with
  | O => Some (acc, l)
  | S n' =>
      match l with
      | c :: r =>
          if is_digit c then take_digits n' (acc * 10 + digit_val c) r
          else None
      | [] => None
      end
  end.

Definition expect (c : ascii) (l : list ascii) : option (list ascii) :=
  match l with
  | x :: r => if Ascii.eqb x c then Some r else None
  | [] => None
  end.

Definition obind {A B} (o : option A) (f : A -> option B) : option B :=
  match o with
  | Some a => f a
  | None => None
  end.

Notation "'let?' x := o 'in' k" := (obind o (fun x => k))
  (at level 10, x name, o at level 200, k at level 200).
Notation "'let?' ' p := o 'in' k" :=
  (obind o (fun x => match x with p => k end))
  (at level 10, p pattern, o at level 200, k at level 200).

(** The time of day [THH:mm:ss] or [THH:mm:ss.sss] followed by [Z], in
    milliseconds. *)
Definition parse_time_utc (l : list ascii) : option Z :=
  let? l := expect "T" l in
  let? '(h, l) := take_digits 2 0 l in
  let? l := expect ":" l in
  let? '(mi, l) := take_digits 2 0 l in
  let? l := expect ":" l in
  let? '(sec, l) := take_digits 2 0 l in
  let? '(ms, l) :=
    match expect "." l with
    | Some l' => take_digits 3 0 l'
    | None => Some (0, l)
    end in
  let? l := expect "Z" l in
  match l with
  | [] =>
      if (h <=? 23) && (mi <=? 59) && (sec <=? 59)
      then Some (((h * 60 + mi) * 60 + sec) * 1000 + ms)
      else None
  | _ :: _ => None
  end.

(** The two forms of the date-time string format whose reading does not
    depend on the engine or on the local time zone: [YYYY-MM-DD] and
    [YYYY-MM-DDTHH:mm:ss(.sss)Z], with every field in range. *)
Definition parse_iso_utc (l : list ascii) : option Z :=
  let? '(y, l) := take_digits 4 0 l in
  let? l := expect "-" l in
  let? '(m, l) := take_digits 2 0 l in
  let? l := expect "-" l in
  let? '(d, l) := take_digits 2 0 l in
  if (1 <=? m) && (m <=? 12) && (1 <=? d) && (d <=? days_in_month y m) then
    let day := days_from_civil y m d * 86400000 in
    match l with
    | [] => Some day
    | _ :: _ => let? t := parse_time_utc l in Some (day + t)
    end
  else None.

(** [new Date(s)] for a string: a string without any digit is not a date;
    the two UTC forms above are read; the rest is left undetermined. *)
Definition Date_of_string (s : string) : date :=
  if negb (existsb is_digit (chars s)) then InvalidDate
  else match parse_iso_utc (chars s) with
       | Some t => Date t
       | None => DateUnknown
       end.

(** [new Date(v)]: strings are parsed, objects and arrays go through their
    string form, the rest through [Number]. *)
Definition Date_of_value (v : value) : date :=
  match v with
  | VStr s => Date_of_string s
  | VArr _ | VObj _ | VFun _ => Date_of_string (ToString v)
  | _ => Date_of_number (ToNumber v)
  end.

End JS.

(* ===================================================================== *)
(** * The message collection *)
(* ===================================================================== *)

Module Store.
Import JS.

(** A stored message: the paths of the schema in [models/Message.js].  A
    path holds the value the engine handed to the collection ([VUndef] for
    a path that was never set): the casting and validation that the
    object-document mapper does on the way are not part of this model. *)
Record doc : Type := mkDoc {
  wa_id : value;
  msg_id : value;
  meta_msg_id : value;
  text : value;
  timestamp : date;
  status : value;
  profileName : value;
  fromSelf : value
}.

(** The collection, in insertion order. *)
Definition collection : Type := list doc.

(** The equality condition [{ path: q }] of a filter: a [null] or
    [undefined] operand selects the documents where the path is null or
    missing, any other operand the documents holding that value.  The
    operand is compared as it is: this is what the store does with an
    operand of the type of the path, a string for the paths filtered here
    (the mapper casts an operand of another type first, or rejects it;
    see [Schema] below). *)
Definition eq_filter (q field : value) : bool :=
  if nullish q then nullish field else value_eqb q field.

(** The document [d] with [s] at the path [status]. *)
Definition with_status (s : value) (d : doc) : doc :=
  mkDoc (wa_id d) (msg_id d) (meta_msg_id d) (text d) (timestamp d)
        s (profileName d) (fromSelf d).

(** [{ $set: { status } }].  A key whose value is [undefined] is dropped
    from an update document. *)
Definition set_status (s : value) (d : doc) : doc :=
  match s with
  | VUndef => d
  | _ => with_status s d
  end.

(** Update the first document that satisfies [p]; the updated document and
    the new collection, if there is one. *)
Fixpoint update_first (p : doc -> bool) (f : doc -> doc) (c : collection)
  : option (doc * collection) :=
  match c with
  | [] => None
  | d :: r =>
      if p d then Some (f d, f d :: r)
      else match update_first p f r with
           | Some (d', r') => Some (d', d :: r')
           | None => None
           end
  end.

(** [Model.findOneAndUpdate(filter, update, { new: true })]: the updated
    document, or [None] for JavaScript's [null]. *)
Definition findOneAndUpdate (p : doc -> bool) (f : doc -> doc)
  (c : collection) : option doc * collection :=
  match update_first p f c with
  | Some (d, c') => (Some d, c')
  | None => (None, c)
  end.

(** [Model.updateOne(filter, { $setOnInsert: ins, $set: .. },
    { upsert: true })]: the first match gets the [$set] part [f]; without
    a match the document [ins] is inserted with [f] applied. *)
Definition updateOne_upsert (p : doc -> bool) (ins : doc) (f : doc -> doc)
  (c : collection) : collection :=
  match update_first p f c with
  | Some (_, c') => c'
  | None => c ++ [f ins]
  end.

(** [Model.updateOne(filter, { $set: .. })], without upsert. *)
Definition updateOne (p : doc -> bool) (f : doc -> doc) (c : collection)
  : collection :=
  match update_first p f c with
  | Some (_, c') => c'
  | None => c
  end.

(** The unique index on [msg_id]. *)
Definition unique_ids (c : collection) : Prop := NoDup (map msg_id c).

(** The number of documents that the filter [{ msg_id: q }] selects. *)
Definition count_id (q : value) (c : collection) : nat :=
  List.length (filter (fun d => eq_filter q (msg_id d)) c).

End Store.

(* ===================================================================== *)
(** * The upsert engine *)
(* ===================================================================== *)

Module Engine.
Import JS Store.

(** [asDate(ts)]; [now] is what [new Date()] reads at the call. *)
Definition asDate (now : Z) (ts : value) : date :=
  if negb (truthy ts) then Date now
  else
    match ToNumber ts with
    | NaN => Date_of_value ts
    | Int n => Date_of_number (Int (if 1000000000000 <? n then n else n * 1000))
    | n => Date_of_number n
    end.

(** The argument object of [upsertMessage]. *)
Module Msg.
Record t : Type := make {
  wa_id : value;
  msg_id : value;
  meta_msg_id : value;
  text : value;
  timestamp : value;
  status : value;
  profileName : value;
  fromSelf : value
}.
End Msg.

(** The argument object of [applyStatus]. *)
Module Status.
Record t : Type := make {
  id : value;
  metaMsgId : value;
  status : value
}.
End Status.

(** A default in a destructuring pattern: taken for [undefined] only. *)
Definition default (v d : value) : value :=
  match v with
  | VUndef => d
  | _ => v
  end.

(** The engine's calls: from a collection to the value the call resolves
    to and the collection it leaves. *)
Definition St (A : Type) : Type := collection -> A * collection.

(** [upsertMessage({...})].  The function has no [return] with a value:
    every call resolves to [undefined].  The store call is taken to
    succeed and to store the fields as they are handed over, which is the
    case for the inputs that [Schema.storable] describes; that the mapper
    rejects a field it cannot cast (a timestamp that is no date, an
    object where a string is expected), and the call with it, is not
    modelled. *)
Definition upsertMessage (now : Z) (a : Msg.t) : St value := fun c =>
  let status := default (Msg.status a) (VStr "sent") in
  let profileName := default (Msg.profileName a) (VStr "Unknown") in
  let fromSelf := default (Msg.fromSelf a) (VBool false) in
  if negb (truthy (Msg.wa_id a)) || negb (truthy (Msg.msg_id a))
  then (VUndef, c)
  else
    (VUndef,
     updateOne_upsert
       (fun d => eq_filter (Msg.msg_id a) (Store.msg_id d))
       (mkDoc (Msg.wa_id a) (Msg.msg_id a) (Msg.meta_msg_id a)
              (coalesce (Msg.text a) (VStr ""))
              (asDate now (Msg.timestamp a))
              (VStr "sent") profileName fromSelf)
       (set_status status)
       c).

(** [applyStatus({ id, metaMsgId, status })]; it too resolves to
    [undefined] on every path.  The two lookups are taken to succeed,
    which is the case for the inputs that [Schema.plain_status] describes;
    a key or a status that the mapper cannot cast makes the real call
    fail before any retry, which is not modelled. *)
Definition applyStatus (a : Status.t) : St value := fun c =>
  if negb (truthy (Status.id a)) && negb (truthy (Status.metaMsgId a))
  then (VUndef, c)
  else
    let (byMsgId, c1) :=
      findOneAndUpdate
        (fun d => eq_filter (Status.id a) (Store.msg_id d))
        (set_status (Status.status a)) c in
    match byMsgId with
    | Some _ => (VUndef, c1)
    | None =>
        if truthy (Status.metaMsgId a) then
          let (_, c2) :=
            findOneAndUpdate
              (fun d => eq_filter (Status.metaMsgId a) (Store.meta_msg_id d))
              (set_status (Status.status a)) c1 in
          (VUndef, c2)
        else (VUndef, c1)
    end.

(** Names for the parts of the two store calls: the filters on the two
    keys, the document that [upsertMessage] inserts, the status it sets. *)
Definition by_msg_id (q : value) (d : doc) : bool :=
  eq_filter q (Store.msg_id d).

Definition by_meta_msg_id (q : value) (d : doc) : bool :=
  eq_filter q (Store.meta_msg_id d).

Definition on_insert (now : Z) (a : Msg.t) : doc :=
  mkDoc (Msg.wa_id a) (Msg.msg_id a) (Msg.meta_msg_id a)
        (coalesce (Msg.text a) (VStr ""))
        (asDate now (Msg.timestamp a))
        (VStr "sent")
        (default (Msg.profileName a) (VStr "Unknown"))
        (default (Msg.fromSelf a) (VBool false)).

Definition status_of (a : Msg.t) : value :=
  default (Msg.status a) (VStr "sent").

(** The status input [a] locates the record [r] of the collection
    [c1 ++ r :: c2]: [r] is the first record under the primary id, or no
    record is under the primary id and [r] is the first one under the
    correlation id. *)
Definition locates (a : Status.t) (c1 : collection) (r : doc)
  (c2 : collection) : Prop :=
  (by_msg_id (Status.id a) r = true /\
   (truthy (Status.id a) = true \/ truthy (Status.metaMsgId a) = true) /\
   forall d, In d c1 -> by_msg_id (Status.id a) d = false)
  \/
  ((forall d, In d (c1 ++ r :: c2) -> by_msg_id (Status.id a) d = false) /\
   truthy (Status.metaMsgId a) = true /\
   by_meta_msg_id (Status.metaMsgId a) r = true /\
   forall d, In d c1 -> by_meta_msg_id (Status.metaMsgId a) d = false).

(** The guard of [upsertMessage]: the input has a conversation id and a
    message id. *)
Definition accepted (a : Msg.t) : bool :=
  truthy (Msg.wa_id a) && truthy (Msg.msg_id a).

(** Ingesting the same message event once at each of the times [nows]. *)
Definition ingest (nows : list Z) (a : Msg.t) (c : collection) : collection :=
  fold_left (fun c now => snd (upsertMessage now a c)) nows c.

(** The three values of the schema's [status] enumeration. *)
Definition delivery_status (s : value) : Prop :=
  s = VStr "sent" \/ s = VStr "delivered" \/ s = VStr "read".

End Engine.

(* ===================================================================== *)
(** * The schema: [models/Message.js] *)
(* ===================================================================== *)

Module Schema.
Import JS Store Engine.

(** The schema types the paths [wa_id], [msg_id], [meta_msg_id], [text],
    [status] and [profileName] as [String], [timestamp] as [Date] and
    [fromSelf] as [Boolean].  The object-document mapper casts the values
    of a filter and of an update to these types before the store sees
    them, and rejects the call when a value cannot be cast; the store
    calls of this development do neither (see the head of the file).
    The predicates below delimit the values on which the two agree: those
    that a cast leaves as they are.  The facts that say what is matched
    or stored are stated for such values. *)

(** What a [String] path takes as it is: a string, or no value. *)
Definition plain (v : value) : bool :=
  match v with
  | VStr _ | VNull | VUndef => true
  | _ => false
  end.

(** What a [Boolean] path takes as it is. *)
Definition flag (v : value) : bool :=
  match v with
  | VBool _ | VNull | VUndef => true
  | _ => false
  end.

(** What a [Date] path takes: a date that is not invalid. *)
Definition valid (d : date) : bool :=
  match d with
  | Date _ => true
  | _ => false
  end.

(** A message input all of whose fields the schema takes as they are;
    the timestamp, once [asDate] has normalized it (the time of the call
    does not matter for that, see [EngineFacts.valid_at_any_time]). *)
Definition storable (a : Msg.t) : bool :=
  plain (Msg.wa_id a) && plain (Msg.msg_id a) && plain (Msg.meta_msg_id a)
  && plain (Msg.text a) && valid (asDate 0 (Msg.timestamp a))
  && plain (Msg.status a) && plain (Msg.profileName a)
  && flag (Msg.fromSelf a).

(** A status input whose two keys and whose status are strings or
    absent. *)
Definition plain_status (a : Status.t) : bool :=
  plain (Status.id a) && plain (Status.metaMsgId a)
  && plain (Status.status a).

(** A field of a request body that is empty (and then not used in a
    filter) or a string. *)
Definition textual (v : value) : bool := negb (truthy v) || plain v.

End Schema.

(* ===================================================================== *)
(** * Running a script: state, exceptions, loops *)
(* ===================================================================== *)

Module Script.
Import JS.

(** What the scripts can throw: the [SyntaxError] of [JSON.parse], the
    [TypeError] of reading property [prop] of [null] or [undefined], and
    the [TypeError] of a [for .. of] over something that is not iterable. *)
Inductive error : Type :=
| SyntaxError (message : string)
| TypeError (subject : value) (prop : string)
| NotIterable (subject : value).

Inductive result (A : Type) : Type :=
| Ok (a : A)
| Throw (e : error).
Arguments Ok {A} a.
Arguments Throw {A} e.

(** A payload file as [JSON.parse] sees it ([JSON.parse] itself is not
    modelled): the parsed value, or the error it throws. *)
Inductive parsed : Type :=
| Parsed (payload : value)
| Malformed (message : string).

Section Monad.
(** The state a script runs in. *)
Variable S : Type.

(** Computations that read and write the state and may throw. *)
Definition M (A : Type) : Type := S -> result A * S.

Definition ret {A} (a : A) : M A := fun w => (Ok a, w).

Definition throw {A} (e : error) : M A := fun w => (Throw e, w).

Definition bind {A B} (m : M A) (k : A -> M B) : M B := fun w =>
  match m w with
  | (Ok a, w') => k a w'
  | (Throw e, w') => (Throw e, w')
  end.

(** [try { m } catch (e) { .. }]: the outcome of [m], handed on. *)
Definition try_ {A} (m : M A) : M (result A) := fun w =>
  let (r, w') := m w in (Ok r, w').

(** [for (const x of l) { body }]. *)
Fixpoint for_of {A} (l : list A) (body : A -> M unit) : M unit :=
  match l with
  | [] => ret tt
  | x :: r => bind (body x) (fun _ => for_of r body)
  end.

(** A loop that accumulates into local variables. *)
Fixpoint fold_of {A B} (l : list A) (body : B -> A -> M B) (b : B) : M B :=
  match l with
  | [] => ret b
  | x :: r => bind (body b x) (fun b' => fold_of r body b')
  end.

(** What [for .. of] runs over: the elements of an array, the characters
    of a string; nothing else that JSON holds is iterable. *)
Definition iterate (v : value) : M (list value) :=
  match v with
  | VArr l => ret l
  | VStr s =>
      ret (map (fun c => VStr (String c EmptyString)) (list_ascii_of_string s))
  | _ => throw (NotIterable v)
  end.

(** [v.k]: throws on [null] and [undefined]. *)
Definition getM (v : value) (k : string) : M value :=
  if nullish v then throw (TypeError v k) else ret (get v k).

(** [a || b] when evaluating an operand may throw. *)
Definition orM (a b : M value) : M value :=
  bind a (fun x => if truthy x then ret x else b).
End Monad.

Arguments ret {S A} a.
Arguments throw {S A} e.
Arguments bind {S A B} m k.
Arguments try_ {S A} m.
Arguments for_of {S A} l body.
Arguments fold_of {S A B} l body b.
Arguments iterate {S} v.
Arguments getM {S} v k.
Arguments orM {S} a b.

Declare Scope script_scope.
Delimit Scope script_scope with script.
Notation "x <- m ;; k" := (bind m (fun x => k))
  (at level 61, m at next level, right associativity) : script_scope.
Notation "m ;;; k" := (bind m (fun _ => k))
  (at level 61, right associativity) : script_scope.

(** A computation all of whose runs relate the state before to the state
    after by [I]. *)
Definition keeps {S A} (I : S -> S -> Prop) (m : M S A) : Prop :=
  forall w, I w (snd (m w)).

(** [s.toLowerCase()] and [s.endsWith(suffix)], on ASCII names. *)
Definition lower (c : ascii) : ascii :=
  let n := nat_of_ascii c in
  if ((65 <=? n) && (n <=? 90))%nat then ascii_of_nat (n + 32) else c.

Fixpoint toLowerCase (s : string) : string :=
  match s with
  | EmptyString => EmptyString
  | String c r => String (lower c) (toLowerCase r)
  end.

Definition endsWith (s suffix : string) : bool :=
  let n := String.length s in
  let k := String.length suffix in
  (k <=? n)%nat && String.eqb (substring (n - k) k s) suffix.

End Script.

(* ===================================================================== *)
(** * The batch driver: [scripts/processPayloads.mjs] *)
(* ===================================================================== *)

Module Batch.
Import JS Store Engine Script.
Local Open Scope js_scope.
Local Open Scope script_scope.

(** The calls made on the engine, in the order they are made. *)
Inductive call : Type :=
| CallUpsert (a : Msg.t)
| CallStatus (a : Status.t).

(** The lines the driver writes with [console.log] and [console.error]. *)
Inductive line : Type :=
| Connected
| NoJsonFiles
| Processing (f : string)
| Done (f : string)
| Failed (f : string) (e : error)
| Disconnected.

(** The state the script runs in: the collection, the number of engine
    calls made so far, their record, and the console. *)
Record world : Type := mkWorld {
  db : collection;
  tick : nat;
  calls : list call;
  console : list line
}.

Definition log (l : line) : M world unit := fun w =>
  (Ok tt, mkWorld (db w) (tick w) (calls w) (console w ++ [l])).

Section Clock.

(** [clock n] is the time that [new Date()] reads during the engine call
    number [n]. *)
Variable clock : nat -> Z.

(** [await upsertMessage(a)]. *)
Definition call_upsertMessage (a : Msg.t) : M world value := fun w =>
  let (r, c) := upsertMessage (clock (tick w)) a (db w) in
  (Ok r, mkWorld c (S (tick w)) (calls w ++ [CallUpsert a]) (console w)).

(** [await applyStatus(a)]. *)
Definition call_applyStatus (a : Status.t) : M world value := fun w =>
  let (r, c) := applyStatus a (db w) in
  (Ok r, mkWorld c (S (tick w)) (calls w ++ [CallStatus a]) (console w)).

(** [extractContacts(payload)]: the pair [{ wa_id, profileName }]. *)
Definition extractContacts (payload : value) : value * value :=
  let contact := oindex0 (payload ?. "contacts") in
  let wa_id :=
    contact ?. "wa_id" |? contact ?. "waId" |? payload ?. "wa_id"
    |? payload ?. "from" ?. "id" |? VNull in
  let profileName :=
    contact ?. "profile" ?. "name"
    |? payload ?. "profile" ?. "name"
    |? oindex0 (payload ?. "value" ?. "contacts") ?. "profile" ?. "name"
    |? VStr "Unknown" in
  (wa_id, profileName).

(** [asArray(maybeArray)]. *)
Definition asArray (maybeArray : value) : list value :=
  if negb (truthy maybeArray) then []
  else match maybeArray with
       | VArr l => l
       | _ => [maybeArray]
       end.

(** [asArray(..)[0]]. *)
Definition first (l : list value) : value := hd VUndef l.

(** The object that the loop over the messages hands to [upsertMessage]
    for the entry [m], once [msg_id] is evaluated. *)
Definition message_args (payload value_ fallbackWaId fallbackProfile : value)
  (m msg_id : value) : Msg.t :=
  let wa_id :=
    m ?. "from" |? m ?. "from" ?. "id" |? fallbackWaId |? m ?. "wa_id" in
  let meta_msg_id := m ?. "context" ?. "id" |? m ?. "meta_msg_id" in
  let text :=
    m ?. "text" ?. "body" ?? m ?. "text" ?? m ?. "message" ?? VStr "" in
  let ts :=
    m ?. "timestamp" |? value_ ?. "timestamp" |? payload ?. "timestamp" in
  Msg.make wa_id msg_id meta_msg_id text ts (VStr "sent")
           fallbackProfile (VBool false).

(** The body of the loop over the messages. *)
Definition message_step (payload value_ fallbackWaId fallbackProfile : value)
  (m : value) : M world unit :=
  msg_id <- orM (getM m "id") (getM m "msg_id") ;;
  call_upsertMessage
    (message_args payload value_ fallbackWaId fallbackProfile m msg_id) ;;;
  ret tt.

(** The object that the loop over the statuses hands to [applyStatus] for
    the entry [s], once [status] is evaluated. *)
Definition status_args (s status : value) : Status.t :=
  let id :=
    s ?. "id" |? s ?. "message_id" |? s ?. "msg_id" |? s ?. "meta_msg_id" in
  let metaMsgId := s ?. "meta_msg_id" |? s ?. "id" in
  Status.make id metaMsgId status.

(** The body of the loop over the statuses. *)
Definition status_step (s : value) : M world unit :=
  status <- orM (getM s "status")
              (ret (s ?. "conversation" ?. "status" |? s ?. "message_status")) ;;
  call_applyStatus (status_args s status) ;;;
  ret tt.

(** [processFile], once [value] is chosen: the two loops. *)
Definition process_value (payload value_ : value) : M world unit :=
  let messages :=
    value_ ?. "messages" |? payload ?. "messages" |? VArr [] in
  let statuses :=
    value_ ?. "statuses" |? value_ ?. "message_status"
    |? payload ?. "statuses" |? VArr [] in
  let (fallbackWaId, fallbackProfile) := extractContacts value_ in
  for_of (asArray messages)
    (message_step payload value_ fallbackWaId fallbackProfile) ;;;
  for_of (asArray statuses) status_step.

(** [processFile], from the parsed payload on. *)
Definition process_payload (payload : value) : M world unit :=
  e <- orM (getM payload "entry") (getM payload "entries") ;;
  let entry := first (asArray e) in
  let change :=
    if truthy (entry ?. "changes") then first (asArray (get entry "changes"))
    else VNull in
  value_ <- orM (ret (change ?. "value"))
              (orM (getM payload "value") (ret payload)) ;;
  process_value payload value_.

(** [processFile(filePath)], for a file whose text parses as [src]. *)
Definition processFile (src : parsed) : M world unit :=
  match src with
  | Malformed msg => throw (SyntaxError msg)
  | Parsed payload => process_payload payload
  end.

(** [f.toLowerCase().endsWith('.json')]. *)
Definition is_json (f : string * parsed) : bool :=
  endsWith (toLowerCase (fst f)) ".json".

(** The body of the loop of [main] for one file. *)
Definition file_step (f : string * parsed) : M world unit :=
  log (Processing (fst f)) ;;;
  r <- try_ (processFile (snd f)) ;;
  match r with
  | Ok _ => log (Done (fst f))
  | Throw e => log (Failed (fst f) e)
  end.

(** [main()], over the directory [payloads/] given as the list of its
    files, each with what its text parses to. *)
Definition main (files : list (string * parsed)) : M world unit :=
  log Connected ;;;
  (let jsonFiles := filter is_json files in
   match jsonFiles with
   | [] => log NoJsonFiles
   | _ => for_of jsonFiles file_step
   end) ;;;
  log Disconnected.

End Clock.

(** The world before a run, on a given collection. *)
Definition start (c : collection) : world := mkWorld c 0 [] [].

(** [m.id || m.msg_id] for an entry [m] that is not [null]. *)
Definition msg_id_of (m : value) : value := get m "id" |? get m "msg_id".

(** The input that the loop over the messages resolves from the entry
    [m]. *)
Definition message_input (payload value_ fallbackWaId fallbackProfile : value)
  (m : value) : Msg.t :=
  message_args payload value_ fallbackWaId fallbackProfile m (msg_id_of m).

(** [s.status || s?.conversation?.status || s?.message_status] and the
    input that the loop over the statuses resolves from the entry [s], for
    an entry that is not [null]. *)
Definition status_of_entry (s : value) : value :=
  get s "status" |? s ?. "conversation" ?. "status" |? s ?. "message_status".

Definition status_input (s : value) : Status.t :=
  status_args s (status_of_entry s).

(** What [processFile] takes for [value], for a payload that is not
    [null]: the value of the first change of the first entry, or the
    [value] of the payload, or the payload itself. *)
Definition container (payload : value) : value :=
  let entry := first (asArray (get payload "entry" |? get payload "entries")) in
  let change :=
    if truthy (entry ?. "changes") then first (asArray (get entry "changes"))
    else VNull in
  change ?. "value" |? get payload "value" |? payload.

(** The message entries and the status entries that [processFile] runs
    over. *)
Definition messages_of (payload value_ : value) : list value :=
  asArray (value_ ?. "messages" |? payload ?. "messages" |? VArr []).

Definition statuses_of (payload value_ : value) : list value :=
  asArray (value_ ?. "statuses" |? value_ ?. "message_status"
           |? payload ?. "statuses" |? VArr []).

(** A status entry that carries an id and a status, nothing else. *)
Definition status_event (id status : value) : value :=
  VObj [("id", id); ("status", status)].

(** The nested webhook envelope whose first entry's first change carries
    [inner]; [changes] and [entries] are the changes and entries after
    it. *)
Definition envelope (field inner : value) (changes entries : list value)
  : value :=
  VObj [("entry",
         VArr (VObj [("changes",
                      VArr (VObj [("field", field); ("value", inner)]
                            :: changes))]
               :: entries))].

(** The middle of [main]: the loop over the JSON files, or the remark
    that there is none. *)
Definition files_loop (clock : nat -> Z) (jsonFiles : list (string * parsed))
  : M world unit :=
  match jsonFiles with
  | [] => log NoJsonFiles
  | _ => for_of jsonFiles (file_step clock)
  end.

(** Processing the files one after the other, each from the world the one
    before left, whether it ended well or not. *)
Definition process_all (clock : nat -> Z) (files : list (string * parsed))
  (w : world) : world :=
  fold_left (fun w f => snd (processFile clock (snd f) w)) files w.

(** ** Relating two runs *)

(** Two worlds with the same collection at the same point of the clock;
    the record of calls and the console, which nothing reads, may differ. *)
Definition same_state (w1 w2 : world) : Prop :=
  db w1 = db w2 /\ tick w1 = tick w2.

(** Two computations that, from worlds in the same state, end with the
    same outcome in worlds in the same state. *)
Definition alike {A} (m1 m2 : M world A) : Prop :=
  forall w1 w2, same_state w1 w2 ->
    fst (m1 w1) = fst (m2 w2) /\ same_state (snd (m1 w1)) (snd (m2 w2)).

(** The calls made between two worlds are upserts only, or status
    applications only. *)
Definition upserts_only (w w' : world) : Prop :=
  exists us, calls w' = calls w ++ map CallUpsert us.

Definition statuses_only (w w' : world) : Prop :=
  exists ss, calls w' = calls w ++ map CallStatus ss.

(** The calls made between two worlds are some upserts followed by some
    status applications. *)
Definition upserts_then_statuses (w w' : world) : Prop :=
  exists us ss,
    calls w' = calls w ++ map CallUpsert us ++ map CallStatus ss.

(** The console is left as it was. *)
Definition console_kept (w w' : world) : Prop := console w' = console w.

(** How many calls of [upsertMessage] and of [applyStatus] a run made. *)
Definition upserts_made (w : world) : nat :=
  List.length
    (filter (fun c => match c with CallUpsert _ => true | _ => false end)
       (calls w)).

Definition statuses_made (w : world) : nat :=
  List.length
    (filter (fun c => match c with CallStatus _ => true | _ => false end)
       (calls w)).

(** The message ids of the collection, in order. *)
Definition ids (w : world) : list value := map Store.msg_id (db w).

(** The collection holds the same message ids. *)
Definition ids_kept (w w' : world) : Prop := ids w' = ids w.

End Batch.

(* ===================================================================== *)
(** * The older import script: [import.js] *)
(* ===================================================================== *)

Module ImportScript.
Import JS Store Script.
Local Open Scope js_scope.
Local Open Scope script_scope.

(** The store calls of the script, in the order they are made: the upsert
    of a message under its [msg_id], the update of a status. *)
Inductive op : Type :=
| OpMessage (msg_id : value)
| OpStatus (metaId status : value).

(** The state of a run: the collection, the store calls made, and the
    files reported as processed. *)
Record world : Type := mkWorld {
  db : collection;
  ops : list op;
  processed : list string
}.

(** [{ ...m, wa_id }]: the own properties of [m] with [wa_id] set. *)
Definition own_props (m : value) : list (string * value) :=
  match m with
  | VObj l => l
  | VArr l =>
      combine
        (map (fun i => string_of_Z (Z.of_nat i)) (seq 0 (List.length l))) l
  | VStr s =>
      let l := list_ascii_of_string s in
      combine
        (map (fun i => string_of_Z (Z.of_nat i)) (seq 0 (List.length l)))
        (map (fun c => VStr (String c EmptyString)) l)
  | _ => []
  end.

Definition spread (m wa_id : value) : value :=
  VObj (("wa_id", wa_id) :: own_props m).

(** The body of the loop over the changes of an entry: it appends to the
    local arrays [messages] and [statuses]. *)
Definition change_step (acc : list value * list value) (change : value)
  : M world (list value * list value) :=
  field <- getM change "field" ;;
  acc <- (if value_eqb field (VStr "messages") then
            contacts <- getM (get change "value") "contacts" ;;
            let wa_id := oindex0 contacts ?. "wa_id" in
            ms <- iterate (get (get change "value") "messages" |? VArr []) ;;
            ret (fst acc ++ map (fun m => spread m wa_id) ms, snd acc)
          else ret acc) ;;
  if value_eqb field (VStr "statuses") then
    v <- getM (get change "value") "statuses" ;;
    ss <- iterate (v |? VArr []) ;;
    ret (fst acc, snd acc ++ ss)
  else ret acc.

Definition entry_step (acc : list value * list value) (entry : value)
  : M world (list value * list value) :=
  changes <- getM entry "changes" ;;
  cs <- iterate changes ;;
  fold_of cs change_step acc.

(** [n * 1000]. *)
Definition times1000 (n : number) : number :=
  match n with
  | Int z => Int (z * 1000)
  | _ => n
  end.

(** [new Date(Number(ts) * 1000)]. *)
Definition import_date (ts : value) : date :=
  Date_of_number (times1000 (ToNumber ts)).

(** A path of a [$set] update: a key whose value is [undefined] is
    dropped. *)
Definition set_path (new old : value) : value :=
  match new with
  | VUndef => old
  | _ => new
  end.

(** [{ $set: doc }] for the [doc] built from a message. *)
Definition set_message (wa id txt : value) (ts : date) (d : doc) : doc :=
  mkDoc (set_path wa (wa_id d)) (set_path id (msg_id d))
        (set_path id (meta_msg_id d)) (set_path txt (text d))
        ts (VStr "sent") (profileName d) (fromSelf d).

(** The body of the loop over the messages:
    [Message.updateOne({ msg_id }, { $set: doc }, { upsert: true })].
    [Message] is taken to be the model that [models/Message.js] exports,
    as the script intends (it binds it with [require], and what that
    gives for this module depends on the runtime), and the call to
    succeed; the facts about this script are those that hold also when
    the call throws, or are relative to it. *)
Definition message_upsert (msg : value) : M world unit := fun w =>
  let id := get msg "id" in
  let txt := get msg "text" ?. "body" |? VStr "" in
  let ts := import_date (get msg "timestamp") in
  let fresh :=
    mkDoc VUndef (if nullish id then VNull else id) VUndef (VStr "") ts
          (VStr "sent") (VStr "Unknown") (VBool false) in
  (Ok tt,
   mkWorld
     (updateOne_upsert (fun d => eq_filter id (msg_id d)) fresh
        (set_message (get msg "wa_id") id txt ts) (db w))
     (ops w ++ [OpMessage id]) (processed w)).

(** The body of the loop over the statuses. *)
Definition status_update (st : value) : M world unit :=
  metaId <- orM (getM st "id")
              (ret (get st "messageId" |? get st "meta_msg_id")) ;;
  if negb (truthy metaId) then ret tt
  else fun w =>
    (Ok tt,
     mkWorld
       (updateOne (fun d => eq_filter metaId (msg_id d))
          (set_status (get st "status")) (db w))
       (ops w ++ [OpStatus metaId (get st "status")]) (processed w)).

(** The body of the loop over the files. *)
Definition import_file (f : string * parsed) : M world unit :=
  data <- match snd f with
          | Parsed v => ret v
          | Malformed msg => throw (SyntaxError msg)
          end ;;
  metaData <- getM data "metaData" ;;
  es <- iterate (metaData ?. "entry" |? VArr []) ;;
  acc <- fold_of es entry_step ([], []) ;;
  for_of (fst acc) message_upsert ;;;
  for_of (snd acc) status_update ;;;
  fun w => (Ok tt, mkWorld (db w) (ops w) (processed w ++ [fst f])).

(** [importPayloads()], over the directory given as the list of its files.
    Nothing is caught per file: the first exception ends the import. *)
Definition importPayloads (files : list (string * parsed)) : M world unit :=
  for_of (filter (fun f => endsWith (fst f) ".json") files) import_file.

Definition start (c : collection) : world := mkWorld c [] [].

(** The store calls made between two worlds are message upserts only,
    status updates only, or some upserts followed by some updates. *)
Definition messages_only (w w' : world) : Prop :=
  exists ms, ops w' = ops w ++ map OpMessage ms.

Definition statuses_only (w w' : world) : Prop :=
  exists ss, ops w' = ops w ++ map (fun s => OpStatus (fst s) (snd s)) ss.

Definition messages_then_statuses (w w' : world) : Prop :=
  exists ms ss,
    ops w' =
    ops w ++ map OpMessage ms ++ map (fun s => OpStatus (fst s) (snd s)) ss.

(** The payload of the sample envelope as the import script expects it,
    under [metaData]. *)
Definition under_metaData (v : value) : value := VObj [("metaData", v)].

End ImportScript.

(* ===================================================================== *)
(** * Sample inputs *)
(* ===================================================================== *)

Module Samples.
Import JS Store Engine Script.

(** A message event with an id but without any conversation id. *)
Definition orphan : Msg.t :=
  Msg.make VUndef (VStr "wamid.A1") VUndef (VStr "hello") (VNum 1700000000)
           (VStr "sent") (VStr "Unknown") (VBool false).

(** A complete message event. *)
Definition hello : Msg.t :=
  Msg.make (VStr "919937320320") (VStr "wamid.A1") VUndef (VStr "hello")
           (VNum 1700000000) (VStr "sent") (VStr "Ravi") (VBool false).

(** A stored message that was sent as a reply: its own id is [wamid.B2],
    its correlation id is [wamid.A1]. *)
Definition reply : doc :=
  mkDoc (VStr "919937320320") (VStr "wamid.B2") (VStr "wamid.A1")
        (VStr "on my way") (Date 1700000060000) (VStr "sent")
        (VStr "Ravi") (VBool false).

(** The stored form of [hello], already read. *)
Definition hello_read : doc :=
  mkDoc (VStr "919937320320") (VStr "wamid.A1") VUndef (VStr "hello")
        (Date 1700000000000) (VStr "read") (VStr "Ravi") (VBool false).

(** Another stored message, with no correlation id. *)
Definition hello_read_elsewhere : doc :=
  mkDoc (VStr "918329446654") (VStr "wamid.D4") VUndef (VStr "hi there")
        (Date 1700000030000) (VStr "read") (VStr "Neha") (VBool false).

(** Two message entries of a webhook payload. *)
Definition entry_hello : value :=
  VObj [("id", VStr "wamid.A1"); ("from", VStr "919937320320");
        ("timestamp", VStr "1700000000");
        ("text", VObj [("body", VStr "hello")])].

Definition entry_reply : value :=
  VObj [("id", VStr "wamid.B2"); ("from", VStr "919937320320");
        ("timestamp", VStr "1700000060");
        ("text", VObj [("body", VStr "on my way")])].

(** The two messages at the root of a flat payload. *)
Definition flat_two : value :=
  VObj [("messages", VArr [entry_hello; entry_reply])].

Definition change_of (m : value) : value :=
  VObj [("field", VStr "messages"); ("value", VObj [("messages", VArr [m])])].

(** The same two messages in an envelope, one entry each. *)
Definition envelope_two_entries : value :=
  VObj [("entry",
         VArr [VObj [("changes", VArr [change_of entry_hello])];
               VObj [("changes", VArr [change_of entry_reply])]])].

(** The same two messages in an envelope, as two changes of one entry. *)
Definition envelope_two_changes : value :=
  VObj [("entry",
         VArr [VObj [("changes",
                      VArr [change_of entry_hello; change_of entry_reply])]])].

(** A clock that stands still. *)
Definition noon : nat -> Z := fun _ => 1700000500000.

(** A message entry without an id, and one without any sender. *)
Definition entry_no_id : value :=
  VObj [("from", VStr "919937320320"); ("text", VObj [("body", VStr "??")])].

Definition entry_no_sender : value :=
  VObj [("id", VStr "wamid.C3"); ("text", VObj [("body", VStr "anyone?")])].

(** A flat payload with the two of them between two complete entries. *)
Definition flat_mixed : value :=
  VObj [("messages",
         VArr [entry_hello; entry_no_id; entry_no_sender; entry_reply])].

(** A flat payload where an entry without an id and an entry that is
    [null] come before a complete one. *)
Definition flat_with_null : value :=
  VObj [("messages", VArr [entry_no_id; VNull; entry_hello])].

(** One message and the status event that delivers it. *)
Definition flat_delivered : value :=
  VObj [("messages", VArr [entry_hello]);
        ("statuses",
         VArr [VObj [("id", VStr "wamid.A1"); ("status", VStr "delivered")]])].

(** Three payload files, the second of which is not JSON. *)
Definition three_files : list (string * parsed) :=
  [("a.json", Parsed flat_two);
   ("b.json", Malformed "Unexpected token } in JSON at position 17");
   ("c.json", Parsed flat_mixed)].

End Samples.

(* ===================================================================== *)
(** * The HTTP handlers that write to the collection: [server.js] *)
(* ===================================================================== *)

Module Server.
Import JS Store Engine.
Local Open Scope js_scope.

(** What the handlers emit on the socket: [message:new] with the created
    document and the client id, [message:status] with the keys of the
    updated document and its new status. *)
Inductive event : Type :=
| MessageNew (d : doc) (clientId : value)
| MessageStatus (wa_id msg_id status : value).

(** The body of a response: a JSON value, or a stored document. *)
Inductive body : Type :=
| Json (v : value)
| Document (d : doc).

Record response : Type := respond {
  code : Z;
  payload : body
}.

(** The state of the server: the collection and what was emitted. *)
Record world : Type := mkWorld {
  db : collection;
  emitted : list event
}.

(** The handlers of [POST /delivered] and [POST /read]; the two differ in
    the status [s] only.  [req_body] is [req.body].  The [catch] of the
    handlers, which answers 500, is reached when the store call throws;
    the store call here does not throw, which is the case for a [msg_id]
    and a [wa_id] that are strings ([Schema.textual]) and a store that
    does not fail. *)
Definition post_status (s : string) (req_body : value) (w : world)
  : response * world :=
  let b := req_body |? VObj [] in
  let msg_id := get b "msg_id" in
  let wa_id := get b "wa_id" in
  if negb (truthy msg_id)
  then (respond 400 (Json (VObj [("error", VStr "msg_id required")])), w)
  else
    match
      findOneAndUpdate
        (fun d =>
           eq_filter msg_id (Store.msg_id d) &&
           (if truthy wa_id then eq_filter wa_id (Store.wa_id d) else true))
        (set_status (VStr s)) (db w)
    with
    | (None, _) =>
        (respond 404 (Json (VObj [("error", VStr "Message not found")])), w)
    | (Some updated, c) =>
        (respond 200 (Json (VObj [("ok", VBool true)])),
         mkWorld c
           (emitted w ++
            [MessageStatus (Store.wa_id updated) (Store.msg_id updated)
               (VStr s)]))
    end.

Definition post_delivered : value -> world -> response * world :=
  post_status "delivered".

Definition post_read : value -> world -> response * world :=
  post_status "read".

(** What [MessageModel.create] answers: the saved document and the
    collection that holds it, or the error it throws. *)
Inductive created : Type :=
| Saved (d : doc) (c : collection)
| Refused (e : value).

(** The document that [POST /messages] hands to [MessageModel.create];
    [uuid] is what [randomUUID()] gives and [now] what [new Date()]
    reads. *)
Definition candidate (uuid : string) (now : Z) (b : value) : doc :=
  mkDoc (get b "wa_id")
        (get b "msg_id" |? VStr uuid)
        (get b "meta_msg_id" |? VUndef)
        (get b "text")
        (if truthy (get b "timestamp") then Date_of_value (get b "timestamp")
         else Date now)
        (get b "status" |? VStr "sent")
        (get b "profileName" |? VStr "Unknown")
        (VBool (truthy (get b "fromSelf"))).

Section Create.

(** [MessageModel.create], with the casting, the validation and the unique
    index of the object-document mapper: taken as given. *)
Variable create : doc -> collection -> created.

(** The handler of [POST /messages]. *)
Definition post_messages (uuid : string) (now : Z) (req_body : value)
  (w : world) : response * world :=
  let b := req_body |? VObj [] in
  if negb (truthy (get b "wa_id")) || negb (truthy (get b "text"))
  then
    (respond 400 (Json (VObj [("error", VStr "wa_id and text are required")])),
     w)
  else
    match create (candidate uuid now b) (db w) with
    | Saved d c =>
        (respond 201 (Document d),
         mkWorld c (emitted w ++ [MessageNew d (get b "clientId" |? VNull)]))
    | Refused e =>
        (respond 500
           (Json (VObj [("error", VStr "Could not save message");
                        ("code", e ?. "code" |? VNull);
                        ("message", e ?. "message" |? VNull)])),
         w)
    end.

End Create.

End Server.

(* ===================================================================== *)
(** * Views of the collection used in the further facts *)
(* ===================================================================== *)

Module Views.
Import JS Store Engine Script.

(** A document without its status: what a status update leaves alone. *)
Definition content (d : doc) : doc := with_status VUndef d.

(** A document with the fields that every message of the batch driver
    carries: a conversation id, a message id, a text that is not null and a
    display name. *)
Definition complete (d : doc) : Prop :=
  truthy (wa_id d) = true /\ truthy (msg_id d) = true /\
  nullish (text d) = false /\ truthy (profileName d) = true.

(** The number that the digits of [d] denote after the digits of [acc]. *)
Fixpoint uint_val (d : Decimal.uint) (acc : Z) : Z :=
  match d with
  | Decimal.Nil => acc
  | Decimal.D0 l => uint_val l (acc * 10)
  | Decimal.D1 l => uint_val l (acc * 10 + 1)
  | Decimal.D2 l => uint_val l (acc * 10 + 2)
  | Decimal.D3 l => uint_val l (acc * 10 + 3)
  | Decimal.D4 l => uint_val l (acc * 10 + 4)
  | Decimal.D5 l => uint_val l (acc * 10 + 5)
  | Decimal.D6 l => uint_val l (acc * 10 + 6)
  | Decimal.D7 l => uint_val l (acc * 10 + 7)
  | Decimal.D8 l => uint_val l (acc * 10 + 8)
  | Decimal.D9 l => uint_val l (acc * 10 + 9)
  end.

(** A filter that does not look at the status. *)
Definition blind (p : doc -> bool) : Prop :=
  forall s d, p (set_status s d) = p d.

(** The two invariants of the collection. *)
Definition sound (c : collection) : Prop :=
  unique_ids c /\ Forall complete c.

(** A run of the batch driver that keeps [sound]. *)
Definition sound_kept (w w' : Batch.world) : Prop :=
  sound (Batch.db w) -> sound (Batch.db w').

(** A store for the examples: [create] under the unique index alone, the
    error being the duplicate-key error [E11000]. *)
Definition create_unique (d : doc) (c : collection) : Server.created :=
  if existsb (fun x => eq_filter (msg_id d) (msg_id x)) c
  then Server.Refused
         (VObj [("code", VNum 11000);
                ("message", VStr "E11000 duplicate key error")])
  else Server.Saved d (c ++ [d]).

End Views.

(* ===================================================================== *)
(** * Facts about values and the collection *)
(* ===================================================================== *)

Unset Implicit Arguments.

Module StoreFacts.
Import JS Store.

Lemma value_eqb_eq a : forall b, value_eqb a b = true <-> a = b.
Proof.
  induction a using value_rect'; intros []; simpl;
    try (split; [discriminate | discriminate]);
    try (split; reflexivity).
  - rewrite Bool.eqb_true_iff. split; congruence.
  - rewrite Z.eqb_eq. split; congruence.
  - rewrite String.eqb_eq. split; congruence.
  - revert items. induction H as [|x l Hx Hl IH]; intros [|y ys];
      try (split; [discriminate | discriminate]); try (split; reflexivity).
    rewrite andb_true_iff, Hx, IH. split.
    + intros [-> E]. now inversion E.
    + intros E. inversion E. auto.
  - revert props. induction H as [|[k x] l Hx Hl IH]; intros [|[k' y] ys];
      try (split; [discriminate | discriminate]); try (split; reflexivity).
    simpl in Hx.
    rewrite !andb_true_iff, String.eqb_eq, Hx, IH. split.
    + intros [[-> ->] E]. now inversion E.
    + intros E. inversion E. auto.
  - rewrite String.eqb_eq. split; congruence.
Qed.

Lemma value_eqb_refl a : value_eqb a a = true.
Proof. now apply value_eqb_eq. Qed.

Lemma truthy_not_nullish v : truthy v = true -> nullish v = false.
Proof. now destruct v. Qed.

(** For a key that is not empty, the equality filter is equality. *)
Lemma eq_filter_truthy q f :
  truthy q = true -> (eq_filter q f = true <-> q = f).
Proof.
  intros H. unfold eq_filter. rewrite (truthy_not_nullish _ H).
  apply value_eqb_eq.
Qed.

Lemma eq_filter_self q : eq_filter q q = true.
Proof.
  unfold eq_filter. destruct (nullish q) eqn:E; [reflexivity|apply value_eqb_refl].
Qed.

Lemma set_status_msg_id s d : msg_id (set_status s d) = msg_id d.
Proof. now destruct s. Qed.

Lemma set_status_meta_msg_id s d :
  meta_msg_id (set_status s d) = meta_msg_id d.
Proof. now destruct s. Qed.

Lemma set_status_idem s d : set_status s (set_status s d) = set_status s d.
Proof. now destruct s. Qed.

(** Setting the status a document already has changes nothing. *)
Lemma set_status_same d : set_status (status d) d = d.
Proof. destruct d as [? ? ? ? ? s ? ?]; now destruct s. Qed.

Lemma status_set_status s d : s <> VUndef -> status (set_status s d) = s.
Proof. destruct s; simpl; congruence. Qed.

Section UpdateFirst.
Variables (p : doc -> bool) (f : doc -> doc).

Lemma update_first_none c :
  update_first p f c = None <-> forall d, In d c -> p d = false.
Proof.
  induction c as [|d r IH]; simpl.
  - split; [intros _ d []|reflexivity].
  - destruct (p d) eqn:E.
    + split; [discriminate|]. intros H.
      specialize (H d (or_introl eq_refl)). congruence.
    + destruct (update_first p f r) as [[d' r']|].
      * split; [discriminate|]. intros H.
        assert (Some (d', r') = None) by (apply IH; auto). discriminate.
      * split; [|reflexivity]. intros _ x [<-|Hx]; [exact E|].
        now apply IH.
Qed.

(** The first match is the one updated. *)
Lemma update_first_split c1 r c2 :
  (forall d, In d c1 -> p d = false) -> p r = true ->
  update_first p f (c1 ++ r :: c2) = Some (f r, c1 ++ f r :: c2).
Proof.
  induction c1 as [|d c1 IH]; simpl; intros Hn Hr.
  - now rewrite Hr.
  - rewrite (Hn d (or_introl eq_refl)), IH; auto.
Qed.

(** Conversely every update is the update of a first match. *)
Lemma update_first_some c d c' :
  update_first p f c = Some (d, c') ->
  exists c1 r c2,
    c = c1 ++ r :: c2 /\ (forall x, In x c1 -> p x = false) /\
    p r = true /\ d = f r /\ c' = c1 ++ f r :: c2.
Proof.
  revert d c'. induction c as [|x r IH]; simpl; intros d c' H.
  - discriminate.
  - destruct (p x) eqn:E.
    + inversion H; subst. exists [], x, r. repeat split; auto.
      intros ? [].
    + destruct (update_first p f r) as [[d' r']|] eqn:U; [|discriminate].
      inversion H; subst.
      destruct (IH _ _ eq_refl) as (c1 & y & c2 & -> & Hn & Hy & -> & ->).
      exists (x :: c1), y, c2. repeat split; auto.
      intros z [<-|Hz]; auto.
Qed.
End UpdateFirst.

(** An update of the status keeps the keys of the collection. *)
Lemma update_first_ids p s c d c' :
  update_first p (set_status s) c = Some (d, c') ->
  map msg_id c' = map msg_id c.
Proof.
  intros H. apply update_first_some in H.
  destruct H as (c1 & r & c2 & -> & _ & _ & _ & ->).
  rewrite !map_app. simpl. now rewrite set_status_msg_id.
Qed.

Lemma count_id_app q c1 c2 :
  count_id q (c1 ++ c2) = (count_id q c1 + count_id q c2)%nat.
Proof. unfold count_id. now rewrite filter_app, length_app. Qed.

Lemma count_id_none q c :
  (forall d, In d c -> eq_filter q (msg_id d) = false) -> count_id q c = 0%nat.
Proof.
  unfold count_id. induction c as [|d r IH]; simpl; intros H; [reflexivity|].
  rewrite (H d (or_introl eq_refl)). apply IH. auto.
Qed.

(** Under the unique index a key that is present is present once. *)
Lemma count_id_unique c1 r c2 :
  unique_ids (c1 ++ r :: c2) -> truthy (msg_id r) = true ->
  count_id (msg_id r) (c1 ++ r :: c2) = 1%nat.
Proof.
  unfold unique_ids. rewrite map_app. simpl. intros N T.
  apply NoDup_remove in N. destruct N as [_ N].
  rewrite count_id_app. change (r :: c2) with ([r] ++ c2).
  rewrite count_id_app.
  assert (forall c, (forall d, In d c -> In (msg_id d) (map msg_id c1 ++ map msg_id c2)) ->
                    count_id (msg_id r) c = 0%nat) as Z0.
  { intros c Hc. apply count_id_none. intros d Hd.
    destruct (eq_filter (msg_id r) (msg_id d)) eqn:E; [|reflexivity].
    apply eq_filter_truthy in E; [|exact T].
    exfalso. apply N. rewrite E. auto. }
  rewrite (Z0 c1), (Z0 c2).
  - unfold count_id. simpl. now rewrite eq_filter_self.
  - intros d Hd. apply in_or_app. right. now apply in_map.
  - intros d Hd. apply in_or_app. left. now apply in_map.
Qed.

End StoreFacts.

(* ===================================================================== *)
(** * The upsert engine: idempotent create and status overwrite *)
(* ===================================================================== *)

Module EngineFacts.
Import JS Store Engine StoreFacts.

Lemma status_of_defined a : status_of a <> VUndef.
Proof. unfold status_of. destruct (Msg.status a); simpl; congruence. Qed.

Lemma upsert_invalid now a c :
  truthy (Msg.wa_id a) && truthy (Msg.msg_id a) = false ->
  upsertMessage now a c = (VUndef, c).
Proof.
  unfold upsertMessage. intros H.
  destruct (truthy (Msg.wa_id a)), (truthy (Msg.msg_id a));
    simpl in *; congruence.
Qed.

Lemma upsert_valid now a c :
  truthy (Msg.wa_id a) = true -> truthy (Msg.msg_id a) = true ->
  upsertMessage now a c =
  (VUndef,
   updateOne_upsert (by_msg_id (Msg.msg_id a)) (on_insert now a)
     (set_status (status_of a)) c).
Proof. unfold upsertMessage. now intros -> ->. Qed.

Lemma by_msg_id_set_status q s d :
  by_msg_id q (set_status s d) = by_msg_id q d.
Proof. unfold by_msg_id. now rewrite set_status_msg_id. Qed.

(** What a valid upsert leaves: the record under the key, first of its
    key, carrying the status of the input; either it was there, or it is
    the new last record. *)
Lemma upsert_shape now a c :
  truthy (Msg.wa_id a) = true -> truthy (Msg.msg_id a) = true ->
  exists c1 r c2,
    snd (upsertMessage now a c) = c1 ++ set_status (status_of a) r :: c2 /\
    (forall x, In x c1 -> by_msg_id (Msg.msg_id a) x = false) /\
    msg_id r = Msg.msg_id a /\
    (c = c1 ++ r :: c2 \/ (c = c1 /\ c2 = [] /\ r = on_insert now a)).
Proof.
  intros Hw Hm. rewrite upsert_valid by assumption. simpl.
  unfold updateOne_upsert.
  destruct (update_first _ _ c) as [[d c']|] eqn:U.
  - apply update_first_some in U.
    destruct U as (c1 & r & c2 & -> & Hn & Hr & _ & ->).
    exists c1, r, c2. repeat split; auto.
    unfold by_msg_id in Hr. apply eq_filter_truthy in Hr; auto.
  - exists c, (on_insert now a), []. split; [reflexivity|].
    split; [eapply update_first_none; exact U|].
    split; [reflexivity|]. right. auto.
Qed.

(** A second ingestion of the same event changes nothing at all. *)
Lemma upsert_twice now now' a c :
  snd (upsertMessage now' a (snd (upsertMessage now a c))) =
  snd (upsertMessage now a c).
Proof.
  destruct (truthy (Msg.wa_id a) && truthy (Msg.msg_id a)) eqn:V.
  - apply andb_true_iff in V. destruct V as [Hw Hm].
    destruct (upsert_shape now a c Hw Hm) as (c1 & r & c2 & -> & Hn & Hr & _).
    rewrite upsert_valid by assumption. simpl. unfold updateOne_upsert.
    rewrite update_first_split; auto.
    + now rewrite set_status_idem.
    + rewrite by_msg_id_set_status. unfold by_msg_id. rewrite Hr.
      apply eq_filter_self.
  - now rewrite !upsert_invalid.
Qed.

Lemma ingest_fixed nows a c :
  (forall now, snd (upsertMessage now a c) = c) -> ingest nows a c = c.
Proof.
  intros H. unfold ingest. induction nows as [|n ns IH]; simpl; [reflexivity|].
  now rewrite H.
Qed.

(** The unique index survives an upsert. *)
Lemma upsert_unique now a c :
  unique_ids c -> unique_ids (snd (upsertMessage now a c)).
Proof.
  intros U.
  destruct (truthy (Msg.wa_id a) && truthy (Msg.msg_id a)) eqn:V.
  - apply andb_true_iff in V. destruct V as [Hw Hm].
    rewrite upsert_valid by assumption. simpl. unfold updateOne_upsert.
    destruct (update_first _ _ c) as [[d c']|] eqn:E.
    + unfold unique_ids. now rewrite (update_first_ids _ _ _ _ _ E).
    + unfold unique_ids. rewrite map_app. simpl.
      rewrite set_status_msg_id. simpl.
      apply NoDup_app; [exact U|repeat constructor; intros []|].
      intros x Hx [<-|[]]. apply in_map_iff in Hx.
      destruct Hx as (d & Hd & Hin).
      assert (by_msg_id (Msg.msg_id a) d = false) as F
        by (eapply update_first_none; eauto).
      unfold by_msg_id in F. rewrite Hd, eq_filter_self in F. discriminate.
  - now rewrite upsert_invalid.
Qed.

(** Whether the normalized timestamp is a valid date does not depend on
    the time of the call. *)
Lemma valid_at_any_time now ts :
  Schema.valid (asDate now ts) = Schema.valid (asDate 0 ts).
Proof. unfold asDate. now destruct (negb (truthy ts)). Qed.

End EngineFacts.

(* ===================================================================== *)
(** * Idempotent create *)
(* ===================================================================== *)

Module Idempotence.
Import JS Store Engine Schema Samples StoreFacts EngineFacts.

(** C1, as stated, fails: a message input with a non-empty message id but
    no conversation id is rejected by the guard of [upsertMessage], so after
    one ingestion into the empty collection no record carries its id
    (rather than exactly one). *)
Lemma upsert_without_conversation_id :
  truthy (Msg.msg_id orphan) = true /\
  unique_ids [] /\
  ingest [1700000000500] orphan [] = [] /\
  count_id (Msg.msg_id orphan) (ingest [1700000000500] orphan []) <> 1%nat.
Proof.
  split; [reflexivity|]. split; [constructor|]. split; [reflexivity|].
  cbv. discriminate.
Qed.

(** C1, amended: for every message input whose conversation id and message
    id are both non-empty and whose fields the schema takes as they are
    (strings, a timestamp that normalizes to a valid date, a boolean), and
    every collection that respects the unique index, ingesting the event
    N >= 1 times (at the times [now :: nows]) leaves exactly one record
    under the input's id, keeps the index, and leaves the very collection
    that the first ingestion alone leaves: the later ingestions change no
    field of any record.  (An input with a field that cannot be cast, such
    as a timestamp that is no date, is rejected by the mapper on every
    call; the store calls here do not model that, hence [storable].) *)
Theorem upsert_idempotent (now : Z) (nows : list Z) (a : Msg.t)
  (c : collection) :
  truthy (Msg.wa_id a) = true ->
  truthy (Msg.msg_id a) = true ->
  storable a = true ->
  unique_ids c ->
  count_id (Msg.msg_id a) (ingest (now :: nows) a c) = 1%nat /\
  unique_ids (ingest (now :: nows) a c) /\
  ingest (now :: nows) a c = ingest [now] a c.
Proof.
  intros Hw Hm _ U.
  assert (ingest (now :: nows) a c = ingest [now] a c) as E.
  { unfold ingest at 1. simpl.
    apply (ingest_fixed nows a (snd (upsertMessage now a c))).
    intros now'. apply upsert_twice. }
  rewrite E. unfold ingest. simpl.
  pose proof (upsert_unique now a c U) as U'.
  destruct (upsert_shape now a c Hw Hm) as (c1 & r & c2 & Ec & _ & Hr & _).
  rewrite Ec in *. repeat split; auto.
  rewrite <- Hr, <- (set_status_msg_id (status_of a) r).
  apply count_id_unique; [exact U'|].
  now rewrite set_status_msg_id, Hr.
Qed.

Lemma upsert_idempotent_witness :
  (* from the empty collection: the record is created once *)
  (count_id (Msg.msg_id hello) (ingest [10; 20; 30] hello []) = 1%nat /\
   unique_ids (ingest [10; 20; 30] hello []) /\
   ingest [10; 20; 30] hello [] = ingest [10] hello []) /\
  (* over a collection that holds other records *)
  (count_id (Msg.msg_id hello)
     (ingest [10; 20] hello [reply; hello_read_elsewhere]) = 1%nat /\
   unique_ids (ingest [10; 20] hello [reply; hello_read_elsewhere]) /\
   ingest [10; 20] hello [reply; hello_read_elsewhere] =
   ingest [10] hello [reply; hello_read_elsewhere]).
Proof.
  split.
  - apply (upsert_idempotent 10 [20; 30] hello []);
      [reflexivity|reflexivity|reflexivity|constructor].
  - apply (upsert_idempotent 10 [20] hello [reply; hello_read_elsewhere]);
      [reflexivity|reflexivity|reflexivity|].
    repeat constructor; simpl; intuition discriminate.
Defined.

End Idempotence.

(* ===================================================================== *)
(** * Status updates *)
(* ===================================================================== *)

Module StatusFacts.
Import JS Store Engine StoreFacts EngineFacts.

Lemma updateOne_split p f c1 r c2 :
  (forall d, In d c1 -> p d = false) -> p r = true ->
  updateOne p f (c1 ++ r :: c2) = c1 ++ f r :: c2.
Proof.
  intros Hn Hr. unfold updateOne. now rewrite update_first_split.
Qed.

Lemma updateOne_none p f c :
  (forall d, In d c -> p d = false) -> updateOne p f c = c.
Proof.
  intros H. unfold updateOne.
  now rewrite (proj2 (update_first_none p f c) H).
Qed.

(** Under the unique index nothing before a record carries its key. *)
Lemma unique_first c1 r c2 :
  unique_ids (c1 ++ r :: c2) -> truthy (msg_id r) = true ->
  forall d, In d c1 -> by_msg_id (msg_id r) d = false.
Proof.
  unfold unique_ids. rewrite map_app. simpl. intros N T d Hd.
  apply NoDup_remove in N. destruct N as [_ N].
  unfold by_msg_id. destruct (eq_filter (msg_id r) (msg_id d)) eqn:E; auto.
  apply eq_filter_truthy in E; auto.
  exfalso. apply N. rewrite E. apply in_or_app. left. now apply in_map.
Qed.

Lemma applyStatus_result a c : fst (applyStatus a c) = VUndef.
Proof.
  unfold applyStatus, findOneAndUpdate.
  destruct (negb (truthy (Status.id a)) && negb (truthy (Status.metaMsgId a)));
    [reflexivity|].
  destruct (update_first _ _ c) as [[d c']|]; [reflexivity|].
  destruct (truthy (Status.metaMsgId a)); [|reflexivity].
  now destruct (update_first _ _ c) as [[d c']|].
Qed.

(** The primary id finds a record: it is updated and nothing else is
    tried. *)
Lemma applyStatus_primary a c1 r c2 :
  truthy (Status.id a) = true \/ truthy (Status.metaMsgId a) = true ->
  by_msg_id (Status.id a) r = true ->
  (forall d, In d c1 -> by_msg_id (Status.id a) d = false) ->
  applyStatus a (c1 ++ r :: c2) =
  (VUndef, c1 ++ set_status (Status.status a) r :: c2).
Proof.
  intros G Hr Hn. unfold applyStatus, findOneAndUpdate.
  replace (negb (truthy (Status.id a)) && negb (truthy (Status.metaMsgId a)))
    with false by (destruct G as [-> | ->]; simpl;
                   [reflexivity | now rewrite andb_false_r]).
  fold (by_msg_id (Status.id a)).
  now rewrite update_first_split.
Qed.

(** The primary id finds nothing: the correlation id is tried, when there
    is one. *)
Lemma applyStatus_no_primary a c :
  (forall d, In d c -> by_msg_id (Status.id a) d = false) ->
  applyStatus a c =
  (VUndef,
   if truthy (Status.metaMsgId a)
   then updateOne (by_meta_msg_id (Status.metaMsgId a))
          (set_status (Status.status a)) c
   else c).
Proof.
  intros Hn. unfold applyStatus, findOneAndUpdate, updateOne.
  fold (by_msg_id (Status.id a)) (by_meta_msg_id (Status.metaMsgId a)).
  rewrite (proj2 (update_first_none _ (set_status (Status.status a)) c) Hn).
  destruct (truthy (Status.metaMsgId a)).
  - rewrite andb_false_r.
    now destruct (update_first _ _ c) as [[d c']|].
  - now destruct (negb (truthy (Status.id a)) && negb false).
Qed.

Lemma set_status_delivery s d :
  delivery_status s -> set_status s d = with_status s d.
Proof. now intros [-> | [-> | ->]]. Qed.

End StatusFacts.

Module StatusUpdates.
Import JS Store Engine Schema Samples StoreFacts EngineFacts StatusFacts.

(** C5, as stated, fails on the report: [applyStatus] has no result.  On
    the empty collection a status input that matches nothing resolves to
    [undefined], not to an object with [matched: false]. *)
Lemma unresolvable_status_reports_nothing :
  applyStatus (Status.make (VStr "wamid.X") VUndef (VStr "delivered")) [] =
  (VUndef, []) /\
  fst (applyStatus (Status.make (VStr "wamid.X") VUndef (VStr "delivered")) [])
  <> VObj [("matched", VBool false)].
Proof. split; [reflexivity|discriminate]. Qed.

(** C5, amended: for every status input whose keys and status are strings
    or absent, whose primary id matches no stored record and whose
    correlation id (when the input has one) matches no stored record,
    [applyStatus] leaves every record of the collection unchanged; the
    call resolves to [undefined] (no [matched] flag is reported).  (For a
    key that is a string, to match is to be equal; a key of another type
    is cast by the mapper first, or rejected, which the store calls here
    do not model, hence [plain_status].) *)
Theorem unresolvable_status_is_noop (a : Status.t) (c : collection) :
  plain_status a = true ->
  (forall d, In d c -> by_msg_id (Status.id a) d = false) ->
  (truthy (Status.metaMsgId a) = true ->
   forall d, In d c -> by_meta_msg_id (Status.metaMsgId a) d = false) ->
  applyStatus a c = (VUndef, c).
Proof.
  intros _ Hi Hm. rewrite applyStatus_no_primary by exact Hi.
  destruct (truthy (Status.metaMsgId a)); [|reflexivity].
  now rewrite updateOne_none by (apply Hm; reflexivity).
Qed.

Lemma unresolvable_status_is_noop_witness :
  applyStatus (Status.make (VStr "wamid.X") (VStr "wamid.Y") (VStr "read"))
    [reply; hello_read] =
  (VUndef, [reply; hello_read]) /\
  applyStatus (Status.make (VStr "wamid.X") VUndef (VStr "read"))
    [reply; hello_read] =
  (VUndef, [reply; hello_read]).
Proof.
  split.
  - apply (unresolvable_status_is_noop
             (Status.make (VStr "wamid.X") (VStr "wamid.Y") (VStr "read"))
             [reply; hello_read]).
    + reflexivity.
    + intros d [<-|[<-|[]]]; reflexivity.
    + intros _ d [<-|[<-|[]]]; reflexivity.
  - apply (unresolvable_status_is_noop
             (Status.make (VStr "wamid.X") VUndef (VStr "read"))
             [reply; hello_read]).
    + reflexivity.
    + intros d [<-|[<-|[]]]; reflexivity.
    + discriminate.
Defined.

(** C7: for every stored record [r] and every status [s] among sent,
    delivered and read, a status input with keys that are strings or
    absent and that locates [r] (by its primary id, or failing that by its
    correlation id) replaces the status of [r] by [s] whatever it was, and
    changes nothing else in the collection; so every transition between
    the three values is made by [applyStatus].  (For keys that are
    strings, to locate is to compare for equality, as [locates] does; the
    mapper's cast of other keys is not modelled.) *)
Theorem status_last_write_wins (a : Status.t) (c1 : collection) (r : doc)
  (c2 : collection) :
  plain (Status.id a) = true ->
  plain (Status.metaMsgId a) = true ->
  delivery_status (Status.status a) ->
  locates a c1 r c2 ->
  applyStatus a (c1 ++ r :: c2) =
  (VUndef, c1 ++ with_status (Status.status a) r :: c2).
Proof.
  intros _ _ Hs [(Hr & G & Hn) | (Hall & Hm & Hr & Hn)].
  - rewrite applyStatus_primary by assumption.
    now rewrite set_status_delivery.
  - rewrite applyStatus_no_primary by assumption.
    rewrite Hm, updateOne_split by assumption.
    now rewrite set_status_delivery.
Qed.

Lemma status_last_write_wins_witness :
  (* backward, by the primary id: read -> sent *)
  applyStatus (Status.make (VStr "wamid.A1") VUndef (VStr "sent"))
    [reply; hello_read] =
  (VUndef, [reply; with_status (VStr "sent") hello_read]).
Proof.
  apply (status_last_write_wins
           (Status.make (VStr "wamid.A1") VUndef (VStr "sent"))
           [reply] hello_read []).
  - reflexivity.
  - reflexivity.
  - left. reflexivity.
  - left. split; [reflexivity|]. split; [left; reflexivity|].
    intros d [<-|[]]. reflexivity.
Defined.

(** C10, as stated, fails: [upsertMessage] does not always apply the
    status.  A duplicate of a stored message that resolves to no
    conversation id is stopped by the guard, and the record stays
    [read]. *)
Lemma reingest_without_sender_keeps_status :
  Msg.msg_id orphan = msg_id hello_read /\
  Msg.status orphan = VStr "sent" /\
  status hello_read = VStr "read" /\
  upsertMessage 1700000999000 orphan [reply; hello_read] =
  (VUndef, [reply; hello_read]) /\
  map status (snd (upsertMessage 1700000999000 orphan [reply; hello_read]))
  <> map status [reply; with_status (VStr "sent") hello_read].
Proof. repeat split. discriminate. Qed.

(** C10, amended: for an input that passes the guard (a conversation id
    and a message id, both non-empty) and whose fields the schema takes as
    they are, [upsertMessage] applies the status of the input (the default
    [sent] when there is none) to the record already stored under the
    input's message id and writes no other field; the batch driver always
    passes [sent], so re-ingesting such a message event resets the status
    of its record to [sent], whatever it was (delivered and read
    included), and leaves the other fields and the other records as they
    were. *)
Theorem reingest_resets_status (now : Z) (a : Msg.t) (c1 : collection)
  (r : doc) (c2 : collection) :
  unique_ids (c1 ++ r :: c2) ->
  truthy (Msg.wa_id a) = true ->
  truthy (Msg.msg_id a) = true ->
  storable a = true ->
  msg_id r = Msg.msg_id a ->
  upsertMessage now a (c1 ++ r :: c2) =
  (VUndef, c1 ++ with_status (status_of a) r :: c2) /\
  (Msg.status a = VStr "sent" ->
   snd (upsertMessage now a (c1 ++ r :: c2)) =
   c1 ++ with_status (VStr "sent") r :: c2).
Proof.
  intros U Hw Hm _ Hr.
  assert (upsertMessage now a (c1 ++ r :: c2) =
          (VUndef, c1 ++ with_status (status_of a) r :: c2)) as E.
  { rewrite upsert_valid by assumption. unfold updateOne_upsert.
    rewrite update_first_split.
    - f_equal. f_equal. f_equal.
      pose proof (status_of_defined a) as D.
      unfold set_status. destruct (status_of a); congruence.
    - rewrite <- Hr in *. now apply unique_first with (c2 := c2).
    - unfold by_msg_id. rewrite Hr. apply eq_filter_self. }
  split; [exact E|].
  intros S. rewrite E. simpl. unfold status_of. now rewrite S.
Qed.

Lemma reingest_resets_status_witness :
  upsertMessage 1700000999000 hello [reply; hello_read] =
  (VUndef, [reply; with_status (VStr "sent") hello_read]) /\
  (Msg.status hello = VStr "sent" ->
   snd (upsertMessage 1700000999000 hello [reply; hello_read]) =
   [reply; with_status (VStr "sent") hello_read]).
Proof.
  apply (reingest_resets_status 1700000999000 hello [reply] hello_read []).
  - repeat constructor; simpl; intuition discriminate.
  - reflexivity.
  - reflexivity.
  - reflexivity.
  - reflexivity.
Defined.

End StatusUpdates.

(* ===================================================================== *)
(** * Timestamp normalisation *)
(* ===================================================================== *)

Module Timestamps.
Import JS Store Engine.

Lemma StringToNumber_NaN_nonempty s :
  StringToNumber s = NaN -> truthy (VStr s) = true.
Proof. destruct s; [discriminate|reflexivity]. Qed.

(** C3, as stated, fails on the fallback: a string that is neither a
    number nor a date gives the invalid date, not the current time; and
    the number 0 is taken as absent (current time), not as the epoch. *)
Lemma unparseable_timestamp_is_invalid :
  asDate 1700000500000 (VStr "not a date") = InvalidDate /\
  asDate 1700000500000 (VStr "not a date") <> Date 1700000500000 /\
  asDate 1700000500000 (VNum 0) = Date 1700000500000 /\
  asDate 1700000500000 (VNum 0) <> Date 0.
Proof.
  split; [reflexivity|]. split; [discriminate|].
  split; [reflexivity|discriminate].
Qed.

(** C3, amended: [asDate] reads a non-zero number up to 10^12 as unix
    seconds and a number above 10^12 as unix milliseconds (within the
    range of dates); the inputs 1700000000, 1700000000000 and
    "2023-11-14T22:13:20Z" give the same instant; a value that is absent
    or falsy (0 included) gives the current time; a string that is not a
    number is parsed as a date string, and when it cannot be parsed the
    result is the invalid date, not the current time. *)
Theorem asDate_normalizes (now : Z) :
  (forall n, n <> 0 -> -8640000000000 <= n <= 1000000000000 ->
             asDate now (VNum n) = Date (n * 1000)) /\
  (forall n, 1000000000000 < n <= 8640000000000000 ->
             asDate now (VNum n) = Date n) /\
  (asDate now (VNum 1700000000) = Date 1700000000000 /\
   asDate now (VNum 1700000000000) = Date 1700000000000 /\
   asDate now (VStr "2023-11-14T22:13:20Z") = Date 1700000000000) /\
  (forall ts, truthy ts = false -> asDate now ts = Date now) /\
  (forall s, StringToNumber s = NaN ->
             asDate now (VStr s) = Date_of_string s) /\
  (forall s, StringToNumber s = NaN -> Date_of_string s = InvalidDate ->
             asDate now (VStr s) = InvalidDate).
Proof.
  assert (forall s, StringToNumber s = NaN ->
                    asDate now (VStr s) = Date_of_string s) as P.
  { intros s H. unfold asDate.
    rewrite (StringToNumber_NaN_nonempty s H). simpl. now rewrite H. }
  repeat split.
  - intros n Hn [Hlo Hhi]. unfold asDate. simpl.
    destruct (Z.eqb_spec n 0) as [|_]; [contradiction|]. simpl.
    destruct (Z.ltb_spec 1000000000000 n) as [|_]; [lia|].
    unfold max_time.
    destruct (Z.leb_spec (Z.abs (n * 1000)) 8640000000000000);
      [reflexivity|lia].
  - intros n [Hlo Hhi]. unfold asDate. simpl.
    destruct (Z.eqb_spec n 0) as [|_]; [lia|]. simpl.
    destruct (Z.ltb_spec 1000000000000 n) as [_|]; [|lia].
    unfold max_time.
    destruct (Z.leb_spec (Z.abs n) 8640000000000000); [reflexivity|lia].
  - intros ts H. unfold asDate. now rewrite H.
  - exact P.
  - intros s H E. now rewrite P.
Qed.

Lemma asDate_normalizes_witness :
  asDate 1700000500000 (VNum 1700000000) = Date (1700000000 * 1000) /\
  asDate 1700000500000 (VNum 1700000000000) = Date 1700000000000 /\
  asDate 1700000500000 VUndef = Date 1700000500000 /\
  asDate 1700000500000 (VStr "not a date") = InvalidDate.
Proof.
  destruct (asDate_normalizes 1700000500000)
    as (Hs & Hms & _ & Habsent & _ & Hbad).
  split; [apply Hs; lia|].
  split; [apply Hms; lia|].
  split; [apply Habsent; reflexivity|].
  apply Hbad; reflexivity.
Defined.

End Timestamps.

(* ===================================================================== *)
(** * Reasoning about runs of the driver *)
(* ===================================================================== *)

Module RunFacts.
Import JS Store Engine Script Batch.
Local Open Scope script_scope.

(** ** Relations kept along a run *)

Section Keeps.
Context {S : Type}.
Variable I : S -> S -> Prop.
Hypothesis I_refl : forall w, I w w.
Hypothesis I_trans : forall w1 w2 w3, I w1 w2 -> I w2 w3 -> I w1 w3.

Lemma keeps_ret {A} (a : A) : keeps I (ret a).
Proof. intros w. apply I_refl. Qed.

Lemma keeps_throw {A} (e : error) : keeps I (@throw S A e).
Proof. intros w. apply I_refl. Qed.

Lemma keeps_bind {A B} (m : M S A) (k : A -> M S B) :
  keeps I m -> (forall a, keeps I (k a)) -> keeps I (bind m k).
Proof.
  intros Hm Hk w. unfold bind. specialize (Hm w).
  destruct (m w) as [[a|e] w']; simpl in *; [|exact Hm].
  eapply I_trans; [exact Hm|apply Hk].
Qed.

Lemma keeps_for_of {A} (l : list A) (body : A -> M S unit) :
  (forall x, keeps I (body x)) -> keeps I (for_of l body).
Proof.
  intros H. induction l as [|x r IH]; simpl.
  - apply keeps_ret.
  - apply keeps_bind; auto.
Qed.

Lemma keeps_fold_of {A B} (l : list A) (body : B -> A -> M S B) :
  (forall b x, keeps I (body b x)) -> forall b, keeps I (fold_of l body b).
Proof.
  intros H. induction l as [|x r IH]; intros b; simpl.
  - apply keeps_ret.
  - apply keeps_bind; auto.
Qed.

Lemma keeps_iterate v : keeps I (iterate v).
Proof. destruct v; simpl; first [apply keeps_ret | apply keeps_throw]. Qed.

Lemma keeps_getM v k : keeps I (getM v k).
Proof.
  unfold getM. destruct (nullish v); [apply keeps_throw|apply keeps_ret].
Qed.

Lemma keeps_orM a b : keeps I a -> keeps I b -> keeps I (orM a b).
Proof.
  intros Ha Hb. unfold orM. apply keeps_bind; [exact Ha|].
  intros x. destruct (truthy x); [apply keeps_ret|exact Hb].
Qed.

Lemma keeps_try {A} (m : M S A) : keeps I m -> keeps I (try_ m).
Proof.
  intros H w. unfold try_. specialize (H w). now destruct (m w).
Qed.
End Keeps.

Lemma keeps_weaken {S A} (I J : S -> S -> Prop) (m : M S A) :
  (forall w w', I w w' -> J w w') -> keeps I m -> keeps J m.
Proof. intros H Hm w. apply H, Hm. Qed.

(** A first part under [I], the rest under [J]. *)
Lemma keeps_bind2 {S A B} (I J : S -> S -> Prop)
  (m : M S A) (k : A -> M S B) :
  (forall w w', I w w' -> J w w') ->
  (forall w1 w2 w3, I w1 w2 -> J w2 w3 -> J w1 w3) ->
  keeps I m -> (forall a, keeps J (k a)) -> keeps J (bind m k).
Proof.
  intros Hsub Hcomp Hm Hk w. unfold bind. specialize (Hm w).
  destruct (m w) as [[a|e] w']; simpl in *.
  - eapply Hcomp; [exact Hm|apply Hk].
  - now apply Hsub.
Qed.

(** ** Runs that differ in what they log only *)

Lemma same_state_refl w : same_state w w.
Proof. now split. Qed.

Lemma alike_ret {A} (a : A) : alike (ret a) (ret a).
Proof. intros w1 w2 H. now split. Qed.

Lemma alike_throw {A} (e : error) : alike (@throw world A e) (throw e).
Proof. intros w1 w2 H. now split. Qed.

Lemma alike_bind {A B} (m1 m2 : M world A) (k1 k2 : A -> M world B) :
  alike m1 m2 -> (forall a, alike (k1 a) (k2 a)) ->
  alike (bind m1 k1) (bind m2 k2).
Proof.
  intros Hm Hk w1 w2 H. unfold bind. destruct (Hm w1 w2 H) as [E S].
  destruct (m1 w1) as [[a1|e1] w1'], (m2 w2) as [[a2|e2] w2'];
    simpl in *; try discriminate.
  - inversion E; subst. now apply Hk.
  - inversion E; subst. split; [reflexivity|exact S].
Qed.

Lemma alike_for_of {A} (l : list A) (b1 b2 : A -> M world unit) :
  (forall x, alike (b1 x) (b2 x)) -> alike (for_of l b1) (for_of l b2).
Proof.
  intros H. induction l as [|x r IH]; simpl.
  - apply alike_ret.
  - apply alike_bind; auto.
Qed.

Lemma alike_getM v k : alike (getM v k) (getM v k).
Proof.
  unfold getM. destruct (nullish v); [apply alike_throw|apply alike_ret].
Qed.

Lemma alike_orM a1 a2 b1 b2 :
  alike a1 a2 -> alike b1 b2 -> alike (orM a1 b1) (orM a2 b2).
Proof.
  intros Ha Hb. unfold orM. apply alike_bind; [exact Ha|].
  intros x. destruct (truthy x); [apply alike_ret|exact Hb].
Qed.

Lemma alike_try {A} (m1 m2 : M world A) :
  alike m1 m2 -> alike (try_ m1) (try_ m2).
Proof.
  intros Hm w1 w2 H. unfold try_. destruct (Hm w1 w2 H) as [E S].
  destruct (m1 w1), (m2 w2). simpl in *. split; [now f_equal|exact S].
Qed.

Lemma alike_log l1 l2 : alike (log l1) (log l2).
Proof. intros w1 w2 H. split; [reflexivity|exact H]. Qed.

(** A line more or less on the console makes no difference. *)
Lemma alike_log_skip l : alike (log l) (ret tt).
Proof. intros w1 w2 H. split; [reflexivity|exact H]. Qed.

Section Clocked.
Variable clock : nat -> Z.

Lemma alike_call_upsertMessage a1 a2 :
  (forall now c, upsertMessage now a1 c = upsertMessage now a2 c) ->
  alike (call_upsertMessage clock a1) (call_upsertMessage clock a2).
Proof.
  intros E w1 w2 [Hd Ht]. unfold call_upsertMessage.
  rewrite Hd, Ht, E.
  destruct (upsertMessage (clock (tick w2)) a2 (db w2)) as [r c].
  simpl. repeat split.
Qed.

Lemma alike_call_applyStatus a :
  alike (call_applyStatus a) (call_applyStatus a).
Proof.
  intros w1 w2 [Hd Ht]. unfold call_applyStatus. rewrite Hd.
  destruct (applyStatus a (db w2)) as [r c].
  simpl. repeat split. simpl. now rewrite Ht.
Qed.

Lemma alike_status_step s : alike (status_step s) (status_step s).
Proof.
  unfold status_step. apply alike_bind.
  - apply alike_orM; [apply alike_getM|apply alike_ret].
  - intros st. apply alike_bind; [apply alike_call_applyStatus|].
    intros _. apply alike_ret.
Qed.

Lemma alike_message_step p1 p2 v fw fp m :
  (forall id now c,
      upsertMessage now (message_args p1 v fw fp m id) c =
      upsertMessage now (message_args p2 v fw fp m id) c) ->
  alike (message_step clock p1 v fw fp m) (message_step clock p2 v fw fp m).
Proof.
  intros E. unfold message_step. apply alike_bind.
  - apply alike_orM; apply alike_getM.
  - intros id. apply alike_bind; [now apply alike_call_upsertMessage|].
    intros _. apply alike_ret.
Qed.

End Clocked.

End RunFacts.

(* ===================================================================== *)
(** * Per-source ordering *)
(* ===================================================================== *)

Module Ordering.
Import JS Store Engine Script Batch RunFacts.
Local Open Scope script_scope.

Lemma upserts_only_refl w : upserts_only w w.
Proof. exists []. simpl. now rewrite app_nil_r. Qed.

Lemma upserts_only_trans w1 w2 w3 :
  upserts_only w1 w2 -> upserts_only w2 w3 -> upserts_only w1 w3.
Proof.
  intros [us E] [us' E']. exists (us ++ us').
  now rewrite E', E, map_app, app_assoc.
Qed.

Lemma statuses_only_refl w : statuses_only w w.
Proof. exists []. simpl. now rewrite app_nil_r. Qed.

Lemma statuses_only_trans w1 w2 w3 :
  statuses_only w1 w2 -> statuses_only w2 w3 -> statuses_only w1 w3.
Proof.
  intros [ss E] [ss' E']. exists (ss ++ ss').
  now rewrite E', E, map_app, app_assoc.
Qed.

Lemma upserts_ordered w w' : upserts_only w w' -> upserts_then_statuses w w'.
Proof. intros [us E]. exists us, []. simpl. now rewrite app_nil_r. Qed.

Lemma statuses_ordered w w' :
  statuses_only w w' -> upserts_then_statuses w w'.
Proof. intros [ss E]. exists [], ss. exact E. Qed.

Lemma upserts_before w1 w2 w3 :
  upserts_only w1 w2 -> upserts_then_statuses w2 w3 ->
  upserts_then_statuses w1 w3.
Proof.
  intros [us E] (us' & ss & E'). exists (us ++ us'), ss.
  now rewrite E', E, map_app, <- !app_assoc.
Qed.

Lemma statuses_after w1 w2 w3 :
  upserts_only w1 w2 -> statuses_only w2 w3 -> upserts_then_statuses w1 w3.
Proof.
  intros H1 H2. eapply upserts_before; [exact H1|now apply statuses_ordered].
Qed.

(** Reading the payload makes no call at all. *)
Ltac reads_only R Rrefl Rtrans :=
  repeat first [ apply (keeps_orM R Rrefl Rtrans)
               | apply (keeps_getM R Rrefl)
               | apply (keeps_ret R Rrefl) ].

Lemma message_step_upserts clock p v fw fp m :
  keeps upserts_only (message_step clock p v fw fp m).
Proof.
  unfold message_step.
  apply (keeps_bind upserts_only upserts_only_trans).
  - reads_only upserts_only upserts_only_refl upserts_only_trans.
  - intros id. apply (keeps_bind upserts_only upserts_only_trans).
    + intros w. unfold call_upsertMessage.
      destruct (upsertMessage _ _ (db w)) as [r c]. simpl.
      now exists [message_args p v fw fp m id].
    + intros _. apply keeps_ret, upserts_only_refl.
Qed.

Lemma status_step_statuses s : keeps statuses_only (status_step s).
Proof.
  unfold status_step.
  apply (keeps_bind statuses_only statuses_only_trans).
  - reads_only statuses_only statuses_only_refl statuses_only_trans.
  - intros st. apply (keeps_bind statuses_only statuses_only_trans).
    + intros w. unfold call_applyStatus.
      destruct (applyStatus _ (db w)) as [r c]. simpl.
      now exists [status_args s st].
    + intros _. apply keeps_ret, statuses_only_refl.
Qed.

(** Whatever the payload source and the world it is processed in, the
    calls that [processFile] makes on the engine are calls of
    [upsertMessage] followed by calls of [applyStatus] (also when the
    processing stops on an exception). *)
Lemma calls_ordered (clock : nat -> Z) (src : parsed) (w : world) :
  exists (us : list Msg.t) (ss : list Status.t),
    calls (snd (processFile clock src w)) =
    calls w ++ map CallUpsert us ++ map CallStatus ss.
Proof.
  revert w. change (keeps upserts_then_statuses (processFile clock src)).
  destruct src as [payload|msg]; simpl.
  - unfold process_payload.
    apply (keeps_bind2 upserts_only upserts_then_statuses);
      [exact upserts_ordered|exact upserts_before| |].
    { reads_only upserts_only upserts_only_refl upserts_only_trans. }
    intros e.
    apply (keeps_bind2 upserts_only upserts_then_statuses);
      [exact upserts_ordered|exact upserts_before| |].
    { reads_only upserts_only upserts_only_refl upserts_only_trans. }
    intros value_. unfold process_value.
    destruct (extractContacts value_) as [fw fp].
    apply (keeps_bind2 upserts_only upserts_then_statuses);
      [exact upserts_ordered|exact upserts_before| |].
    { apply (keeps_for_of upserts_only upserts_only_refl upserts_only_trans).
      intros m. apply message_step_upserts. }
    intros _. apply (keeps_weaken statuses_only); [exact statuses_ordered|].
    apply (keeps_for_of statuses_only statuses_only_refl statuses_only_trans).
    exact status_step_statuses.
  - apply keeps_throw. intros w. apply upserts_ordered, upserts_only_refl.
Qed.

End Ordering.

(* ===================================================================== *)
(** * Payload shapes *)
(* ===================================================================== *)

Module Shapes.
Import JS Store Engine Script Batch Samples RunFacts.
Local Open Scope js_scope.
Local Open Scope script_scope.

Lemma or_absorb a b : (a |? a |? b) = (a |? b).
Proof. unfold or_. now destruct (truthy a) eqn:E; rewrite ?E. Qed.

Lemma or_undef a b : (a |? VUndef |? b) = (a |? b).
Proof. unfold or_. now destruct (truthy a) eqn:E; rewrite ?E. Qed.

Lemma or_again a b c : (a |? b |? a |? c) = (a |? b |? VUndef |? c).
Proof.
  unfold or_. destruct (truthy a) eqn:Ea; rewrite ?Ea; [reflexivity|].
  destruct (truthy b) eqn:Eb; rewrite ?Eb, ?Ea; reflexivity.
Qed.

Lemma asDate_falsy now ts : truthy ts = false -> asDate now ts = Date now.
Proof. intros H. unfold asDate. now rewrite H. Qed.

(** The last fallback of the timestamp does not matter when it is the
    container's own timestamp again, or nothing. *)
Lemma asDate_fallback now a b :
  asDate now (a |? b |? VUndef) = asDate now (a |? b |? b).
Proof.
  unfold or_. destruct (truthy a) eqn:Ea; rewrite ?Ea; [reflexivity|].
  destruct (truthy b) eqn:Eb; rewrite ?Eb; [reflexivity|].
  now rewrite !asDate_falsy.
Qed.

(** Under an envelope that has no timestamp of its own, a message entry
    is upserted as under its container alone. *)
Lemma upsert_under_envelope envelope_ props fw fp m id now c :
  envelope_ ?. "timestamp" = VUndef ->
  upsertMessage now (message_args envelope_ (VObj props) fw fp m id) c =
  upsertMessage now (message_args (VObj props) (VObj props) fw fp m id) c.
Proof.
  intros H. unfold upsertMessage, message_args. cbn [Msg.wa_id Msg.msg_id
    Msg.meta_msg_id Msg.text Msg.timestamp Msg.status Msg.profileName
    Msg.fromSelf].
  now rewrite H, asDate_fallback.
Qed.

(** The flat payload is its own container. *)
Lemma process_flat clock props w :
  truthy (lookup "entry" props) = false ->
  truthy (lookup "entries" props) = false ->
  truthy (lookup "value" props) = false ->
  process_payload clock (VObj props) w =
  process_value clock (VObj props) (VObj props) w.
Proof.
  intros He Hes Hv. unfold process_payload, orM, getM, bind, ret. simpl.
  rewrite He. unfold asArray. rewrite Hes. simpl.
  now rewrite Hv.
Qed.

(** In an envelope the container is the value of the first change of the
    first entry. *)
Lemma process_envelope clock field props changes entries w :
  process_payload clock (envelope field (VObj props) changes entries) w =
  process_value clock (envelope field (VObj props) changes entries)
    (VObj props) w.
Proof. reflexivity. Qed.

Lemma process_value_alike clock field props changes entries :
  alike
    (process_value clock (envelope field (VObj props) changes entries)
       (VObj props))
    (process_value clock (VObj props) (VObj props)).
Proof.
  unfold process_value.
  change (envelope field (VObj props) changes entries ?. "messages")
    with VUndef.
  change (envelope field (VObj props) changes entries ?. "statuses")
    with VUndef.
  rewrite or_absorb, or_undef, or_again.
  destruct (extractContacts (VObj props)) as [fw fp].
  apply alike_bind.
  - apply alike_for_of. intros m. apply alike_message_step.
    intros id now c. now apply upsert_under_envelope.
  - intros _. apply alike_for_of. exact alike_status_step.
Qed.

(** C2, as stated, fails: [processFile] reads the first change of the
    first entry only.  Two messages carried by two entries, or by two
    changes of one entry, leave one record where the flat payload leaves
    two. *)
Lemma later_entries_and_changes_are_ignored :
  List.length (db (snd (processFile noon (Parsed flat_two) (start []))))
  = 2%nat /\
  List.length
    (db (snd (processFile noon (Parsed envelope_two_entries) (start []))))
  = 1%nat /\
  List.length
    (db (snd (processFile noon (Parsed envelope_two_changes) (start []))))
  = 1%nat /\
  db (snd (processFile noon (Parsed envelope_two_entries) (start [])))
  <> db (snd (processFile noon (Parsed flat_two) (start []))).
Proof.
  split; [reflexivity|]. split; [reflexivity|]. split; [reflexivity|].
  vm_compute. discriminate.
Qed.

(** C2, amended: a flat payload (an object with no [entry], [entries] or
    [value] of its own) and the envelope that carries it as the value of
    the first change of its first entry are processed alike: the same
    outcome and the same stored records, from any collection.  The changes
    and entries that follow the first are not read, whatever they hold. *)
Theorem first_change_equals_flat (clock : nat -> Z)
  (props : list (string * value)) (field : value)
  (changes entries : list value) (w : world) :
  truthy (lookup "entry" props) = false ->
  truthy (lookup "entries" props) = false ->
  truthy (lookup "value" props) = false ->
  fst (processFile clock
         (Parsed (envelope field (VObj props) changes entries)) w) =
  fst (processFile clock (Parsed (VObj props)) w) /\
  db (snd (processFile clock
             (Parsed (envelope field (VObj props) changes entries)) w)) =
  db (snd (processFile clock (Parsed (VObj props)) w)).
Proof.
  intros He Hes Hv. simpl.
  rewrite process_envelope, process_flat by assumption.
  destruct (process_value_alike clock field props changes entries w w
              (same_state_refl w)) as [E [D _]].
  now split.
Qed.

Lemma first_change_equals_flat_witness :
  fst (processFile noon
         (Parsed (envelope (VStr "messages") flat_two
                    [change_of entry_reply] [envelope_two_changes]))
         (start [])) =
  fst (processFile noon (Parsed flat_two) (start [])) /\
  db (snd (processFile noon
             (Parsed (envelope (VStr "messages") flat_two
                        [change_of entry_reply] [envelope_two_changes]))
             (start []))) =
  db (snd (processFile noon (Parsed flat_two) (start []))).
Proof.
  apply (first_change_equals_flat noon
           [("messages", VArr [entry_hello; entry_reply])]
           (VStr "messages") [change_of entry_reply] [envelope_two_changes]
           (start []));
    reflexivity.
Defined.

End Shapes.

(* ===================================================================== *)
(** * Rejection of invalid messages *)
(* ===================================================================== *)

Module Rejection.
Import JS Store Engine Schema Script Batch Samples.
Import StoreFacts EngineFacts StatusFacts RunFacts.
Local Open Scope js_scope.
Local Open Scope script_scope.

(** The ids of the collection after an upsert: those before, and the id
    of the input when it is accepted. *)
Lemma upsert_ids now a c :
  let c' := snd (upsertMessage now a c) in
  incl (map msg_id c) (map msg_id c') /\
  (accepted a = true -> In (Msg.msg_id a) (map msg_id c')) /\
  (forall k, In k (map msg_id c') ->
             In k (map msg_id c) \/ (accepted a = true /\ k = Msg.msg_id a)).
Proof.
  simpl. destruct (accepted a) eqn:V.
  - unfold accepted in V. apply andb_true_iff in V. destruct V as [Hw Hm].
    destruct (upsert_shape now a c Hw Hm)
      as (c1 & r & c2 & -> & _ & Hr & [-> | (-> & -> & ->)]).
    + assert (map msg_id (c1 ++ set_status (status_of a) r :: c2)
              = map msg_id (c1 ++ r :: c2)) as E
        by (rewrite !map_app; simpl; now rewrite set_status_msg_id).
      rewrite E. split; [apply incl_refl|]. split.
      * intros _. rewrite <- Hr. apply in_map, in_elt.
      * intros k Hk. now left.
    + rewrite map_app. simpl. rewrite set_status_msg_id. simpl.
      split; [apply incl_appl, incl_refl|]. split.
      * intros _. apply in_or_app. right. now left.
      * intros k Hk. apply in_app_or in Hk.
        destruct Hk as [Hk|[<-|[]]]; [now left|now right].
  - rewrite upsert_invalid by exact V. simpl.
    split; [apply incl_refl|]. split; [discriminate|]. intros k Hk. now left.
Qed.

(** A step of the loop over the messages, on an entry that is not
    [null]: one call of [upsertMessage], on the input resolved from it. *)
Lemma message_step_run clock p v fw fp m w :
  nullish m = false ->
  message_step clock p v fw fp m w =
  (Ok tt,
   mkWorld
     (snd (upsertMessage (clock (tick w)) (message_input p v fw fp m) (db w)))
     (S (tick w))
     (calls w ++ [CallUpsert (message_input p v fw fp m)])
     (console w)).
Proof.
  intros H. unfold message_step, message_input, msg_id_of, orM, getM, bind.
  rewrite H. unfold ret, or_, call_upsertMessage.
  destruct (truthy (get m "id")), (upsertMessage _ _ (db w)); reflexivity.
Qed.

Lemma message_loop clock p v fw fp ms :
  Forall (fun m => nullish m = false) ms ->
  forall w,
    let run := for_of ms (message_step clock p v fw fp) w in
    fst run = Ok tt /\
    incl (ids w) (ids (snd run)) /\
    (forall m, In m ms -> accepted (message_input p v fw fp m) = true ->
               In (Msg.msg_id (message_input p v fw fp m)) (ids (snd run))) /\
    (forall k, In k (ids (snd run)) ->
               In k (ids w) \/
               exists m, In m ms /\
                         accepted (message_input p v fw fp m) = true /\
                         k = Msg.msg_id (message_input p v fw fp m)).
Proof.
  induction 1 as [|m ms Hm Hms IH]; intros w; simpl.
  - split; [reflexivity|]. split; [apply incl_refl|].
    split; [intros m []|]. intros k Hk. now left.
  - unfold bind. rewrite message_step_run by exact Hm.
    set (a := message_input p v fw fp m).
    set (w1 := mkWorld _ _ _ _).
    destruct (upsert_ids (clock (tick w)) a (db w)) as (Hincl & Hin & Hout).
    destruct (IH w1) as (Hok & Hincl' & Hin' & Hout').
    fold (ids w) in Hincl, Hout.
    change (map msg_id (snd (upsertMessage (clock (tick w)) a (db w))))
      with (ids w1) in Hincl, Hin, Hout.
    split; [exact Hok|].
    split; [eapply incl_tran; eassumption|].
    split.
    + intros x [<-|Hx] Hacc; [apply Hincl', Hin, Hacc|now apply Hin'].
    + intros k Hk. destruct (Hout' k Hk) as [Hk1|(x & Hx & Hacc & ->)].
      * destruct (Hout k Hk1) as [Hk0|[Hacc ->]]; [now left|].
        right. exists m. split; [now left|]. now split.
      * right. exists x. split; [now right|]. now split.
Qed.

Lemma ids_kept_refl w : ids_kept w w.
Proof. reflexivity. Qed.

Lemma ids_kept_trans w1 w2 w3 :
  ids_kept w1 w2 -> ids_kept w2 w3 -> ids_kept w1 w3.
Proof. unfold ids_kept. congruence. Qed.

Lemma applyStatus_ids a c : map msg_id (snd (applyStatus a c)) = map msg_id c.
Proof.
  unfold applyStatus, findOneAndUpdate.
  destruct (negb (truthy (Status.id a)) && negb (truthy (Status.metaMsgId a)));
    [reflexivity|].
  destruct (update_first _ _ c) as [[d c']|] eqn:E1; simpl.
  - exact (update_first_ids _ _ _ _ _ E1).
  - destruct (truthy (Status.metaMsgId a)); [|reflexivity].
    destruct (update_first
                (fun d => eq_filter (Status.metaMsgId a) (meta_msg_id d))
                (set_status (Status.status a)) c) as [[d c']|] eqn:E2;
      simpl; [|reflexivity].
    exact (update_first_ids _ _ _ _ _ E2).
Qed.

(** The loop over the statuses adds and removes no record. *)
Lemma status_step_ids s : keeps ids_kept (status_step s).
Proof.
  unfold status_step.
  apply (keeps_bind ids_kept ids_kept_trans).
  - repeat first [ apply (keeps_orM ids_kept ids_kept_refl ids_kept_trans)
                 | apply (keeps_getM ids_kept ids_kept_refl)
                 | apply (keeps_ret ids_kept ids_kept_refl) ].
  - intros st. apply (keeps_bind ids_kept ids_kept_trans).
    + intros w. unfold call_applyStatus, ids_kept, ids.
      pose proof (applyStatus_ids (status_args s st) (db w)) as E.
      destruct (applyStatus _ (db w)) as [r c]. exact E.
    + intros _. apply keeps_ret, ids_kept_refl.
Qed.

(** C6, as stated, fails on its second half: an entry from which no
    message id can be resolved can keep the valid ones out.  In a payload
    whose messages are an entry without an id, an entry that is [null] and
    a complete entry, the first is skipped, reading the id of the second
    throws, and the third, though it would pass the guard, is never
    stored. *)
Lemma null_entry_keeps_valid_message_out :
  messages_of flat_with_null (container flat_with_null) =
  [entry_no_id; VNull; entry_hello] /\
  extractContacts (container flat_with_null) = (VNull, VStr "Unknown") /\
  accepted (message_input flat_with_null flat_with_null VNull
              (VStr "Unknown") entry_hello) = true /\
  fst (processFile noon (Parsed flat_with_null) (start [])) =
  Throw (TypeError VNull "id") /\
  db (snd (processFile noon (Parsed flat_with_null) (start []))) = [] /\
  ~ In (VStr "wamid.A1")
      (ids (snd (processFile noon (Parsed flat_with_null) (start [])))).
Proof.
  split; [reflexivity|]. split; [reflexivity|]. split; [reflexivity|].
  split; [reflexivity|]. split; [reflexivity|]. intros [].
Qed.

(** C6, amended: a message input whose conversation id or message id is
    empty or absent makes [upsertMessage] return without touching the
    collection; and when a payload is processed whose message entries are
    JSON values other than [null] and resolve to inputs that either fail
    the guard or have fields that the schema takes as they are, every
    entry that resolves to an accepted input has its id in the collection
    afterwards, and the collection holds no id besides those it had and
    those of the accepted entries: the invalid entries never appear and do
    not keep the valid ones out.  (An entry that is [null], or an accepted
    one that the mapper cannot cast, stops the file: the entries after it
    are not stored.) *)
Theorem invalid_messages_are_skipped (clock : nat -> Z)
  (payload value_ : value) (w : world) :
  let messages :=
    asArray (value_ ?. "messages" |? payload ?. "messages" |? VArr []) in
  let input :=
    message_input payload value_ (fst (extractContacts value_))
      (snd (extractContacts value_)) in
  let w' := snd (process_value clock payload value_ w) in
  Forall (fun m => nullish m = false) messages ->
  Forall (fun m => accepted (input m) = true -> storable (input m) = true)
    messages ->
  (forall now a c, accepted a = false -> upsertMessage now a c = (VUndef, c)) /\
  (forall m, In m messages -> accepted (input m) = true ->
             In (Msg.msg_id (input m)) (ids w')) /\
  (forall k, In k (ids w') ->
             In k (ids w) \/
             exists m, In m messages /\ accepted (input m) = true /\
                       k = Msg.msg_id (input m)).
Proof.
  intros messages input w' H _.
  split; [intros now a c V; now apply upsert_invalid|].
  subst messages input w'. unfold process_value.
  destruct (extractContacts value_) as [fw fp]. simpl fst. simpl snd.
  set (ms := asArray _) in *. set (ss := asArray _).
  unfold bind.
  destruct (message_loop clock payload value_ fw fp ms H w)
    as (Hok & _ & Hin & Hout).
  destruct (for_of ms (message_step clock payload value_ fw fp) w)
    as [r w1] eqn:E1.
  simpl in Hok, Hin, Hout. subst r.
  pose proof (keeps_for_of ids_kept ids_kept_refl ids_kept_trans ss
                status_step status_step_ids w1) as K.
  unfold ids_kept in K. rewrite K. now split.
Qed.

Lemma invalid_messages_are_skipped_witness :
  In (VStr "wamid.A1")
     (ids (snd (process_value noon flat_mixed flat_mixed (start [])))) /\
  In (VStr "wamid.B2")
     (ids (snd (process_value noon flat_mixed flat_mixed (start [])))) /\
  ~ In (VStr "wamid.C3")
     (ids (snd (process_value noon flat_mixed flat_mixed (start [])))).
Proof.
  destruct (invalid_messages_are_skipped noon flat_mixed flat_mixed (start []))
    as (_ & Hin & Hout).
  - repeat constructor.
  - repeat constructor; intros _; reflexivity.
  - split; [|split].
    + apply (Hin entry_hello); [now left|reflexivity].
    + apply (Hin entry_reply); [now right; right; right; left|reflexivity].
    + intros K. destruct (Hout _ K) as [[]|(m & Hm & Hacc & E)].
      destruct Hm as [<-|[<-|[<-|[<-|[]]]]]; discriminate.
Defined.

End Rejection.

(* ===================================================================== *)
(** * Status correlation *)
(* ===================================================================== *)

Module Correlation.
Import JS Store Engine Schema Script Batch Samples.
Import StoreFacts EngineFacts StatusFacts RunFacts.
Local Open Scope js_scope.
Local Open Scope script_scope.

Lemma existsb_update_first p f c :
  existsb p c = true <-> update_first p f c <> None.
Proof.
  rewrite existsb_exists. split.
  - intros (d & Hd & Hp) U.
    rewrite (proj1 (update_first_none p f c) U d Hd) in Hp. discriminate.
  - intros U. destruct (update_first p f c) as [[d c']|] eqn:E; [|congruence].
    apply update_first_some in E.
    destruct E as (c1 & r & c2 & -> & _ & Hr & _).
    exists r. split; [apply in_elt|exact Hr].
Qed.

(** Which record [applyStatus] updates: none when the input has no key;
    else the first one under the primary id; the correlation id is tried
    exactly when no record is under the primary id and the input has a
    correlation id. *)
Lemma applyStatus_cases a c :
  snd (applyStatus a c) =
  if negb (truthy (Status.id a)) && negb (truthy (Status.metaMsgId a)) then c
  else if existsb (by_msg_id (Status.id a)) c
       then updateOne (by_msg_id (Status.id a))
              (set_status (Status.status a)) c
       else if truthy (Status.metaMsgId a)
            then updateOne (by_meta_msg_id (Status.metaMsgId a))
                   (set_status (Status.status a)) c
            else c.
Proof.
  destruct (existsb (by_msg_id (Status.id a)) c) eqn:X.
  - unfold applyStatus, findOneAndUpdate, updateOne.
    destruct (negb (truthy (Status.id a)) && negb (truthy (Status.metaMsgId a)));
      [reflexivity|].
    fold (by_msg_id (Status.id a)).
    apply (existsb_update_first _ (set_status (Status.status a))) in X.
    destruct (update_first _ _ c) as [[d c']|]; [reflexivity|congruence].
  - assert (forall d, In d c -> by_msg_id (Status.id a) d = false) as Hn.
    { apply (update_first_none _ (set_status (Status.status a))).
      destruct (update_first _ _ c) eqn:U; [|reflexivity].
      assert (existsb (by_msg_id (Status.id a)) c = true)
        by (eapply existsb_update_first; rewrite U; discriminate).
      congruence. }
    rewrite applyStatus_no_primary by exact Hn. simpl.
    destruct (truthy (Status.metaMsgId a)).
    + now rewrite andb_false_r.
    + now destruct (negb (truthy (Status.id a)) && negb false).
Qed.

Lemma or_assoc a b c : (a |? (b |? c)) = (a |? b |? c).
Proof. unfold or_. now destruct (truthy a) eqn:E; rewrite ?E. Qed.

(** A step of the loop over the statuses, on an entry that is not
    [null]: one call of [applyStatus], on the input resolved from it. *)
Lemma status_step_run s w :
  nullish s = false ->
  status_step s w =
  (Ok tt,
   mkWorld (snd (applyStatus (status_input s) (db w))) (S (tick w))
           (calls w ++ [CallStatus (status_input s)]) (console w)).
Proof.
  intros H. unfold status_step, status_input, status_of_entry, orM, getM, bind.
  rewrite H. unfold ret. rewrite <- or_assoc.
  set (x := get s "status").
  set (y := s ?. "conversation" ?. "status" |? s ?. "message_status").
  unfold or_, call_applyStatus.
  destruct (truthy x); simpl;
    destruct (applyStatus _ (db w)); reflexivity.
Qed.

Lemma truthy_VStr x : x <> "" -> truthy (VStr x) = true.
Proof.
  intros H. simpl. destruct (String.eqb_spec x ""); [contradiction|reflexivity].
Qed.

Lemma delivery_status_truthy st : delivery_status st -> truthy st = true.
Proof. now intros [-> | [-> | ->]]. Qed.

(** What the driver hands to [applyStatus] for a status event that has an
    id and a status only: the id, as primary and as correlation id. *)
Lemma status_input_event x st :
  x <> "" -> truthy st = true ->
  status_input (status_event (VStr x) st) = Status.make (VStr x) (VStr x) st.
Proof.
  intros Hx Hst. unfold status_input, status_args, status_of_entry.
  cbn. unfold or_. cbn.
  pose proof (truthy_VStr x Hx) as T. simpl in T.
  rewrite !T. cbn. rewrite !T, !Hst. cbn. now rewrite ?T, ?Hst.
Qed.

(** C4, as stated, fails: the retry needs a correlation id in the input.
    A status input that carries the key in its primary id only does not
    reach a record that has the key as correlation id: the record keeps its
    status. *)
Lemma fallback_needs_correlation_id :
  by_msg_id (VStr "wamid.A1") reply = false /\
  by_meta_msg_id (VStr "wamid.A1") reply = true /\
  applyStatus (Status.make (VStr "wamid.A1") VUndef (VStr "delivered"))
    [reply] = (VUndef, [reply]) /\
  map status
    (snd (applyStatus
            (Status.make (VStr "wamid.A1") VUndef (VStr "delivered")) [reply]))
  <> [VStr "delivered"].
Proof.
  split; [reflexivity|]. split; [reflexivity|]. split; [reflexivity|].
  discriminate.
Qed.

(** C4, amended: for a status input whose keys and status are strings or
    absent, [applyStatus] looks the record up by the primary id first, and
    retries by the correlation id exactly when that lookup matches no
    record and the input carries a non-empty correlation id.  The batch
    driver passes the id of a status event as correlation id as well, so
    for a record [r] that only the correlation id [x] reaches, a status
    event with id [x] processed by the driver, like a status input with
    both keys [x], sets the status of [r]; a status input with the primary
    id [x] and no correlation id leaves the collection as it is.  (For
    keys of another type the mapper casts the filter, or rejects the call
    before any retry; the store calls here do not model that, hence
    [plain_status].) *)
Theorem status_fallback (x : string) (st : value) (c1 : collection) (r : doc)
  (c2 : collection) :
  x <> "" ->
  delivery_status st ->
  (forall d, In d (c1 ++ r :: c2) -> by_msg_id (VStr x) d = false) ->
  by_meta_msg_id (VStr x) r = true ->
  (forall d, In d c1 -> by_meta_msg_id (VStr x) d = false) ->
  (forall a c,
      plain_status a = true ->
      snd (applyStatus a c) =
      if negb (truthy (Status.id a)) && negb (truthy (Status.metaMsgId a))
      then c
      else if existsb (by_msg_id (Status.id a)) c
           then updateOne (by_msg_id (Status.id a))
                  (set_status (Status.status a)) c
           else if truthy (Status.metaMsgId a)
                then updateOne (by_meta_msg_id (Status.metaMsgId a))
                       (set_status (Status.status a)) c
                else c) /\
  applyStatus (Status.make (VStr x) (VStr x) st) (c1 ++ r :: c2) =
  (VUndef, c1 ++ with_status st r :: c2) /\
  (forall w, db w = c1 ++ r :: c2 ->
             db (snd (status_step (status_event (VStr x) st) w)) =
             c1 ++ with_status st r :: c2) /\
  applyStatus (Status.make (VStr x) VUndef st) (c1 ++ r :: c2) =
  (VUndef, c1 ++ r :: c2).
Proof.
  intros Hx Hst Hno Hr Hfirst.
  assert (applyStatus (Status.make (VStr x) (VStr x) st) (c1 ++ r :: c2) =
          (VUndef, c1 ++ with_status st r :: c2)) as E.
  { rewrite applyStatus_no_primary by exact Hno.
    cbn [Status.metaMsgId Status.status].
    rewrite (truthy_VStr x Hx), updateOne_split by assumption.
    now rewrite set_status_delivery. }
  split; [intros a c _; apply applyStatus_cases|]. split; [exact E|]. split.
  - intros w Hw. rewrite status_step_run by reflexivity.
    rewrite status_input_event, Hw, E;
      auto using delivery_status_truthy.
  - now rewrite applyStatus_no_primary by exact Hno.
Qed.

Lemma status_fallback_witness :
  applyStatus (Status.make (VStr "wamid.A1") (VStr "wamid.A1")
                 (VStr "delivered")) [hello_read_elsewhere; reply] =
  (VUndef, [hello_read_elsewhere; with_status (VStr "delivered") reply]) /\
  db (snd (status_step (status_event (VStr "wamid.A1") (VStr "delivered"))
             (start [hello_read_elsewhere; reply]))) =
  [hello_read_elsewhere; with_status (VStr "delivered") reply].
Proof.
  destruct (status_fallback "wamid.A1" (VStr "delivered")
              [hello_read_elsewhere] reply [])
    as (_ & E & P & _).
  - discriminate.
  - right. left. reflexivity.
  - intros d [<-|[<-|[]]]; reflexivity.
  - reflexivity.
  - intros d [<-|[]]. reflexivity.
  - split; [exact E|]. apply P. reflexivity.
Defined.

End Correlation.

(* ===================================================================== *)
(** * Per-source ordering *)
(* ===================================================================== *)

Module PerSource.
Import JS Store Engine Script Batch Samples.
Import StoreFacts EngineFacts StatusFacts RunFacts Rejection Correlation.
Local Open Scope js_scope.
Local Open Scope script_scope.

(** For a payload that is not [null], [processFile] runs the two loops on
    the container chosen from it. *)
Lemma process_payload_container clock payload w :
  nullish payload = false ->
  process_payload clock payload w =
  process_value clock payload (container payload) w.
Proof.
  intros N. unfold process_payload, container, orM, getM, bind, ret.
  rewrite N. cbv zeta.
  unfold or_. destruct (truthy (get payload "entry")); cbv beta iota;
    match goal with
    | |- context [truthy (?c ?. "value")] =>
        destruct (truthy (c ?. "value")) eqn:Ec; cbv beta iota;
        rewrite ?Ec; try reflexivity
    end;
    destruct (truthy (get payload "value")) eqn:Ev; cbv beta iota;
    now rewrite ?Ev.
Qed.

(** The calls of the loop over the messages: the inputs of the entries,
    in order, up to the entry where the loop stops, if it does. *)
Lemma message_calls clock p v fw fp ms :
  forall w,
    let run := for_of ms (message_step clock p v fw fp) w in
    exists n,
      (n <= List.length ms)%nat /\
      calls (snd run) =
      calls w ++ map CallUpsert (map (message_input p v fw fp) (firstn n ms))
      /\
      (fst run = Ok tt -> n = List.length ms).
Proof.
  induction ms as [|m ms IH]; intros w; simpl.
  - exists 0%nat. split; [lia|]. split; [now rewrite app_nil_r|reflexivity].
  - unfold bind. destruct (nullish m) eqn:N.
    + exists 0%nat. unfold message_step, orM, getM, bind. rewrite N. simpl.
      split; [lia|]. split; [now rewrite app_nil_r|discriminate].
    + rewrite message_step_run by exact N.
      destruct (IH (mkWorld
                      (snd (upsertMessage (clock (tick w))
                              (message_input p v fw fp m) (db w)))
                      (S (tick w))
                      (calls w ++ [CallUpsert (message_input p v fw fp m)])
                      (console w))) as (n & Hn & Hc & Hok).
      exists (S n). split; [simpl; lia|]. split.
      * rewrite Hc. cbn [calls firstn map]. now rewrite <- app_assoc.
      * intros H. simpl. now rewrite (Hok H).
Qed.

(** The same for the loop over the statuses. *)
Lemma status_calls ss :
  forall w,
    let run := for_of ss status_step w in
    exists k,
      (k <= List.length ss)%nat /\
      calls (snd run) =
      calls w ++ map CallStatus (map status_input (firstn k ss)) /\
      (fst run = Ok tt -> k = List.length ss).
Proof.
  induction ss as [|x ss IH]; intros w; simpl.
  - exists 0%nat. split; [lia|]. split; [now rewrite app_nil_r|reflexivity].
  - unfold bind. destruct (nullish x) eqn:N.
    + exists 0%nat. unfold status_step, orM, getM, bind. rewrite N. simpl.
      split; [lia|]. split; [now rewrite app_nil_r|discriminate].
    + rewrite status_step_run by exact N.
      destruct (IH (mkWorld (snd (applyStatus (status_input x) (db w)))
                      (S (tick w)) (calls w ++ [CallStatus (status_input x)])
                      (console w))) as (k & Hk & Hc & Hok).
      exists (S k). split; [simpl; lia|]. split.
      * rewrite Hc. cbn [calls firstn map]. now rewrite <- app_assoc.
      * intros H. simpl. now rewrite (Hok H).
Qed.

(** C8: for every payload source and every world it is processed in, the
    calls that [processFile] makes on the engine are the message inputs
    extracted from the source, in their order, each handed to
    [upsertMessage], followed by its status inputs, each handed to
    [applyStatus].  When the processing stops on an exception the calls
    are a part of that list up to some point; but whenever a status input
    is applied at all, every message input of the source has been applied
    before it, and when the processing ends well every input of the source
    has been applied.  A source that is not JSON makes no call. *)
Theorem messages_before_statuses (clock : nat -> Z) (payload : value)
  (w : world) :
  let value_ := container payload in
  let messages := messages_of payload value_ in
  let statuses := statuses_of payload value_ in
  let input :=
    message_input payload value_ (fst (extractContacts value_))
      (snd (extractContacts value_)) in
  let run := processFile clock (Parsed payload) w in
  (exists n k,
      (n <= List.length messages)%nat /\ (k <= List.length statuses)%nat /\
      calls (snd run) =
      calls w ++ map CallUpsert (map input (firstn n messages))
              ++ map CallStatus (map status_input (firstn k statuses)) /\
      ((0 < k)%nat -> n = List.length messages) /\
      (fst run = Ok tt ->
       n = List.length messages /\ k = List.length statuses)) /\
  (forall msg, calls (snd (processFile clock (Malformed msg) w)) = calls w).
Proof.
  intros value_ messages statuses input run. split; [|reflexivity].
  subst run. cbn [processFile].
  destruct (nullish payload) eqn:N.
  - exists 0%nat, 0%nat. unfold process_payload, orM, getM, bind.
    rewrite N. simpl. split; [lia|]. split; [lia|].
    split; [now rewrite app_nil_r|]. split; [lia|discriminate].
  - rewrite process_payload_container by exact N. fold value_.
    unfold process_value. fold (messages_of payload value_).
    fold (statuses_of payload value_). fold messages. fold statuses.
    subst input. destruct (extractContacts value_) as [fw fp].
    cbn [fst snd]. unfold bind.
    destruct (message_calls clock payload value_ fw fp messages w)
      as (n & Hn & Hc & Hok).
    destruct (for_of messages (message_step clock payload value_ fw fp) w)
      as [[u|e] w1]; cbn [fst snd] in Hc, Hok.
    + destruct (status_calls statuses w1) as (k & Hk & Hc' & Hok').
      exists n, k. split; [exact Hn|]. split; [exact Hk|].
      split; [now rewrite Hc', Hc, <- app_assoc|].
      assert (n = List.length messages) as En by (apply Hok; now destruct u).
      split; [intros _; exact En|]. intros H. split; [exact En|].
      apply Hok'. exact H.
    + exists n, 0%nat. split; [exact Hn|]. split; [lia|]. cbn [fst snd].
      split; [rewrite Hc; cbn [firstn map]; now rewrite app_nil_r|].
      split; [lia|discriminate].
Qed.

End PerSource.

(* ===================================================================== *)
(** * Batch isolation and what the batch reports *)
(* ===================================================================== *)

Module Isolation.
Import JS Store Engine Script Batch Samples RunFacts.
Local Open Scope js_scope.
Local Open Scope script_scope.

Lemma alike_trans {A} (m1 m2 m3 : M world A) :
  alike m1 m2 -> alike m2 m3 -> alike m1 m3.
Proof.
  intros H12 H23 w1 w3 S.
  destruct (H12 w1 w3 S) as [E S'].
  destruct (H23 w3 w3 (same_state_refl w3)) as [E' [D T]].
  split; [congruence|]. destruct S' as [D' T']. split; congruence.
Qed.

Lemma alike_sym {A} (m1 m2 : M world A) : alike m1 m2 -> alike m2 m1.
Proof.
  intros H w1 w2 [D T].
  destruct (H w2 w1 (conj (eq_sym D) (eq_sym T))) as [E [D' T']].
  split; [congruence|split; congruence].
Qed.

Lemma alike_processFile clock src :
  alike (processFile clock src) (processFile clock src).
Proof.
  destruct src as [payload|msg]; simpl; [|apply alike_throw].
  unfold process_payload. apply alike_bind.
  - apply alike_orM; apply alike_getM.
  - intros e. apply alike_bind.
    + repeat first [apply alike_orM | apply alike_getM | apply alike_ret].
    + intros value_. unfold process_value.
      destruct (extractContacts value_) as [fw fp]. apply alike_bind.
      * apply alike_for_of. intros m. now apply alike_message_step.
      * intros _. apply alike_for_of. exact alike_status_step.
Qed.

Lemma alike_file_step clock f : alike (file_step clock f) (file_step clock f).
Proof.
  unfold file_step. apply alike_bind; [apply alike_log|]. intros _.
  apply alike_bind; [apply alike_try, alike_processFile|].
  intros [u|e]; apply alike_log.
Qed.

(** A file that is not JSON changes nothing but the console. *)
Lemma alike_malformed clock name msg :
  alike (file_step clock (name, Malformed msg)) (ret tt).
Proof. intros w1 w2 H. split; [reflexivity|exact H]. Qed.

Lemma for_of_app {A} (l1 l2 : list A) (body : A -> M world unit) w :
  for_of (l1 ++ l2) body w = bind (for_of l1 body) (fun _ => for_of l2 body) w.
Proof.
  revert w. induction l1 as [|x l1 IH]; intros w; simpl; [reflexivity|].
  unfold bind. destruct (body x w) as [[u|e] w']; [|reflexivity].
  rewrite IH. reflexivity.
Qed.

Lemma alike_ext {A} (m1 m1' m2 m2' : M world A) :
  (forall w, m1 w = m1' w) -> (forall w, m2 w = m2' w) ->
  alike m1' m2' -> alike m1 m2.
Proof. intros E1 E2 H w1 w2 S. rewrite E1, E2. now apply H. Qed.

(** Dropping a file that is not JSON from the loop changes nothing but
    the console. *)
Lemma alike_without_malformed clock l1 name msg l2 :
  alike (for_of (l1 ++ (name, Malformed msg) :: l2) (file_step clock))
        (for_of (l1 ++ l2) (file_step clock)).
Proof.
  eapply alike_ext; [apply for_of_app|apply for_of_app|].
  apply alike_bind.
  - apply alike_for_of. apply alike_file_step.
  - intros _. simpl.
    eapply alike_ext with
      (m2' := bind (ret tt) (fun _ => for_of l2 (file_step clock)));
      [reflexivity|reflexivity|].
    apply alike_bind; [apply alike_malformed|].
    intros _. apply alike_for_of. apply alike_file_step.
Qed.

Lemma alike_files_loop clock l :
  alike (files_loop clock l) (for_of l (file_step clock)).
Proof.
  destruct l as [|f l]; [apply alike_log_skip|].
  apply alike_for_of. apply alike_file_step.
Qed.

Lemma main_unfold clock files :
  main clock files =
  bind (log Connected)
    (fun _ => bind (files_loop clock (filter is_json files))
                (fun _ => log Disconnected)).
Proof. reflexivity. Qed.

Lemma console_kept_refl w : console_kept w w.
Proof. reflexivity. Qed.

Lemma console_kept_trans w1 w2 w3 :
  console_kept w1 w2 -> console_kept w2 w3 -> console_kept w1 w3.
Proof. unfold console_kept. congruence. Qed.

(** Processing a file writes nothing on the console. *)
Lemma processFile_console clock src :
  keeps console_kept (processFile clock src).
Proof.
  pose proof console_kept_refl as R. pose proof console_kept_trans as T.
  destruct src as [payload|msg]; simpl; [|now apply keeps_throw].
  unfold process_payload. apply (keeps_bind console_kept T).
  { repeat first [ apply (keeps_orM console_kept R T)
                 | apply (keeps_getM console_kept R) ]. }
  intros e. apply (keeps_bind console_kept T).
  { repeat first [ apply (keeps_orM console_kept R T)
                 | apply (keeps_getM console_kept R)
                 | apply (keeps_ret console_kept R) ]. }
  intros value_. unfold process_value.
  destruct (extractContacts value_) as [fw fp].
  apply (keeps_bind console_kept T).
  - apply (keeps_for_of console_kept R T). intros m. unfold message_step.
    apply (keeps_bind console_kept T).
    { repeat first [ apply (keeps_orM console_kept R T)
                   | apply (keeps_getM console_kept R) ]. }
    intros id. apply (keeps_bind console_kept T).
    + intros w. unfold call_upsertMessage.
      now destruct (upsertMessage _ _ (db w)).
    + intros _. now apply keeps_ret.
  - intros _. apply (keeps_for_of console_kept R T). intros s.
    unfold status_step. apply (keeps_bind console_kept T).
    { repeat first [ apply (keeps_orM console_kept R T)
                   | apply (keeps_getM console_kept R)
                   | apply (keeps_ret console_kept R) ]. }
    intros st. apply (keeps_bind console_kept T).
    + intros w. unfold call_applyStatus.
      now destruct (applyStatus _ (db w)).
    + intros _. now apply keeps_ret.
Qed.

(** One turn of the loop of [main]: it ends well whatever the file does,
    writes the line that names the file and then the line of its outcome,
    and leaves the state that processing the file leaves. *)
Lemma file_step_run clock f w :
  fst (file_step clock f w) = Ok tt /\
  same_state (snd (file_step clock f w)) (snd (processFile clock (snd f) w)) /\
  exists l,
    console (snd (file_step clock f w)) =
    console w ++ [Processing (fst f); l] /\
    (l = Done (fst f) \/ exists e, l = Failed (fst f) e) /\
    (forall msg, snd f = Malformed msg -> l = Failed (fst f) (SyntaxError msg)).
Proof.
  unfold file_step, bind, try_, log. simpl.
  set (w0 := mkWorld (db w) (tick w) (calls w) (console w ++ [Processing (fst f)])).
  assert (same_state w0 w) as S0 by (now split).
  destruct (alike_processFile clock (snd f) w0 w S0) as [_ S1].
  pose proof (processFile_console clock (snd f) w0) as K.
  unfold console_kept in K.
  assert (forall msg, snd f = Malformed msg ->
                      fst (processFile clock (snd f) w0)
                      = Throw (SyntaxError msg)) as Hbad
    by (intros msg ->; reflexivity).
  destruct (processFile clock (snd f) w0) as [[u|e] w1]; simpl in *.
  - split; [reflexivity|]. split; [exact S1|].
    exists (Done (fst f)). rewrite K, <- app_assoc. split; [reflexivity|].
    split; [now left|]. intros msg Hm. specialize (Hbad msg Hm). discriminate.
  - split; [reflexivity|]. split; [exact S1|].
    exists (Failed (fst f) e). rewrite K, <- app_assoc. split; [reflexivity|].
    split; [right; now exists e|].
    intros msg Hm. specialize (Hbad msg Hm). congruence.
Qed.

(** The whole loop: it ends well, every file gets its two lines, and the
    state is the one that processing the files in turn leaves. *)
Lemma files_run clock fs :
  forall w,
    let w' := snd (for_of fs (file_step clock) w) in
    fst (for_of fs (file_step clock) w) = Ok tt /\
    same_state w' (process_all clock fs w) /\
    (exists l, console w' = console w ++ l) /\
    (forall f, In f fs ->
       In (Processing (fst f)) (console w') /\
       (In (Done (fst f)) (console w') \/
        exists e, In (Failed (fst f) e) (console w')) /\
       (forall msg, snd f = Malformed msg ->
                    In (Failed (fst f) (SyntaxError msg)) (console w'))).
Proof.
  induction fs as [|f fs IH]; intros w; simpl.
  - split; [reflexivity|]. split; [apply same_state_refl|].
    split; [exists []; now rewrite app_nil_r|]. intros f [].
  - unfold bind.
    destruct (file_step_run clock f w) as (Hok & S1 & l & Hc & Hl & Hbad).
    destruct (file_step clock f w) as [r w1]. simpl in Hok, S1, Hc. subst r.
    destruct (IH w1) as (Hok' & S' & (l' & Hc') & Hin).
    split; [exact Hok'|]. split.
    { unfold process_all in *. simpl.
      destruct (alike_for_of fs (file_step clock) (file_step clock)
                  (alike_file_step clock) w1
                  (snd (processFile clock (snd f) w)) S1) as [_ [D T]].
      destruct (IH (snd (processFile clock (snd f) w))) as (_ & [D' T'] & _).
      split; congruence. }
    split; [exists ([Processing (fst f); l] ++ l');
            now rewrite Hc', Hc, <- app_assoc|].
    assert (forall x, In x [Processing (fst f); l] ->
                      In x (console (snd (for_of fs (file_step clock) w1))))
      as Hhere.
    { intros x Hx. rewrite Hc', Hc. apply in_or_app. left.
      apply in_or_app. now right. }
    intros g [<-|Hg]; [|now apply Hin].
    split; [apply Hhere; now left|]. split.
    + destruct Hl as [->|[e ->]].
      * left. apply Hhere. right. now left.
      * right. exists e. apply Hhere. right. now left.
    + intros msg Hm. rewrite <- (Hbad msg Hm). apply Hhere. right. now left.
Qed.

Lemma process_all_state clock fs :
  forall w1 w2, same_state w1 w2 ->
                same_state (process_all clock fs w1) (process_all clock fs w2).
Proof.
  unfold process_all. induction fs as [|f fs IH]; intros w1 w2 S; simpl.
  - exact S.
  - apply IH. now apply alike_processFile.
Qed.

Lemma filter_json_split before name msg after :
  is_json (name, Malformed msg) = true ->
  filter is_json (before ++ (name, Malformed msg) :: after) =
  filter is_json before ++ (name, Malformed msg) :: filter is_json after.
Proof. intros H. rewrite filter_app. simpl. now rewrite H. Qed.

(** The batch with a file that is not JSON, and the batch without it. *)
Lemma alike_main_without clock before name msg after :
  is_json (name, Malformed msg) = true ->
  alike (main clock (before ++ (name, Malformed msg) :: after))
        (main clock (before ++ after)).
Proof.
  intros H. rewrite !main_unfold, filter_json_split, filter_app by exact H.
  apply alike_bind; [apply alike_log|]. intros _.
  apply alike_bind; [|intros _; apply alike_log].
  eapply alike_trans; [apply alike_files_loop|].
  eapply alike_trans; [apply alike_without_malformed|].
  apply alike_sym, alike_files_loop.
Qed.

(** C9, as stated, fails on the report: the batch reports on the console,
    one line when a source is taken up and one for its outcome, and it
    counts nothing.  Two batches that upsert different numbers of messages
    and apply different numbers of statuses produce the same console and
    the same result. *)
Lemma batch_reports_no_counts :
  console (snd (main noon [("a.json", Parsed flat_two)] (start []))) =
  console (snd (main noon [("a.json", Parsed flat_delivered)] (start []))) /\
  fst (main noon [("a.json", Parsed flat_two)] (start [])) =
  fst (main noon [("a.json", Parsed flat_delivered)] (start [])) /\
  upserts_made (snd (main noon [("a.json", Parsed flat_two)] (start [])))
  = 2%nat /\
  upserts_made (snd (main noon [("a.json", Parsed flat_delivered)] (start [])))
  = 1%nat /\
  statuses_made (snd (main noon [("a.json", Parsed flat_two)] (start [])))
  = 0%nat /\
  statuses_made (snd (main noon [("a.json", Parsed flat_delivered)] (start [])))
  = 1%nat.
Proof. repeat split. Qed.

(** C9, amended: a source that is not JSON does not stop the batch.  The
    batch ends well; the collection is the one that the batch without that
    source leaves, and the one that processing the JSON sources in turn
    leaves, each from what the one before left; the console names the
    failed source with its error, and has for every JSON source the line
    that takes it up and the line of its outcome, done or failed with the
    error.  (Nothing is counted: no number of sources, of messages
    upserted or of statuses applied is reported.) *)
Theorem batch_isolates_failures (clock : nat -> Z)
  (before : list (string * parsed)) (name msg : string)
  (after : list (string * parsed)) (w : world) :
  let files := before ++ (name, Malformed msg) :: after in
  let w' := snd (main clock files w) in
  is_json (name, Malformed msg) = true ->
  fst (main clock files w) = Ok tt /\
  db w' = db (snd (main clock (before ++ after) w)) /\
  db w' = db (process_all clock (filter is_json files) w) /\
  In (Failed name (SyntaxError msg)) (console w') /\
  (forall f, In f files -> is_json f = true ->
     In (Processing (fst f)) (console w') /\
     (In (Done (fst f)) (console w') \/
      exists e, In (Failed (fst f) e) (console w'))).
Proof.
  intros files w' H.
  destruct (alike_main_without clock before name msg after H w w
              (same_state_refl w)) as [_ [D _]].
  fold files in D. fold w' in D.
  assert (In (name, Malformed msg) (filter is_json files)) as Hbad.
  { apply filter_In. split; [apply in_elt|exact H]. }
  subst w'. rewrite main_unfold in *.
  assert (filter is_json files <> []) as Hne
    by (intros E; rewrite E in Hbad; destruct Hbad).
  unfold files_loop in *. destruct (filter is_json files) as [|f0 J] eqn:EJ;
    [congruence|]. rewrite <- EJ in *. clear Hne.
  unfold bind, log in *. simpl in *.
  set (w0 := mkWorld (db w) (tick w) (calls w) (console w ++ [Connected])) in *.
  destruct (files_run clock (filter is_json files) w0)
    as (Hok & S & _ & Hin).
  destruct (for_of (filter is_json files) (file_step clock) w0) as [r w1].
  simpl in Hok, S, Hin. subst r. simpl in *.
  split; [reflexivity|]. split; [exact D|]. split.
  { destruct S as [S _]. rewrite S.
    apply (process_all_state clock (filter is_json files) w0 w). now split. }
  split.
  - apply in_or_app. left. now apply (Hin _ Hbad).
  - intros f Hf Hj.
    assert (In f (filter is_json files)) as Hf'
      by (apply filter_In; now split).
    destruct (Hin f Hf') as (Hp & Ho & _). split.
    + apply in_or_app. now left.
    + destruct Ho as [Hd|[e He]].
      * left. apply in_or_app. now left.
      * right. exists e. apply in_or_app. now left.
Qed.

Lemma batch_isolates_failures_witness :
  is_json ("b.json", Malformed "Unexpected token } in JSON at position 17")
  = true /\
  (fst (main noon three_files (start [])) = Ok tt /\
   db (snd (main noon three_files (start []))) =
   db (snd (main noon [("a.json", Parsed flat_two);
                       ("c.json", Parsed flat_mixed)] (start []))) /\
   In (Failed "b.json"
         (SyntaxError "Unexpected token } in JSON at position 17"))
      (console (snd (main noon three_files (start []))))).
Proof.
  split; [reflexivity|].
  destruct (batch_isolates_failures noon [("a.json", Parsed flat_two)]
              "b.json" "Unexpected token } in JSON at position 17"
              [("c.json", Parsed flat_mixed)] (start []) eq_refl)
    as (Hok & Hdb & _ & Hfail & _).
  split; [exact Hok|]. split; [exact Hdb|exact Hfail].
Defined.

End Isolation.

(* ===================================================================== *)
(** * The older import script *)
(* ===================================================================== *)

Module ImportFacts.
Import JS Store Engine Script ImportScript Samples RunFacts.
Local Open Scope js_scope.
Local Open Scope script_scope.

Lemma import_messages_refl w : messages_only w w.
Proof. exists []. simpl. now rewrite app_nil_r. Qed.

Lemma import_messages_trans w1 w2 w3 :
  messages_only w1 w2 -> messages_only w2 w3 -> messages_only w1 w3.
Proof.
  intros [ms E] [ms' E']. exists (ms ++ ms').
  now rewrite E', E, map_app, app_assoc.
Qed.

Lemma import_statuses_refl w : statuses_only w w.
Proof. exists []. simpl. now rewrite app_nil_r. Qed.

Lemma import_statuses_trans w1 w2 w3 :
  statuses_only w1 w2 -> statuses_only w2 w3 -> statuses_only w1 w3.
Proof.
  intros [ss E] [ss' E']. exists (ss ++ ss').
  now rewrite E', E, map_app, app_assoc.
Qed.

Lemma import_messages_ordered w w' :
  messages_only w w' -> messages_then_statuses w w'.
Proof. intros [ms E]. exists ms, []. simpl. now rewrite app_nil_r. Qed.

Lemma import_statuses_ordered w w' :
  statuses_only w w' -> messages_then_statuses w w'.
Proof. intros [ss E]. exists [], ss. exact E. Qed.

Lemma import_messages_before w1 w2 w3 :
  messages_only w1 w2 -> messages_then_statuses w2 w3 ->
  messages_then_statuses w1 w3.
Proof.
  intros [ms E] (ms' & ss & E'). exists (ms ++ ms'), ss.
  now rewrite E', E, map_app, <- !app_assoc.
Qed.

Ltac collecting :=
  repeat first
    [ apply (keeps_orM messages_only import_messages_refl import_messages_trans)
    | apply (keeps_getM messages_only import_messages_refl)
    | apply (keeps_iterate messages_only import_messages_refl)
    | apply (keeps_ret messages_only import_messages_refl)
    | apply (keeps_throw messages_only import_messages_refl) ].

(** Collecting the messages and statuses of the entries touches no
    store. *)
Lemma entry_step_collects acc entry : keeps messages_only (entry_step acc entry).
Proof.
  unfold entry_step.
  apply (keeps_bind messages_only import_messages_trans); [collecting|].
  intros changes.
  apply (keeps_bind messages_only import_messages_trans); [collecting|].
  intros cs. apply (keeps_fold_of messages_only import_messages_refl
                      import_messages_trans).
  intros b change. unfold change_step.
  apply (keeps_bind messages_only import_messages_trans); [collecting|].
  intros field.
  apply (keeps_bind messages_only import_messages_trans).
  - destruct (value_eqb field (VStr "messages")); [|collecting].
    apply (keeps_bind messages_only import_messages_trans); [collecting|].
    intros contacts.
    apply (keeps_bind messages_only import_messages_trans); collecting.
  - intros acc'. destruct (value_eqb field (VStr "statuses")); [|collecting].
    apply (keeps_bind messages_only import_messages_trans); [collecting|].
    intros v.
    apply (keeps_bind messages_only import_messages_trans); collecting.
Qed.

(** The import script too applies the messages of a file before its
    statuses. *)
Lemma import_file_order f : keeps messages_then_statuses (import_file f).
Proof.
  unfold import_file.
  apply (keeps_bind2 messages_only messages_then_statuses);
    [exact import_messages_ordered|exact import_messages_before| |].
  { destruct (snd f); collecting. }
  intros data.
  apply (keeps_bind2 messages_only messages_then_statuses);
    [exact import_messages_ordered|exact import_messages_before|collecting|].
  intros metaData.
  apply (keeps_bind2 messages_only messages_then_statuses);
    [exact import_messages_ordered|exact import_messages_before|collecting|].
  intros es.
  apply (keeps_bind2 messages_only messages_then_statuses);
    [exact import_messages_ordered|exact import_messages_before| |].
  { apply (keeps_fold_of messages_only import_messages_refl import_messages_trans).
    exact entry_step_collects. }
  intros acc.
  apply (keeps_bind2 messages_only messages_then_statuses);
    [exact import_messages_ordered|exact import_messages_before| |].
  { apply (keeps_for_of messages_only import_messages_refl import_messages_trans).
    intros msg w. unfold message_upsert. simpl.
    now exists [get msg "id"]. }
  intros _. apply (keeps_weaken statuses_only); [exact import_statuses_ordered|].
  apply (keeps_bind statuses_only import_statuses_trans).
  - apply (keeps_for_of statuses_only import_statuses_refl import_statuses_trans).
    intros st. unfold status_update.
    apply (keeps_bind statuses_only import_statuses_trans).
    + repeat first
        [ apply (keeps_orM statuses_only import_statuses_refl
                   import_statuses_trans)
        | apply (keeps_getM statuses_only import_statuses_refl)
        | apply (keeps_ret statuses_only import_statuses_refl) ].
    + intros metaId. destruct (negb (truthy metaId)).
      * apply keeps_ret, import_statuses_refl.
      * intros w. simpl. now exists [(metaId, get st "status")].
  - intros _ w. simpl. exists []. simpl. now rewrite app_nil_r.
Qed.

(** The import script reads every change of every entry, under
    [metaData] only: it stores both messages of the two envelopes, and
    nothing of a flat payload. *)
Lemma import_reads_every_change :
  List.length
    (db (snd (importPayloads
                [("a.json", Parsed (under_metaData envelope_two_entries))]
                (start [])))) = 2%nat /\
  List.length
    (db (snd (importPayloads
                [("a.json", Parsed (under_metaData envelope_two_changes))]
                (start [])))) = 2%nat /\
  db (snd (importPayloads [("a.json", Parsed flat_two)] (start []))) = [].
Proof. repeat split. Qed.

(** The import script reads every timestamp as seconds: it puts the
    seconds input where [asDate] puts it, and the milliseconds input a
    thousand times further. *)
Lemma import_timestamp_is_seconds :
  (forall n, import_date (VNum n) = Date_of_number (Int (n * 1000))) /\
  import_date (VNum 1700000000) = asDate 0 (VNum 1700000000) /\
  import_date (VNum 1700000000000) = Date 1700000000000000 /\
  import_date (VStr "2023-11-14T22:13:20Z") = InvalidDate.
Proof. repeat split. Qed.

(** The import script catches nothing per file: a file that is not JSON
    ends the import, and the files after it are not read. *)
Lemma import_stops_at_malformed :
  fst (importPayloads
         [("a.json", Parsed (under_metaData envelope_two_entries));
          ("b.json", Malformed "Unexpected end of JSON input");
          ("c.json", Parsed (under_metaData envelope_two_changes))]
         (start []))
  = Throw (SyntaxError "Unexpected end of JSON input") /\
  processed
    (snd (importPayloads
            [("a.json", Parsed (under_metaData envelope_two_entries));
             ("b.json", Malformed "Unexpected end of JSON input");
             ("c.json", Parsed (under_metaData envelope_two_changes))]
            (start [])))
  = ["a.json"].
Proof. split; reflexivity. Qed.

End ImportFacts.

(* ===================================================================== *)
(** * Further facts about the engine *)
(* ===================================================================== *)

Module EngineMore.
Import JS Store Engine Schema Samples Views.
Import StoreFacts EngineFacts StatusFacts Correlation.

Lemma content_set_status s d : content (set_status s d) = content d.
Proof. now destruct s. Qed.

Lemma blind_by_msg_id q : blind (by_msg_id q).
Proof. intros s d. apply by_msg_id_set_status. Qed.

Lemma blind_by_meta_msg_id q : blind (by_meta_msg_id q).
Proof.
  intros s d. unfold by_meta_msg_id. now rewrite set_status_meta_msg_id.
Qed.

(** What an update of the first match does to the collection. *)
Lemma updateOne_cases p f c :
  (updateOne p f c = c /\ forall d, In d c -> p d = false) \/
  exists c1 r c2,
    c = c1 ++ r :: c2 /\ (forall d, In d c1 -> p d = false) /\ p r = true /\
    updateOne p f c = c1 ++ f r :: c2.
Proof.
  unfold updateOne. destruct (update_first p f c) as [[d c']|] eqn:E.
  - right. apply update_first_some in E.
    destruct E as (c1 & r & c2 & -> & Hn & Hr & _ & ->).
    now exists c1, r, c2.
  - left. split; [reflexivity|]. now apply (update_first_none p f).
Qed.

Lemma existsb_updateOne p q s c :
  blind p -> existsb p (updateOne q (set_status s) c) = existsb p c.
Proof.
  intros B. destruct (updateOne_cases q (set_status s) c)
    as [[-> _]|(c1 & r & c2 & -> & _ & _ & ->)]; [reflexivity|].
  rewrite !existsb_app. simpl. now rewrite B.
Qed.

Lemma updateOne_again p s1 s2 c :
  blind p ->
  updateOne p (set_status s2) (updateOne p (set_status s1) c) =
  updateOne p (fun d => set_status s2 (set_status s1 d)) c.
Proof.
  intros B. destruct (updateOne_cases p (set_status s1) c)
    as [[-> Hn]|(c1 & r & c2 & -> & Hn & Hr & ->)].
  - now rewrite !updateOne_none.
  - rewrite !updateOne_split; auto. now rewrite B.
Qed.

Lemma set_status_over s1 s2 d :
  s2 <> VUndef -> set_status s2 (set_status s1 d) = set_status s2 d.
Proof. intros H. destruct s2; try congruence; now destruct s1. Qed.

Lemma updateOne_ext p f g c :
  (forall d, f d = g d) -> updateOne p f c = updateOne p g c.
Proof.
  intros E. destruct (updateOne_cases p f c)
    as [[-> Hn]|(c1 & r & c2 & -> & Hn & Hr & ->)].
  - now rewrite updateOne_none.
  - rewrite updateOne_split; auto. now rewrite E.
Qed.

(** X1: [upsertMessage] never removes a record and never changes a field
    other than the status of a record that is there: either the contents
    of the collection are what they were, or the input was accepted, no
    record had its id, and exactly one record was appended, the one built
    from the input. *)
Theorem upsert_keeps_content (now : Z) (a : Msg.t) (c : collection) :
  map content (snd (upsertMessage now a c)) = map content c \/
  (accepted a = true /\
   (forall d, In d c -> by_msg_id (Msg.msg_id a) d = false) /\
   snd (upsertMessage now a c) =
   c ++ [with_status (status_of a) (on_insert now a)]).
Proof.
  destruct (accepted a) eqn:V.
  - unfold accepted in V. apply andb_true_iff in V. destruct V as [Hw Hm].
    destruct (upsert_shape now a c Hw Hm)
      as (c1 & r & c2 & E & Hn & _ & [-> | (-> & -> & ->)]); rewrite E.
    + left. rewrite !map_app. simpl. now rewrite content_set_status.
    + right. split; [reflexivity|]. split; [exact Hn|].
      pose proof (status_of_defined a) as D.
      unfold set_status. destruct (status_of a); congruence.
  - left. now rewrite upsert_invalid.
Qed.

(** X2: [applyStatus] touches the status of at most one record and nothing
    else: the collection afterwards is the collection before, or the
    collection before with the status set in one record. *)
Theorem applyStatus_touches_one_status (a : Status.t) (c : collection) :
  map content (snd (applyStatus a c)) = map content c /\
  (snd (applyStatus a c) = c \/
   exists c1 r c2,
     c = c1 ++ r :: c2 /\
     snd (applyStatus a c) = c1 ++ set_status (Status.status a) r :: c2).
Proof.
  assert (forall p,
             map content (updateOne p (set_status (Status.status a)) c)
             = map content c /\
             (updateOne p (set_status (Status.status a)) c = c \/
              exists c1 r c2,
                c = c1 ++ r :: c2 /\
                updateOne p (set_status (Status.status a)) c =
                c1 ++ set_status (Status.status a) r :: c2)) as U.
  { intros p. destruct (updateOne_cases p (set_status (Status.status a)) c)
      as [[-> _]|(c1 & r & c2 & -> & _ & _ & ->)].
    - split; [reflexivity|now left].
    - split.
      + rewrite !map_app. simpl. now rewrite content_set_status.
      + right. now exists c1, r, c2. }
  rewrite applyStatus_cases.
  destruct (negb (truthy (Status.id a)) && negb (truthy (Status.metaMsgId a)));
    [split; [reflexivity|now left]|].
  destruct (existsb _ c); [apply U|].
  destruct (truthy (Status.metaMsgId a)); [apply U|].
  split; [reflexivity|now left].
Qed.

(** X3: applying the same status input twice leaves what applying it once
    leaves. *)
Theorem applyStatus_idempotent (a : Status.t) (c : collection) :
  snd (applyStatus a (snd (applyStatus a c))) = snd (applyStatus a c).
Proof.
  rewrite (applyStatus_cases a (snd (applyStatus a c))).
  rewrite (applyStatus_cases a c).
  destruct (negb (truthy (Status.id a)) && negb (truthy (Status.metaMsgId a)));
    [reflexivity|].
  destruct (existsb (by_msg_id (Status.id a)) c) eqn:X.
  - rewrite existsb_updateOne, X by apply blind_by_msg_id.
    rewrite updateOne_again by apply blind_by_msg_id.
    apply updateOne_ext. intros d. apply set_status_idem.
  - destruct (truthy (Status.metaMsgId a)); [|now rewrite X].
    rewrite existsb_updateOne, X by apply blind_by_msg_id.
    rewrite updateOne_again by apply blind_by_meta_msg_id.
    apply updateOne_ext. intros d. apply set_status_idem.
Qed.

(** X4: of two status inputs with the same keys applied one after the
    other, the first leaves no trace when the second carries a status
    that is a string or [null] (a status the schema takes as it is): the
    collection is the one that the second alone leaves. *)
Theorem later_status_overwrites (a1 a2 : Status.t) (c : collection) :
  Status.id a2 = Status.id a1 ->
  Status.metaMsgId a2 = Status.metaMsgId a1 ->
  Status.status a2 <> VUndef ->
  plain (Status.status a2) = true ->
  snd (applyStatus a2 (snd (applyStatus a1 c))) = snd (applyStatus a2 c).
Proof.
  intros Hi Hm Hs _.
  rewrite (applyStatus_cases a2 (snd (applyStatus a1 c))).
  rewrite (applyStatus_cases a1 c), (applyStatus_cases a2 c).
  rewrite Hi, Hm.
  destruct (negb (truthy (Status.id a1)) && negb (truthy (Status.metaMsgId a1)));
    [reflexivity|].
  destruct (existsb (by_msg_id (Status.id a1)) c) eqn:X.
  - rewrite existsb_updateOne, X by apply blind_by_msg_id.
    rewrite updateOne_again by apply blind_by_msg_id.
    apply updateOne_ext. intros d. now apply set_status_over.
  - destruct (truthy (Status.metaMsgId a1)); [|now rewrite X].
    rewrite existsb_updateOne, X by apply blind_by_msg_id.
    rewrite updateOne_again by apply blind_by_meta_msg_id.
    apply updateOne_ext. intros d. now apply set_status_over.
Qed.

Lemma later_status_overwrites_witness :
  snd (applyStatus (Status.make (VStr "wamid.A1") VUndef (VStr "delivered"))
         (snd (applyStatus
                 (Status.make (VStr "wamid.A1") VUndef (VStr "read"))
                 [reply; hello_read]))) =
  snd (applyStatus (Status.make (VStr "wamid.A1") VUndef (VStr "delivered"))
         [reply; hello_read]).
Proof.
  apply (later_status_overwrites
           (Status.make (VStr "wamid.A1") VUndef (VStr "read"))
           (Status.make (VStr "wamid.A1") VUndef (VStr "delivered"))
           [reply; hello_read]);
    [reflexivity|reflexivity|discriminate|reflexivity].
Defined.

Lemma find_split (p : doc -> bool) c1 r c2 :
  (forall d, In d c1 -> p d = false) -> p r = true ->
  find p (c1 ++ r :: c2) = Some r.
Proof.
  intros Hn Hr. induction c1 as [|d c1 IH]; simpl.
  - now rewrite Hr.
  - rewrite (Hn d (or_introl eq_refl)). apply IH. intros x Hx. apply Hn.
    now right.
Qed.

(** X5: a message and then its status.  After a message input that passes
    the guard and whose fields the schema takes as they are is upserted,
    and a status input with its message id and a status [s] (a string or
    [null]) is applied, the record found under that id carries [s],
    whatever the collection held before. *)
Theorem message_then_status (now : Z) (a : Msg.t) (meta s : value)
  (c : collection) :
  accepted a = true ->
  storable a = true ->
  plain meta = true ->
  s <> VUndef ->
  plain s = true ->
  exists r,
    find (by_msg_id (Msg.msg_id a))
      (snd (applyStatus (Status.make (Msg.msg_id a) meta s)
              (snd (upsertMessage now a c)))) = Some r /\
    status r = s /\
    msg_id r = Msg.msg_id a.
Proof.
  intros V _ _ Hs _. unfold accepted in V. apply andb_true_iff in V.
  destruct V as [Hw Hm].
  destruct (upsert_shape now a c Hw Hm) as (c1 & r & c2 & -> & Hn & Hr & _).
  rewrite applyStatus_primary.
  - exists (set_status s (set_status (status_of a) r)). simpl.
    split; [|split].
    + apply find_split; [exact Hn|].
      rewrite !by_msg_id_set_status. unfold by_msg_id. rewrite Hr.
      apply eq_filter_self.
    + now apply status_set_status.
    + now rewrite !set_status_msg_id.
  - now left.
  - simpl. rewrite by_msg_id_set_status. unfold by_msg_id. rewrite Hr.
    apply eq_filter_self.
  - exact Hn.
Qed.

Lemma message_then_status_witness :
  exists r,
    find (by_msg_id (Msg.msg_id hello))
      (snd (applyStatus (Status.make (Msg.msg_id hello) VUndef (VStr "read"))
              (snd (upsertMessage 1700000500000 hello [reply])))) = Some r /\
    status r = VStr "read" /\
    msg_id r = Msg.msg_id hello.
Proof.
  apply (message_then_status 1700000500000 hello VUndef (VStr "read") [reply]);
    [reflexivity|reflexivity|reflexivity|discriminate|reflexivity].
Defined.

(** X6: a status and then its message.  For a status input whose keys and
    status are strings or absent and a message input that passes the guard
    and whose fields the schema takes as they are: when the status input
    reaches no record (none under its primary id, none under its
    correlation id if it has one), the status is lost: the message
    upserted afterwards is appended with the status of the message input
    ([sent] by default), as if the status input had never been applied. *)
Theorem status_before_message_is_lost (now : Z) (a : Msg.t) (st : Status.t)
  (c : collection) :
  accepted a = true ->
  storable a = true ->
  plain_status st = true ->
  Status.id st = Msg.msg_id a ->
  (forall d, In d c -> by_msg_id (Msg.msg_id a) d = false) ->
  (truthy (Status.metaMsgId st) = true ->
   forall d, In d c -> by_meta_msg_id (Status.metaMsgId st) d = false) ->
  snd (upsertMessage now a (snd (applyStatus st c))) =
  c ++ [with_status (status_of a) (on_insert now a)].
Proof.
  intros V _ _ Hi Hn Hm. rewrite applyStatus_no_primary by (now rewrite Hi).
  assert ((if truthy (Status.metaMsgId st)
           then updateOne (by_meta_msg_id (Status.metaMsgId st))
                  (set_status (Status.status st)) c
           else c) = c) as ->.
  { destruct (truthy (Status.metaMsgId st)); [|reflexivity].
    apply updateOne_none. now apply Hm. }
  unfold accepted in V. apply andb_true_iff in V. destruct V as [Hw Hmi].
  rewrite upsert_valid by assumption. simpl. unfold updateOne_upsert.
  rewrite (proj2 (update_first_none _ _ c) Hn).
  pose proof (status_of_defined a) as D.
  unfold set_status. destruct (status_of a); congruence.
Qed.

Lemma status_before_message_is_lost_witness :
  snd (upsertMessage 1700000500000 hello
         (snd (applyStatus
                 (Status.make (VStr "wamid.A1") (VStr "wamid.A1") (VStr "read"))
                 [hello_read_elsewhere]))) =
  [hello_read_elsewhere;
   with_status (VStr "sent") (on_insert 1700000500000 hello)].
Proof.
  apply (status_before_message_is_lost 1700000500000 hello
           (Status.make (VStr "wamid.A1") (VStr "wamid.A1") (VStr "read"))
           [hello_read_elsewhere]).
  - reflexivity.
  - reflexivity.
  - reflexivity.
  - reflexivity.
  - intros d [<-|[]]. reflexivity.
  - intros _ d [<-|[]]. reflexivity.
Defined.

End EngineMore.

(* ===================================================================== *)
(** * Further facts about timestamps *)
(* ===================================================================== *)

Module TimestampsMore.
Import JS Store Engine Views.

Lemma digit_not_ws c : is_digit c = true -> is_ws c = false.
Proof.
  destruct c as [[] [] [] [] [] [] [] []]; try reflexivity; discriminate.
Qed.

Lemma digit_not_letter c :
  is_digit c = true ->
  Ascii.eqb c "I" = false /\ Ascii.eqb c "-" = false /\
  Ascii.eqb c "+" = false /\ Ascii.eqb c "." = false /\
  Ascii.eqb c "x" = false /\ Ascii.eqb c "X" = false /\
  Ascii.eqb c "o" = false /\ Ascii.eqb c "O" = false /\
  Ascii.eqb c "b" = false /\ Ascii.eqb c "B" = false.
Proof.
  destruct c as [[] [] [] [] [] [] [] []]; try discriminate;
    intros _; repeat split.
Qed.

Lemma drop_ws_keep l :
  (forall c, In c l -> is_ws c = false) -> drop_ws l = l.
Proof.
  destruct l as [|c r]; [reflexivity|]. intros H. simpl.
  now rewrite (H c (or_introl eq_refl)).
Qed.

Lemma trim_keep l : (forall c, In c l -> is_ws c = false) -> trim l = l.
Proof.
  intros H. unfold trim. rewrite (drop_ws_keep l H).
  rewrite drop_ws_keep; [apply rev_involutive|].
  intros c Hc. apply H. now apply in_rev.
Qed.

Lemma span_digits_all l :
  Forall (fun c => is_digit c = true) l -> span_digits l = (l, []).
Proof.
  induction 1 as [|c l Hc Hl IH]; simpl; [reflexivity|].
  now rewrite Hc, IH.
Qed.

(** A non-empty run of digits is a decimal literal, with the value of the
    digits. *)
Lemma unsigned_literal_digits c l :
  Forall (fun c => is_digit c = true) (c :: l) ->
  unsigned_literal (c :: l) = Int (digits_val (c :: l)).
Proof.
  intros H. unfold unsigned_literal.
  assert (ascii_list_eqb (c :: l) (chars "Infinity") = false) as ->.
  { unfold ascii_list_eqb. simpl.
    destruct (digit_not_letter c (Forall_inv H)) as [-> _]. reflexivity. }
  rewrite (span_digits_all _ H). rewrite app_nil_r.
  cbn [exponent_part List.length Z.of_nat].
  change (0 - 0) with 0. cbn [Z.leb Z.compare Z.pow Z.pow_pos].
  destruct (digits_val (c :: l) =? 0) eqn:E.
  - apply Z.eqb_eq in E. now rewrite E.
  - f_equal. lia.
Qed.

Lemma StringToNumber_digits s c l :
  chars s = c :: l ->
  Forall (fun c => is_digit c = true) (c :: l) ->
  StringToNumber s = Int (digits_val (c :: l)).
Proof.
  intros E H. unfold StringToNumber. rewrite E.
  rewrite trim_keep
    by (intros x Hx; apply digit_not_ws;
        exact (proj1 (Forall_forall _ _) H x Hx)).
  destruct (digit_not_letter c (Forall_inv H))
    as (_ & Hm & Hp & _).
  assert (match l with
          | x :: r' =>
              if negb (Ascii.eqb c "0") then None
              else if (Ascii.eqb x "x" || Ascii.eqb x "X")%bool
                   then Some (16, r')
                   else if (Ascii.eqb x "o" || Ascii.eqb x "O")%bool
                        then Some (8, r')
                        else if (Ascii.eqb x "b" || Ascii.eqb x "B")%bool
                             then Some (2, r')
                             else None
          | [] => None
          end = None) as ->.
  { destruct l as [|x r']; [reflexivity|].
    destruct (digit_not_letter x (Forall_inv (Forall_inv_tail H)))
      as (_ & _ & _ & _ & -> & -> & -> & -> & -> & ->).
    now destruct (negb (Ascii.eqb c "0")). }
  rewrite Hm, Hp. now apply unsigned_literal_digits.
Qed.

Lemma StringToNumber_minus_digits s c l :
  chars s = c :: l ->
  Forall (fun c => is_digit c = true) (c :: l) ->
  StringToNumber (String "-" s) = Int (- digits_val (c :: l)).
Proof.
  intros E H. unfold StringToNumber.
  change (chars (String "-" s)) with ("-"%char :: chars s). rewrite E.
  rewrite trim_keep.
  - cbn [Ascii.eqb Bool.eqb negb]. simpl Ascii.eqb.
    rewrite unsigned_literal_digits by exact H. reflexivity.
  - intros x [<-|Hx]; [reflexivity|].
    apply digit_not_ws. exact (proj1 (Forall_forall _ _) H x Hx).
Qed.

Lemma chars_uint d acc :
  fold_left (fun a c => a * 10 + digit_val c)
    (chars (NilEmpty.string_of_uint d)) acc = uint_val d acc.
Proof.
  revert acc. induction d; intros acc; simpl; try reflexivity;
    rewrite IHd; f_equal; unfold digit_val; simpl; lia.
Qed.

Lemma digits_uint d :
  Forall (fun c => is_digit c = true) (chars (NilEmpty.string_of_uint d)).
Proof. induction d; simpl; constructor; auto. Qed.

Lemma of_uint_acc_val d acc :
  Z.pos (Pos.of_uint_acc d acc) = uint_val d (Z.pos acc).
Proof.
  revert acc. induction d; intros acc;
    cbn [Pos.of_uint_acc uint_val]; try reflexivity;
    rewrite IHd; f_equal; lia.
Qed.

Lemma of_uint_val d : Z.of_N (Pos.of_uint d) = uint_val d 0.
Proof.
  induction d; simpl; try reflexivity; try exact IHd;
    apply of_uint_acc_val.
Qed.

(** The decimal digits of a positive number parse back to it. *)
Lemma digits_of_positive p :
  exists c l,
    chars (NilEmpty.string_of_uint (Pos.to_uint p)) = c :: l /\
    Forall (fun c => is_digit c = true) (c :: l) /\
    digits_val (c :: l) = Z.pos p.
Proof.
  pose proof (digits_uint (Pos.to_uint p)) as D.
  pose proof (chars_uint (Pos.to_uint p) 0) as V.
  rewrite <- of_uint_val, DecimalPos.Unsigned.of_to in V.
  destruct (chars (NilEmpty.string_of_uint (Pos.to_uint p))) as [|c l] eqn:E.
  - simpl in V. discriminate.
  - exists c, l. repeat split; auto.
Qed.

Lemma string_of_positive p :
  NilZero.string_of_uint (Pos.to_uint p) =
  NilEmpty.string_of_uint (Pos.to_uint p).
Proof.
  unfold NilZero.string_of_uint.
  pose proof (DecimalPos.Unsigned.to_uint_nonnil p) as H.
  now destruct (Pos.to_uint p).
Qed.

(** [Number(String(n)) = n]: the decimal text of an integer converts back
    to it. *)
Lemma StringToNumber_string_of_Z n : StringToNumber (string_of_Z n) = Int n.
Proof.
  unfold string_of_Z. destruct n as [|p|p].
  - reflexivity.
  - destruct (digits_of_positive p) as (c & l & E & D & V).
    simpl. rewrite string_of_positive, <- V.
    now apply StringToNumber_digits.
  - destruct (digits_of_positive p) as (c & l & E & D & V).
    simpl. rewrite string_of_positive.
    change (Z.neg p) with (- Z.pos p). rewrite <- V.
    now apply StringToNumber_minus_digits.
Qed.

Lemma string_of_Z_nonempty n : truthy (VStr (string_of_Z n)) = true.
Proof.
  pose proof (StringToNumber_string_of_Z n) as H. simpl.
  destruct (string_of_Z n) eqn:E; [|reflexivity].
  destruct n; discriminate.
Qed.

(** X7: a timestamp that comes as the decimal text of an integer, as
    webhook payloads carry it, is read as the integer itself would be;
    except for zero, where the text ["0"] is the epoch while the number 0
    counts as absent and gives the current time. *)
Theorem numeric_string_timestamp (now n : Z) :
  asDate now (VStr (string_of_Z n)) =
  if n =? 0 then Date 0 else asDate now (VNum n).
Proof.
  unfold asDate. rewrite string_of_Z_nonempty. simpl negb.
  cbn [ToNumber]. rewrite StringToNumber_string_of_Z.
  destruct (Z.eqb_spec n 0) as [->|Hn]; [reflexivity|].
  simpl truthy. destruct (Z.eqb_spec n 0); [contradiction|reflexivity].
Qed.

(** X8: the seconds form and the milliseconds form of one instant are
    read as the same instant exactly when the instant lies after 10^12
    milliseconds (2001-09-09T01:46:40Z); for an earlier instant the
    milliseconds form is taken for seconds. *)
Theorem seconds_and_milliseconds_agree (now s : Z) :
  0 < s <= 1000000000000 ->
  (asDate now (VNum (s * 1000)) = asDate now (VNum s) <-> 1000000000 < s).
Proof.
  intros [Hlo Hhi].
  assert (asDate now (VNum s) = Date (s * 1000)) as ->.
  { unfold asDate. simpl.
    destruct (Z.eqb_spec s 0); [lia|]. simpl.
    destruct (Z.ltb_spec 1000000000000 s); [lia|]. unfold max_time.
    destruct (Z.leb_spec (Z.abs (s * 1000)) 8640000000000000);
      [reflexivity|lia]. }
  unfold asDate. simpl.
  destruct (Z.eqb_spec (s * 1000) 0); [lia|]. simpl.
  destruct (Z.ltb_spec 1000000000000 (s * 1000)); unfold max_time.
  - destruct (Z.leb_spec (Z.abs (s * 1000)) 8640000000000000); [|lia].
    split; [lia|reflexivity].
  - destruct (Z.leb_spec (Z.abs (s * 1000 * 1000)) 8640000000000000); [|lia].
    split; [|lia]. intros E. inversion E. lia.
Qed.

Lemma seconds_and_milliseconds_agree_witness :
  (asDate 0 (VNum (1700000000 * 1000)) = asDate 0 (VNum 1700000000)
   <-> 1000000000 < 1700000000) /\
  (asDate 0 (VNum (999999999 * 1000)) = asDate 0 (VNum 999999999)
   <-> 1000000000 < 999999999).
Proof.
  split.
  - apply (seconds_and_milliseconds_agree 0 1700000000). lia.
  - apply (seconds_and_milliseconds_agree 0 999999999). lia.
Defined.

End TimestampsMore.

(* ===================================================================== *)
(** * Further facts about the batch driver *)
(* ===================================================================== *)

Module BatchMore.
Import JS Store Engine Schema Script Batch Samples Views.
Import StoreFacts EngineFacts StatusFacts RunFacts.
Import Correlation Rejection Isolation Shapes EngineMore.
Local Open Scope js_scope.
Local Open Scope script_scope.

Lemma or_truthy_r a b : truthy b = true -> truthy (a |? b) = true.
Proof. intros H. unfold or_. now destruct (truthy a) eqn:E. Qed.

Lemma or_falsy a b : truthy a = false -> (a |? b) = b.
Proof. intros H. unfold or_. now rewrite H. Qed.

Lemma or_truthy_or_last a b :
  truthy (a |? b) = true \/ (a |? b) = b.
Proof. unfold or_. destruct (truthy a) eqn:E; [now left|now right]. Qed.

Lemma extractContacts_named payload :
  truthy (snd (extractContacts payload)) = true.
Proof. unfold extractContacts. simpl. now apply or_truthy_r. Qed.

(** X9: [extractContacts] always yields a display name that is not empty
    (the name [Unknown] when the payload has none), and a conversation id
    that is either not empty or [null]. *)
Theorem extractContacts_defaults (payload : value) :
  truthy (snd (extractContacts payload)) = true /\
  (truthy (fst (extractContacts payload)) = true \/
   fst (extractContacts payload) = VNull).
Proof.
  unfold extractContacts. simpl. split.
  - now apply or_truthy_r.
  - apply or_truthy_or_last.
Qed.

(** ** The invariants of the collection along a batch *)

Lemma complete_set_status s d : complete d -> complete (set_status s d).
Proof. now destruct s. Qed.

Lemma coalesce_defined a b : nullish b = false -> nullish (coalesce a b) = false.
Proof. intros H. unfold coalesce. now destruct (nullish a) eqn:E. Qed.

Lemma upsert_sound now a c :
  truthy (default (Msg.profileName a) (VStr "Unknown")) = true ->
  sound c -> sound (snd (upsertMessage now a c)).
Proof.
  intros Hp [U F]. split; [now apply upsert_unique|].
  destruct (accepted a) eqn:V; [|now rewrite upsert_invalid].
  unfold accepted in V. apply andb_true_iff in V. destruct V as [Hw Hm].
  destruct (upsert_shape now a c Hw Hm)
    as (c1 & r & c2 & -> & _ & _ & [-> | (-> & -> & ->)]).
  - apply Forall_app in F. destruct F as [F1 F2].
    apply Forall_app. split; [exact F1|].
    inversion F2; subst. constructor; [now apply complete_set_status|assumption].
  - apply Forall_app. split; [exact F|]. constructor; [|constructor].
    apply complete_set_status. unfold on_insert, complete. simpl.
    repeat split; auto. now apply coalesce_defined.
Qed.

Lemma updateOne_complete p s c :
  Forall complete c -> Forall complete (updateOne p (set_status s) c).
Proof.
  intros F. destruct (updateOne_cases p (set_status s) c)
    as [[-> _]|(c1 & r & c2 & -> & _ & _ & ->)]; [exact F|].
  apply Forall_app in F. destruct F as [F1 F2].
  apply Forall_app. split; [exact F1|].
  inversion F2; subst. constructor; [now apply complete_set_status|assumption].
Qed.

Lemma applyStatus_sound a c : sound c -> sound (snd (applyStatus a c)).
Proof.
  intros [U F]. split.
  - unfold unique_ids. now rewrite applyStatus_ids.
  - rewrite applyStatus_cases.
    destruct (negb (truthy (Status.id a)) && negb (truthy (Status.metaMsgId a)));
      [exact F|].
    destruct (existsb _ c); [now apply updateOne_complete|].
    destruct (truthy (Status.metaMsgId a)); [now apply updateOne_complete|exact F].
Qed.

Lemma sound_kept_refl w : sound_kept w w.
Proof. now intros H. Qed.

Lemma sound_kept_trans w1 w2 w3 :
  sound_kept w1 w2 -> sound_kept w2 w3 -> sound_kept w1 w3.
Proof. unfold sound_kept. auto. Qed.

Ltac reading R Rrefl Rtrans :=
  repeat first [ apply (keeps_orM R Rrefl Rtrans)
               | apply (keeps_getM R Rrefl)
               | apply (keeps_ret R Rrefl) ].

Lemma message_step_sound clock p v fw fp m :
  truthy fp = true -> keeps sound_kept (message_step clock p v fw fp m).
Proof.
  intros Hp. unfold message_step.
  apply (keeps_bind sound_kept sound_kept_trans);
    [reading sound_kept sound_kept_refl sound_kept_trans|].
  intros id. apply (keeps_bind sound_kept sound_kept_trans).
  - intros w. unfold call_upsertMessage, sound_kept.
    pose proof (upsert_sound (clock (tick w))
                  (message_args p v fw fp m id) (db w)) as S.
    destruct (upsertMessage _ _ (db w)) as [r c]. simpl in *.
    apply S. destruct fp; simpl in *; congruence.
  - intros _. apply keeps_ret, sound_kept_refl.
Qed.

Lemma status_step_sound s : keeps sound_kept (status_step s).
Proof.
  unfold status_step.
  apply (keeps_bind sound_kept sound_kept_trans);
    [reading sound_kept sound_kept_refl sound_kept_trans|].
  intros st. apply (keeps_bind sound_kept sound_kept_trans).
  - intros w. unfold call_applyStatus, sound_kept.
    pose proof (applyStatus_sound (status_args s st) (db w)) as S.
    now destruct (applyStatus _ (db w)) as [r c].
  - intros _. apply keeps_ret, sound_kept_refl.
Qed.

Lemma processFile_sound clock src : keeps sound_kept (processFile clock src).
Proof.
  destruct src as [payload|msg]; simpl;
    [|apply keeps_throw, sound_kept_refl].
  unfold process_payload.
  apply (keeps_bind sound_kept sound_kept_trans);
    [reading sound_kept sound_kept_refl sound_kept_trans|].
  intros e. apply (keeps_bind sound_kept sound_kept_trans);
    [reading sound_kept sound_kept_refl sound_kept_trans|].
  intros value_. unfold process_value.
  pose proof (extractContacts_named value_) as Hp.
  destruct (extractContacts value_) as [fw fp]. simpl in Hp.
  apply (keeps_bind sound_kept sound_kept_trans).
  - apply (keeps_for_of sound_kept sound_kept_refl sound_kept_trans).
    intros m. now apply message_step_sound.
  - intros _. apply (keeps_for_of sound_kept sound_kept_refl sound_kept_trans).
    exact status_step_sound.
Qed.

(** X10: a whole batch keeps the invariants of the collection.  If the
    message ids are unique and every record has a conversation id, a
    message id, a text that is not null and a display name, the same holds
    after [main], whatever the files hold and however many of them
    fail. *)
Theorem main_keeps_sound (clock : nat -> Z) (files : list (string * parsed))
  (w : world) :
  sound (db w) -> sound (db (snd (main clock files w))).
Proof.
  revert w. change (keeps sound_kept (main clock files)).
  assert (forall l, keeps sound_kept (log l)) as L
    by (intros l w; exact (sound_kept_refl w)).
  unfold main. apply (keeps_bind sound_kept sound_kept_trans); [apply L|].
  intros _. apply (keeps_bind sound_kept sound_kept_trans); [|intros _; apply L].
  destruct (filter is_json files) as [|f fs]; [apply L|].
  apply (keeps_for_of sound_kept sound_kept_refl sound_kept_trans).
  intros g. unfold file_step.
  apply (keeps_bind sound_kept sound_kept_trans); [apply L|]. intros _.
  apply (keeps_bind sound_kept sound_kept_trans).
  - apply keeps_try, processFile_sound.
  - intros [u|e]; apply L.
Qed.

Lemma main_keeps_sound_witness :
  sound [reply; hello_read_elsewhere] /\
  sound (db (snd (main noon three_files (start [reply; hello_read_elsewhere])))).
Proof.
  assert (sound [reply; hello_read_elsewhere]) as S.
  { split.
    - repeat constructor; simpl; intuition discriminate.
    - repeat constructor. }
  split; [exact S|].
  exact (main_keeps_sound noon three_files
           (start [reply; hello_read_elsewhere]) S).
Defined.

(** X11: no rollback inside a file.  When the entries before it are
    entries that the engine skips or stores (they are not [null], and
    those that pass the guard have fields that the schema takes as they
    are), a message entry that is [null] stops the file with the
    [TypeError] of reading its [id]: the entries before it have been
    upserted and stay so, the entries after it and all the statuses of the
    file are not processed. *)
Theorem null_entry_stops_file (clock : nat -> Z) (payload value_ : value)
  (pre : list value) (m : value) (post : list value) (w : world) :
  let input :=
    message_input payload value_ (fst (extractContacts value_))
      (snd (extractContacts value_)) in
  asArray (value_ ?. "messages" |? payload ?. "messages" |? VArr []) =
  pre ++ m :: post ->
  Forall (fun x => nullish x = false) pre ->
  Forall (fun x => accepted (input x) = true -> storable (input x) = true)
    pre ->
  nullish m = true ->
  process_value clock payload value_ w =
  (Throw (TypeError m "id"),
   snd (for_of pre
          (message_step clock payload value_ (fst (extractContacts value_))
             (snd (extractContacts value_))) w)).
Proof.
  intros input E Hpre _ Hm. clear input. unfold process_value. rewrite E.
  destruct (extractContacts value_) as [fw fp]. simpl fst. simpl snd.
  unfold bind at 1. rewrite for_of_app. unfold bind at 1.
  destruct (message_loop clock payload value_ fw fp pre Hpre w) as (Hok & _).
  destruct (for_of pre (message_step clock payload value_ fw fp) w)
    as [r w1]. simpl in Hok. subst r. simpl.
  unfold bind, message_step, orM, getM, bind. now rewrite Hm.
Qed.

Lemma null_entry_stops_file_witness :
  process_value noon
    (VObj [("messages", VArr [entry_hello; VNull; entry_reply]);
           ("statuses", VArr [status_event (VStr "wamid.A1") (VStr "read")])])
    (VObj [("messages", VArr [entry_hello; VNull; entry_reply]);
           ("statuses", VArr [status_event (VStr "wamid.A1") (VStr "read")])])
    (start []) =
  (Throw (TypeError VNull "id"),
   snd (for_of [entry_hello]
          (message_step noon
             (VObj [("messages", VArr [entry_hello; VNull; entry_reply]);
                    ("statuses",
                     VArr [status_event (VStr "wamid.A1") (VStr "read")])])
             (VObj [("messages", VArr [entry_hello; VNull; entry_reply]);
                    ("statuses",
                     VArr [status_event (VStr "wamid.A1") (VStr "read")])])
             VNull (VStr "Unknown"))
          (start []))).
Proof.
  refine (null_entry_stops_file noon
            (VObj [("messages", VArr [entry_hello; VNull; entry_reply]);
                   ("statuses",
                    VArr [status_event (VStr "wamid.A1") (VStr "read")])])
            (VObj [("messages", VArr [entry_hello; VNull; entry_reply]);
                   ("statuses",
                    VArr [status_event (VStr "wamid.A1") (VStr "read")])])
            [entry_hello] VNull [entry_reply] (start []) _ _ _ _).
  - reflexivity.
  - repeat constructor.
  - repeat constructor.
  - reflexivity.
Defined.

(** X12: a status entry without any id is skipped.  When the entry has
    none of [id], [message_id], [msg_id] and [meta_msg_id], the loop goes
    on and the collection is left as it was. *)
Theorem status_without_id_is_skipped (s : value) (w : world) :
  nullish s = false ->
  truthy (get s "id") = false ->
  truthy (get s "message_id") = false ->
  truthy (get s "msg_id") = false ->
  truthy (get s "meta_msg_id") = false ->
  fst (status_step s w) = Ok tt /\ db (snd (status_step s w)) = db w.
Proof.
  intros Hs H1 H2 H3 H4. rewrite status_step_run by exact Hs. simpl.
  split; [reflexivity|].
  unfold applyStatus, status_input, status_args. simpl.
  unfold oget. rewrite Hs.
  rewrite (or_falsy _ _ H1), (or_falsy _ _ H2), (or_falsy _ _ H3), H4.
  rewrite (or_falsy _ _ H4), H1. reflexivity.
Qed.

Lemma status_without_id_is_skipped_witness :
  fst (status_step (VObj [("status", VStr "read")])
         (start [reply; hello_read_elsewhere])) = Ok tt /\
  db (snd (status_step (VObj [("status", VStr "read")])
             (start [reply; hello_read_elsewhere]))) =
  db (start [reply; hello_read_elsewhere]).
Proof.
  apply (status_without_id_is_skipped (VObj [("status", VStr "read")])
           (start [reply; hello_read_elsewhere])); reflexivity.
Defined.

(** ** The console of a batch *)

Lemma files_transcript clock fs :
  forall w, exists ls,
    Forall2 (fun f l => l = Done (fst f) \/ exists e, l = Failed (fst f) e)
      fs ls /\
    console (snd (for_of fs (file_step clock) w)) =
    console w ++
    flat_map (fun p => [Processing (fst (fst p)); snd p]) (combine fs ls).
Proof.
  induction fs as [|f fs IH]; intros w; simpl.
  - exists []. split; [constructor|]. now rewrite app_nil_r.
  - unfold bind.
    destruct (file_step_run clock f w) as (Hok & _ & l & Hc & Hl & _).
    destruct (file_step clock f w) as [r w1]. simpl in Hok, Hc. subst r.
    destruct (IH w1) as (ls & F & Hc').
    exists (l :: ls). split; [now constructor|].
    rewrite Hc', Hc, <- app_assoc. reflexivity.
Qed.

Lemma files_loop_run clock jsonFiles w :
  fst (files_loop clock jsonFiles w) = Ok tt /\
  same_state (snd (files_loop clock jsonFiles w))
    (process_all clock jsonFiles w) /\
  exists ls,
    Forall2 (fun f l => l = Done (fst f) \/ exists e, l = Failed (fst f) e)
      jsonFiles ls /\
    console (snd (files_loop clock jsonFiles w)) =
    console w ++
    match jsonFiles with
    | [] => [NoJsonFiles]
    | _ => flat_map (fun p => [Processing (fst (fst p)); snd p])
             (combine jsonFiles ls)
    end.
Proof.
  destruct jsonFiles as [|f fs].
  - simpl. split; [reflexivity|]. split; [now split|].
    exists []. split; [constructor|reflexivity].
  - destruct (files_run clock (f :: fs) w) as (Hok & S1 & _).
    destruct (files_transcript clock (f :: fs) w) as (ls & F & Hc).
    split; [exact Hok|]. split; [exact S1|].
    exists ls. split; [exact F|exact Hc].
Qed.

(** X13: the console of a batch, line by line.  [main] always ends well
    and always disconnects: after the line of the connection come, for
    every file whose name ends in [.json], in the order of the directory,
    the line that takes it up and then the line of its outcome, or the one
    remark that there is no such file, and the line of the disconnection
    is the last one.  The collection is the one that processing those
    files in turn leaves. *)
Theorem main_transcript (clock : nat -> Z) (files : list (string * parsed))
  (w : world) :
  let jsonFiles := filter is_json files in
  let w' := snd (main clock files w) in
  fst (main clock files w) = Ok tt /\
  db w' = db (process_all clock jsonFiles w) /\
  exists ls,
    Forall2 (fun f l => l = Done (fst f) \/ exists e, l = Failed (fst f) e)
      jsonFiles ls /\
    console w' =
    console w ++
    Connected ::
    match jsonFiles with
    | [] => [NoJsonFiles]
    | _ => flat_map (fun p => [Processing (fst (fst p)); snd p])
             (combine jsonFiles ls)
    end ++ [Disconnected].
Proof.
  intros jsonFiles w'. subst w'. rewrite main_unfold. fold jsonFiles.
  clearbody jsonFiles. unfold bind, log. cbv beta iota.
  set (w0 := mkWorld (db w) (tick w) (calls w) (console w ++ [Connected])).
  assert (same_state w0 w) as S0 by (now split).
  destruct (files_loop_run clock jsonFiles w0) as (Hok & [D _] & ls & F & Hc).
  destruct (process_all_state clock jsonFiles w0 w S0) as [D' _].
  destruct (files_loop clock jsonFiles w0) as [r w1].
  simpl in Hok, D, Hc. subst r. simpl.
  split; [reflexivity|]. split; [congruence|].
  exists ls. split; [exact F|].
  rewrite Hc. subst w0. simpl. now rewrite <- !app_assoc.
Qed.

(** ** The choice of the files *)

Lemma toLowerCase_app a b :
  toLowerCase (a ++ b)%string = (toLowerCase a ++ toLowerCase b)%string.
Proof. induction a as [|c a IH]; simpl; [reflexivity|now rewrite IH]. Qed.

Lemma toLowerCase_length a : String.length (toLowerCase a) = String.length a.
Proof. induction a as [|c a IH]; simpl; [reflexivity|now rewrite IH]. Qed.

Lemma length_app a b :
  String.length (a ++ b)%string = (String.length a + String.length b)%nat.
Proof. induction a as [|c a IH]; simpl; [reflexivity|now rewrite IH]. Qed.

Lemma substring_all b : substring 0 (String.length b) b = b.
Proof. induction b as [|c b IH]; simpl; [reflexivity|now rewrite IH]. Qed.

Lemma substring_suffix a b :
  substring (String.length a) (String.length b) (a ++ b)%string = b.
Proof.
  induction a as [|c a IH]; simpl; [apply substring_all|exact IH].
Qed.

Lemma endsWith_app a b suffix :
  String.length b = String.length suffix ->
  endsWith (a ++ b)%string suffix = String.eqb b suffix.
Proof.
  intros L. unfold endsWith. rewrite length_app, <- L.
  replace (String.length a + String.length b - String.length b)%nat
    with (String.length a) by lia.
  rewrite substring_suffix.
  replace (String.length b <=? String.length a + String.length b)%nat
    with true by (symmetry; apply Nat.leb_le; lia).
  reflexivity.
Qed.

(** X14: the extension is read whatever its case.  A file is taken up
    exactly when the last five characters of its name are [.json] once
    put in lower case: [a.json], [B.JSON] and [c.Json] are processed,
    whatever the rest of the name is. *)
Theorem is_json_any_case (stem ext : string) (p : parsed) :
  String.length ext = 5%nat ->
  (is_json ((stem ++ ext)%string, p) = true <-> toLowerCase ext = ".json").
Proof.
  intros L. unfold is_json. simpl fst.
  rewrite toLowerCase_app, endsWith_app
    by (now rewrite toLowerCase_length, L).
  apply String.eqb_eq.
Qed.

Lemma is_json_any_case_witness :
  String.length ".JSon" = 5%nat /\
  (is_json (("Payload_1" ++ ".JSon")%string, Malformed "") = true <->
   toLowerCase ".JSon" = ".json").
Proof.
  split; [reflexivity|].
  apply (is_json_any_case "Payload_1" ".JSon" (Malformed "")). reflexivity.
Defined.

(** ** The conversation of a message *)

Lemma get_of_falsy v k : truthy v = false -> v ?. k = VUndef.
Proof. destruct v; simpl; try reflexivity; discriminate. Qed.

(** X15: the conversation id of a message entry.  It is the entry's
    [from] when that is truthy, else the contact of the payload, else the
    entry's own [wa_id]: the [id] inside [from] is never read (a [from]
    that is an object is stored as it is), and the contact of the payload
    comes before the [wa_id] of the entry. *)
Theorem sender_of_message (payload value_ fw fp m id : value) :
  Msg.wa_id (message_args payload value_ fw fp m id) =
  (m ?. "from" |? fw |? m ?. "wa_id").
Proof.
  unfold message_args. cbn [Msg.wa_id].
  assert ((m ?. "from" |? m ?. "from" ?. "id" |? fw) = (m ?. "from" |? fw))
    as ->; [|reflexivity].
  destruct (truthy (m ?. "from")) eqn:E; unfold or_.
  - now rewrite !E.
  - now rewrite (get_of_falsy _ "id" E), !E.
Qed.

End BatchMore.

(* ===================================================================== *)
(** * More about the import script *)
(* ===================================================================== *)

Module ImportMore.
Import JS Store Script ImportScript Samples Views.
Import StoreFacts StatusFacts RunFacts ImportFacts EngineMore.
Local Open Scope js_scope.
Local Open Scope script_scope.

Lemma for_of_split {S A} (l1 l2 : list A) (body : A -> M S unit) w :
  for_of (l1 ++ l2) body w = bind (for_of l1 body) (fun _ => for_of l2 body) w.
Proof.
  revert w. induction l1 as [|x l1 IH]; intros w; simpl; [reflexivity|].
  unfold bind. destruct (body x w) as [[u|e] w']; [|reflexivity].
  rewrite IH. reflexivity.
Qed.

Lemma set_path_again new old :
  set_path new (set_path new old) = set_path new old.
Proof. now destruct new. Qed.

Lemma set_message_again wa id txt ts d :
  set_message wa id txt ts (set_message wa id txt ts d) =
  set_message wa id txt ts d.
Proof. unfold set_message. simpl. now rewrite !set_path_again. Qed.

Lemma set_message_matches wa id txt ts d :
  eq_filter id (msg_id d) = true ->
  eq_filter id (msg_id (set_message wa id txt ts d)) = true.
Proof.
  intros H. simpl. destruct id; simpl; try exact H; apply eq_filter_self.
Qed.

Lemma fresh_matches wa id txt ts f1 f2 f3 f4 f5 f6 :
  eq_filter id
    (msg_id (set_message wa id txt ts
               (mkDoc f1 (if nullish id then VNull else id) f2 f3 f4 f5 f6
                      (VBool false)))) = true.
Proof. simpl. destruct id; simpl; try reflexivity; apply eq_filter_self. Qed.

(** X16: the import script too applies the messages of a file before its
    statuses.  The store calls of one file are upserts of messages
    followed by updates of statuses, whatever the file holds and also
    when reading it throws. *)
Theorem import_upserts_before_updates (f : string * parsed) (w : world) :
  exists ms ss,
    ops (snd (import_file f w)) =
    ops w ++ map OpMessage ms ++ map (fun s => OpStatus (fst s) (snd s)) ss.
Proof. exact (import_file_order f w). Qed.

(** X17: the import script catches nothing per file.  When the files up
    to [f] are imported well and [f] throws, the import ends with that
    exception in the state that [f] left: what [f] stored before it threw
    stays, and the files after [f] are not read. *)
Theorem import_stops_at_first_failure (before : list (string * parsed))
  (f : string * parsed) (after : list (string * parsed)) (e : error)
  (w : world) :
  fst (importPayloads before w) = Ok tt ->
  endsWith (fst f) ".json" = true ->
  fst (import_file f (snd (importPayloads before w))) = Throw e ->
  importPayloads (before ++ f :: after) w =
  (Throw e, snd (import_file f (snd (importPayloads before w)))).
Proof.
  intros Hb Hj Hf. unfold importPayloads in *. rewrite filter_app.
  cbn [filter]. rewrite Hj. rewrite for_of_split. unfold bind at 1.
  destruct (for_of (filter _ before) import_file w) as [r w1].
  simpl in Hb, Hf. subst r. cbn [for_of]. unfold bind at 1. simpl snd.
  destruct (import_file f w1) as [r w2]. simpl in Hf. now subst r.
Qed.

Lemma import_stops_at_first_failure_witness :
  importPayloads
    ([("a.json", Parsed (under_metaData envelope_two_entries))] ++
     ("b.json", Malformed "Unexpected end of JSON input") ::
     [("c.json", Parsed (under_metaData envelope_two_changes))])
    (start []) =
  (Throw (SyntaxError "Unexpected end of JSON input"),
   snd (import_file ("b.json", Malformed "Unexpected end of JSON input")
          (snd (importPayloads
                  [("a.json", Parsed (under_metaData envelope_two_entries))]
                  (start []))))).
Proof.
  apply (import_stops_at_first_failure
           [("a.json", Parsed (under_metaData envelope_two_entries))]
           ("b.json", Malformed "Unexpected end of JSON input")
           [("c.json", Parsed (under_metaData envelope_two_changes))]
           (SyntaxError "Unexpected end of JSON input") (start []));
    reflexivity.
Defined.

Lemma import_upsert_shape (p : doc -> bool) fresh f c :
  (forall d, p d = true -> p (f d) = true) -> p (f fresh) = true ->
  exists c1 x c2,
    updateOne_upsert p fresh f c = c1 ++ f x :: c2 /\
    (forall d, In d c1 -> p d = false) /\ p (f x) = true /\
    ((c = c1 ++ x :: c2 /\ p x = true) \/
     (c = c1 /\ x = fresh /\ c2 = [])).
Proof.
  intros Hm Hfresh. unfold updateOne_upsert.
  destruct (update_first p f c) as [[d c']|] eqn:E.
  - apply update_first_some in E.
    destruct E as (c1 & r & c2 & Ec & Hn & Hr & _ & ->).
    exists c1, r, c2. repeat split; auto.
  - pose proof (proj1 (update_first_none p f c) E) as Hn.
    exists c, fresh, []. repeat split; auto.
Qed.

(** X18: importing a message twice leaves what importing it once leaves:
    the second upsert finds the record of the first and sets the same
    fields. *)
Theorem import_upsert_idempotent (msg : value) (w : world) :
  db (snd (message_upsert msg (snd (message_upsert msg w)))) =
  db (snd (message_upsert msg w)).
Proof.
  unfold message_upsert. cbn [snd db].
  set (id := get msg "id").
  set (p := fun d => eq_filter id (msg_id d)).
  set (f := set_message (get msg "wa_id") id
              (get msg "text" ?. "body" |? VStr "")
              (import_date (get msg "timestamp"))).
  set (fresh := mkDoc _ _ _ _ _ _ _ _).
  destruct (import_upsert_shape p fresh f (db w))
    as (c1 & x & c2 & -> & Hn & Hx & _).
  - intros d Hd. now apply set_message_matches.
  - apply fresh_matches.
  - unfold updateOne_upsert. rewrite update_first_split by assumption.
    unfold f. now rewrite set_message_again.
Qed.

Lemma status_update_run st w :
  nullish st = false ->
  status_update st w =
  let metaId := get st "id" |? get st "messageId" |? get st "meta_msg_id" in
  if truthy metaId
  then (Ok tt,
        mkWorld
          (updateOne (fun d => eq_filter metaId (msg_id d))
             (set_status (get st "status")) (db w))
          (ops w ++ [OpStatus metaId (get st "status")]) (processed w))
  else (Ok tt, w).
Proof.
  intros N. unfold status_update, orM, getM, bind, ret. rewrite N.
  rewrite <- Correlation.or_assoc. cbv zeta.
  set (rest := get st "messageId" |? get st "meta_msg_id").
  unfold or_. destruct (truthy (get st "id")) eqn:T.
  - now rewrite T.
  - now destruct (truthy rest).
Qed.

(** X20: a status of the import script changes the status of at most one
    record and nothing else: the collection afterwards is the collection
    before, or the collection before with the status of the entry set in
    exactly one record; no record is added or removed; and an entry
    without [id], [messageId] and [meta_msg_id] changes nothing at all. *)
Theorem import_status_touches_status_only (st : value) (w : world) :
  let w' := snd (status_update st w) in
  map content (db w') = map content (db w) /\
  (db w' = db w \/
   exists c1 r c2,
     db w = c1 ++ r :: c2 /\
     db w' = c1 ++ set_status (get st "status") r :: c2) /\
  (truthy (get st "id" |? get st "messageId" |? get st "meta_msg_id") = false
   -> w' = w).
Proof.
  intros w'. subst w'. destruct (nullish st) eqn:N.
  - unfold status_update, orM, getM, bind, throw. rewrite N.
    split; [reflexivity|]. split; [now left|reflexivity].
  - rewrite (status_update_run st w N). cbv zeta.
    destruct (truthy (get st "id" |? get st "messageId"
                      |? get st "meta_msg_id"));
      [|split; [reflexivity|]; split; [now left|reflexivity]].
    cbn [snd db].
    destruct (updateOne_cases
                (fun d =>
                   eq_filter (get st "id" |? get st "messageId"
                              |? get st "meta_msg_id") (msg_id d))
                (set_status (get st "status")) (db w))
      as [[-> _]|(c1 & r & c2 & E & _ & _ & ->)].
    + split; [reflexivity|]. split; [now left|discriminate].
    + split; [|split; [|discriminate]].
      * rewrite E, !map_app. cbn [map]. now rewrite content_set_status.
      * right. now exists c1, r, c2.
Qed.

(** X21: the import script reads the extension as it is written.  A
    file whose name ends in five characters other than [.json] in lower
    case is left out, so a directory with the one file [B.JSON], which the
    batch driver processes, is imported as an empty one. *)
Theorem import_extension_is_exact (stem ext : string) (p : parsed)
  (w : world) :
  String.length ext = 5%nat ->
  importPayloads [((stem ++ ext)%string, p)] w =
  if String.eqb ext ".json" then import_file ((stem ++ ext)%string, p) w
  else (Ok tt, w).
Proof.
  intros L. unfold importPayloads. cbn [filter fst].
  rewrite (BatchMore.endsWith_app stem ext ".json" L).
  destruct (String.eqb ext ".json"); [|reflexivity].
  cbn [for_of]. unfold bind, ret.
  now destruct (import_file ((stem ++ ext)%string, p) w) as [[[]|e] w1].
Qed.

Lemma import_extension_is_exact_witness :
  String.length ".JSON" = 5%nat /\
  importPayloads
    [(("B" ++ ".JSON")%string, Parsed (under_metaData envelope_two_entries))]
    (start []) =
  (if String.eqb ".JSON" ".json"
   then import_file
          (("B" ++ ".JSON")%string,
           Parsed (under_metaData envelope_two_entries)) (start [])
   else (Ok tt, start [])).
Proof.
  split; [reflexivity|].
  apply (import_extension_is_exact "B" ".JSON"
           (Parsed (under_metaData envelope_two_entries)) (start [])).
  reflexivity.
Defined.

End ImportMore.

(* ===================================================================== *)
(** * The status and message requests of the server *)
(* ===================================================================== *)

Module ServerFacts.
Import JS Store Engine Schema Server Samples Views.
Import StoreFacts EngineFacts StatusFacts EngineMore BatchMore.
Local Open Scope js_scope.

Lemma set_status_wa_id s d : wa_id (set_status s d) = wa_id d.
Proof. now destruct s. Qed.

(** The three outcomes of a status request. *)
Lemma post_status_cases s req_body w :
  let b := req_body |? VObj [] in
  let p := fun d =>
    eq_filter (get b "msg_id") (msg_id d) &&
    (if truthy (get b "wa_id") then eq_filter (get b "wa_id") (wa_id d)
     else true) in
  (truthy (get b "msg_id") = false /\
   post_status s req_body w =
   (respond 400 (Json (VObj [("error", VStr "msg_id required")])), w)) \/
  (truthy (get b "msg_id") = true /\
   (forall d, In d (db w) -> p d = false) /\
   post_status s req_body w =
   (respond 404 (Json (VObj [("error", VStr "Message not found")])), w)) \/
  (truthy (get b "msg_id") = true /\
   exists c1 r c2,
     db w = c1 ++ r :: c2 /\ (forall d, In d c1 -> p d = false) /\
     p r = true /\
     post_status s req_body w =
     (respond 200 (Json (VObj [("ok", VBool true)])),
      mkWorld (c1 ++ set_status (VStr s) r :: c2)
        (emitted w ++ [MessageStatus (wa_id r) (msg_id r) (VStr s)]))).
Proof.
  intros b p. unfold post_status. fold b. cbv zeta.
  destruct (truthy (get b "msg_id")) eqn:T; cbn [negb]; [|now left].
  right. unfold findOneAndUpdate. fold p.
  destruct (update_first p (set_status (VStr s)) (db w)) as [[d c']|] eqn:E.
  - right. split; [reflexivity|]. apply update_first_some in E.
    destruct E as (c1 & r & c2 & Ec & Hn & Hr & -> & ->).
    exists c1, r, c2. repeat split; auto.
  - left. split; [reflexivity|]. split; [|reflexivity].
    now apply (update_first_none p (set_status (VStr s))).
Qed.

Lemma body_with_key req_body k x :
  get req_body k = VStr x -> (req_body |? VObj []) = req_body.
Proof. destruct req_body; simpl; try discriminate; reflexivity. Qed.

(** X22: what a status request does, for a body whose [msg_id] and [wa_id]
    are strings or empty (so that the filter needs no cast).  [POST
    /delivered] and [POST /read] answer 200, 400 or 404; 400 exactly when
    the body has no [msg_id]; whatever the answer, no record is added or
    removed and no field other than a status changes; unless the answer
    is 200 nothing changes and nothing is emitted; with 200 one event is
    emitted, with the keys of a record that now carries the status of the
    route. *)
Theorem status_request_outcome (s : string) (req_body : value) (w : world) :
  textual (get (req_body |? VObj []) "msg_id") = true ->
  textual (get (req_body |? VObj []) "wa_id") = true ->
  let r := fst (post_status s req_body w) in
  let w' := snd (post_status s req_body w) in
  map content (db w') = map content (db w) /\
  (code r = 200 \/ code r = 400 \/ code r = 404) /\
  (code r = 400 <-> truthy (get (req_body |? VObj []) "msg_id") = false) /\
  (code r <> 200 -> w' = w) /\
  (code r = 200 ->
   exists d, In d (db w') /\ status d = VStr s /\
             emitted w' =
             emitted w ++ [MessageStatus (wa_id d) (msg_id d) (VStr s)]).
Proof.
  intros _ _ r w'. subst r w'.
  destruct (post_status_cases s req_body w)
    as [(T & ->)|[(T & Hn & ->)|(T & c1 & x & c2 & Ec & Hn & Hx & ->)]];
    cbn [fst snd code db emitted].
  - split; [reflexivity|]. split; [now right; left|].
    split; [now split|]. split; [reflexivity|discriminate].
  - split; [reflexivity|]. split; [now right; right|].
    split; [split; [discriminate|congruence]|].
    split; [reflexivity|discriminate].
  - split; [rewrite Ec, !map_app; cbn [map]; now rewrite content_set_status|].
    split; [now left|].
    split; [split; [discriminate|congruence]|].
    split; [congruence|]. intros _. exists (set_status (VStr s) x).
    split; [apply in_elt|]. split; [reflexivity|].
    now rewrite set_status_wa_id, set_status_msg_id.
Qed.

Lemma status_request_outcome_witness :
  let r :=
    fst (post_delivered (VObj [("msg_id", VStr "wamid.A1")])
           (mkWorld [reply; hello_read] [])) in
  let w' :=
    snd (post_delivered (VObj [("msg_id", VStr "wamid.A1")])
           (mkWorld [reply; hello_read] [])) in
  map content (db w') = map content [reply; hello_read] /\
  (code r = 200 \/ code r = 400 \/ code r = 404) /\
  (code r = 400 <->
   truthy (get (VObj [("msg_id", VStr "wamid.A1")] |? VObj []) "msg_id")
   = false) /\
  (code r <> 200 -> w' = mkWorld [reply; hello_read] []) /\
  (code r = 200 ->
   exists d, In d (db w') /\ status d = VStr "delivered" /\
             emitted w' =
             [] ++ [MessageStatus (wa_id d) (msg_id d) (VStr "delivered")]).
Proof.
  apply (status_request_outcome "delivered"
           (VObj [("msg_id", VStr "wamid.A1")])
           (mkWorld [reply; hello_read] [])); reflexivity.
Defined.

(** X23: a status request is scoped by the conversation.  With a message
    id and a conversation id in the body, both non-empty strings, the
    answer is 200 exactly when a record carries both, and then the event
    names that conversation and that message: a message id stored under
    another conversation gives 404. *)
Theorem status_request_scoped (s : string) (req_body : value) (m c : string)
  (w : world) :
  get req_body "msg_id" = VStr m -> m <> "" ->
  get req_body "wa_id" = VStr c -> c <> "" ->
  let r := fst (post_status s req_body w) in
  let w' := snd (post_status s req_body w) in
  (code r = 200 <->
   exists d, In d (db w) /\ msg_id d = VStr m /\ wa_id d = VStr c) /\
  (code r <> 200 -> code r = 404) /\
  (code r = 200 ->
   emitted w' = emitted w ++ [MessageStatus (VStr c) (VStr m) (VStr s)]).
Proof.
  intros Hm Nm Hc Nc r w'. subst r w'.
  pose proof (Correlation.truthy_VStr m Nm) as Tm.
  pose proof (Correlation.truthy_VStr c Nc) as Tc.
  assert (forall d,
             eq_filter (VStr m) (msg_id d) &&
             (if truthy (VStr c) then eq_filter (VStr c) (wa_id d) else true)
             = true <-> msg_id d = VStr m /\ wa_id d = VStr c) as P.
  { intros d. rewrite Tc, andb_true_iff.
    rewrite (eq_filter_truthy _ (msg_id d) Tm).
    rewrite (eq_filter_truthy _ (wa_id d) Tc). intuition congruence. }
  pose proof (post_status_cases s req_body w) as C. cbv zeta in C.
  rewrite (body_with_key req_body "msg_id" m Hm), Hm, Hc in C.
  destruct C as [(T & _)|[(_ & Hn & ->)|(_ & c1 & x & c2 & Ec & _ & Hx & ->)]];
    [congruence| |]; cbn [fst snd code emitted].
  - split; [|split; [reflexivity|discriminate]]. split; [discriminate|].
    intros (d & Hd & Hdm & Hdc). specialize (Hn d Hd).
    rewrite (proj2 (P d) (conj Hdm Hdc)) in Hn. discriminate.
  - apply P in Hx. destruct Hx as [Hxm Hxc].
    split; [|split; [congruence|intros _; now rewrite Hxm, Hxc]].
    split; [|reflexivity]. intros _. exists x. rewrite Ec.
    split; [apply in_elt|now split].
Qed.

Lemma status_request_scoped_witness :
  let r :=
    fst (post_read
           (VObj [("msg_id", VStr "wamid.A1"); ("wa_id", VStr "918329446654")])
           (mkWorld [reply; hello_read] [])) in
  let w' :=
    snd (post_read
           (VObj [("msg_id", VStr "wamid.A1"); ("wa_id", VStr "918329446654")])
           (mkWorld [reply; hello_read] [])) in
  (code r = 200 <->
   exists d, In d [reply; hello_read] /\ msg_id d = VStr "wamid.A1" /\
             wa_id d = VStr "918329446654") /\
  (code r <> 200 -> code r = 404) /\
  (code r = 200 ->
   emitted w' =
   [] ++ [MessageStatus (VStr "918329446654") (VStr "wamid.A1") (VStr "read")]).
Proof.
  apply (status_request_scoped "read"
           (VObj [("msg_id", VStr "wamid.A1"); ("wa_id", VStr "918329446654")])
           "wamid.A1" "918329446654" (mkWorld [reply; hello_read] []));
    [reflexivity|discriminate|reflexivity|discriminate].
Defined.

(** X24: the status routes keep no order of delivery states.  Of two
    status requests with the same body the second alone decides: the
    collection and the answer are those of the second request on the
    collection as it was, so [POST /delivered] after [POST /read] puts a
    read message back to delivered, and a repeated request changes
    nothing. *)
Theorem status_request_last_wins (s1 s2 : string) (req_body : value)
  (w : world) :
  let w1 := snd (post_status s1 req_body w) in
  db (snd (post_status s2 req_body w1)) = db (snd (post_status s2 req_body w))
  /\ fst (post_status s2 req_body w1) = fst (post_status s2 req_body w).
Proof.
  intros w1. subst w1.
  destruct (post_status_cases s1 req_body w)
    as [(T & ->)|[(T & Hn & ->)|(T & c1 & x & c2 & Ec & Hn & Hx & ->)]];
    cbn [snd]; [now split|now split|].
  unfold post_status. cbv zeta. rewrite T. cbn [negb db].
  unfold findOneAndUpdate. rewrite Ec.
  rewrite !update_first_split by auto.
  cbn [fst snd db]. split; [|reflexivity].
  rewrite set_status_over by discriminate. reflexivity.
Qed.

(** ** [POST /messages] *)

Section Create.
Variable create : doc -> collection -> created.

(** X25: what a message request does, whatever the store answers.  The
    answer is 400 exactly when the body lacks a [wa_id] or a [text] that
    is truthy (an empty text is refused); the collection changes and an
    event is emitted only with 201, and then the collection and the
    document are those that the store answered, and the one event carries
    that document and the client id of the body, or [null]. *)
Theorem message_request_outcome (uuid : string) (now : Z) (req_body : value)
  (w : world) :
  let b := req_body |? VObj [] in
  let r := fst (post_messages create uuid now req_body w) in
  let w' := snd (post_messages create uuid now req_body w) in
  (code r = 201 \/ code r = 400 \/ code r = 500) /\
  (code r = 400 <->
   truthy (get b "wa_id") = false \/ truthy (get b "text") = false) /\
  (code r <> 201 -> w' = w) /\
  (code r = 201 ->
   exists d c,
     create (candidate uuid now b) (db w) = Saved d c /\
     payload r = Document d /\ db w' = c /\
     emitted w' = emitted w ++ [MessageNew d (get b "clientId" |? VNull)]).
Proof.
  intros b r w'. subst r w'. unfold post_messages. fold b. cbv zeta.
  destruct (truthy (get b "wa_id")) eqn:Tw; cbn [negb orb].
  - destruct (truthy (get b "text")) eqn:Tt; cbn [negb].
    + destruct (create (candidate uuid now b) (db w)) as [d c|e];
        cbn [fst snd code payload db emitted].
      * split; [now left|]. split; [split; [discriminate|intros []; discriminate]|].
        split; [congruence|]. intros _. now exists d, c.
      * split; [now right; right|].
        split; [split; [discriminate|intros []; discriminate]|].
        split; [reflexivity|discriminate].
    + cbn [fst snd code]. split; [now right; left|].
      split; [split; [now right|reflexivity]|].
      split; [reflexivity|discriminate].
  - cbn [fst snd code]. split; [now right; left|].
    split; [split; [now left|reflexivity]|].
    split; [reflexivity|discriminate].
Qed.

(** X26: what the store is handed.  When the request is not refused with
    400 and the generated id is not empty, the document handed to the
    store has a conversation id, a message id, a text and a display name
    that are all truthy, a truthy status and a boolean [fromSelf]. *)
Theorem message_request_hands_complete (uuid : string) (now : Z)
  (req_body : value) (w : world) :
  uuid <> "" ->
  code (fst (post_messages create uuid now req_body w)) <> 400 ->
  let d := candidate uuid now (req_body |? VObj []) in
  complete d /\ truthy (text d) = true /\ truthy (status d) = true /\
  exists f, fromSelf d = VBool f.
Proof.
  intros Hu Hc d. subst d. unfold post_messages in Hc. cbv zeta in Hc.
  set (b := req_body |? VObj []) in *.
  destruct (truthy (get b "wa_id")) eqn:Tw;
    [|cbn in Hc; congruence].
  destruct (truthy (get b "text")) eqn:Tt;
    [|cbn in Hc; congruence].
  unfold candidate, complete. cbn [wa_id msg_id text profileName status fromSelf].
  repeat split.
  - exact Tw.
  - apply or_truthy_r. now apply Correlation.truthy_VStr.
  - destruct (get b "text"); try reflexivity; discriminate.
  - now apply or_truthy_r.
  - exact Tt.
  - now apply or_truthy_r.
  - now exists (truthy (get b "fromSelf")).
Qed.

End Create.

Lemma message_request_hands_complete_witness :
  let d :=
    candidate "5b1c" 1700000500000
      (VObj [("wa_id", VStr "919937320320"); ("text", VStr "hello again")]
       |? VObj []) in
  complete d /\ truthy (text d) = true /\ truthy (status d) = true /\
  exists f, fromSelf d = VBool f.
Proof.
  apply (message_request_hands_complete create_unique "5b1c" 1700000500000
           (VObj [("wa_id", VStr "919937320320");
                  ("text", VStr "hello again")])
           (mkWorld [reply; hello_read] [])).
  - discriminate.
  - vm_compute. discriminate.
Defined.

(** X27: the server reads a numeric timestamp as milliseconds.  For a
    request whose [timestamp] is the number [n], the document handed to
    the store and the batch driver's [asDate] agree exactly when [n] is 0
    (both take the current time) or above 10^12: a timestamp in seconds is
    stored by the server a thousand times earlier than by the driver. *)
Theorem server_reads_milliseconds (uuid : string) (now : Z) (b : value)
  (n : Z) :
  get b "timestamp" = VNum n ->
  Z.abs n * 1000 <= max_time ->
  (timestamp (candidate uuid now b) = asDate now (VNum n) <->
   n = 0 \/ 1000000000000 < n) /\
  (n <> 0 -> timestamp (candidate uuid now b) = Date n).
Proof.
  intros H R. unfold max_time in R. unfold candidate. cbn [timestamp].
  rewrite H. unfold asDate. simpl.
  destruct (Z.eqb_spec n 0) as [->|Hn]; simpl.
  - split; [|congruence]. split; [now left|reflexivity].
  - unfold max_time.
    destruct (Z.leb_spec (Z.abs n) 8640000000000000); [|lia].
    split; [|reflexivity].
    destruct (Z.ltb_spec 1000000000000 n).
    + destruct (Z.leb_spec (Z.abs n) 8640000000000000); [|lia].
      split; [now right|reflexivity].
    + destruct (Z.leb_spec (Z.abs (n * 1000)) 8640000000000000); [|lia].
      split; [|lia]. intros E. inversion E. lia.
Qed.

Lemma server_reads_milliseconds_witness :
  (timestamp
     (candidate "5b1c" 1700000500000
        (VObj [("wa_id", VStr "919937320320"); ("text", VStr "hello");
               ("timestamp", VNum 1700000000)])) =
   asDate 1700000500000 (VNum 1700000000) <->
   1700000000 = 0 \/ 1000000000000 < 1700000000) /\
  (1700000000 <> 0 ->
   timestamp
     (candidate "5b1c" 1700000500000
        (VObj [("wa_id", VStr "919937320320"); ("text", VStr "hello");
               ("timestamp", VNum 1700000000)])) = Date 1700000000).
Proof.
  apply (server_reads_milliseconds "5b1c" 1700000500000
           (VObj [("wa_id", VStr "919937320320"); ("text", VStr "hello");
                  ("timestamp", VNum 1700000000)]) 1700000000).
  - reflexivity.
  - unfold max_time. lia.
Defined.

(** ** The invariants of the collection under [POST /messages] *)

Lemma candidate_complete uuid now b :
  uuid <> "" -> truthy (get b "wa_id") = true ->
  truthy (get b "text") = true -> complete (candidate uuid now b).
Proof.
  intros Hu Tw Tt. unfold candidate, complete.
  cbn [wa_id msg_id text profileName]. repeat split.
  - exact Tw.
  - apply or_truthy_r. now apply Correlation.truthy_VStr.
  - destruct (get b "text"); try reflexivity; discriminate.
  - now apply or_truthy_r.
Qed.

Lemma create_unique_appends d c d' c' :
  create_unique d c = Saved d' c' ->
  c' = c ++ [d] /\ forall x, In x c -> msg_id x <> msg_id d.
Proof.
  unfold create_unique.
  destruct (existsb (fun x => eq_filter (msg_id d) (msg_id x)) c) eqn:E;
    [discriminate|].
  intros H. injection H as H1 H2. subst d' c'. split; [reflexivity|].
  intros x Hx Heq.
  assert (existsb (fun x => eq_filter (msg_id d) (msg_id x)) c = true) as T.
  { apply existsb_exists. exists x. split; [exact Hx|].
    rewrite Heq. apply eq_filter_self. }
  congruence.
Qed.

(** X28: a message request keeps the invariants of the collection, for a
    store that saves the document it is handed at the end of the
    collection and saves no message id twice.  If the message ids are
    unique and every record has a conversation id, a message id, a text
    and a display name, the same holds after [POST /messages], whatever
    the body is. *)
Theorem message_request_keeps_sound (create : doc -> collection -> created)
  (uuid : string) (now : Z) (req_body : value) (w : world) :
  (forall d c d' c',
      create d c = Saved d' c' ->
      c' = c ++ [d] /\ forall x, In x c -> msg_id x <> msg_id d) ->
  uuid <> "" ->
  sound (db w) ->
  sound (db (snd (post_messages create uuid now req_body w))).
Proof.
  intros Hc Hu [U F]. unfold post_messages. cbv zeta.
  set (b := req_body |? VObj []).
  destruct (truthy (get b "wa_id")) eqn:Tw; cbn [negb orb]; [|now split].
  destruct (truthy (get b "text")) eqn:Tt; cbn [negb]; [|now split].
  destruct (create (candidate uuid now b) (db w)) as [d c|e] eqn:E;
    [|now split].
  destruct (Hc _ _ _ _ E) as [-> Hfresh]. cbn [snd db]. split.
  - unfold unique_ids. rewrite map_app. cbn [map].
    apply NoDup_app; [exact U|repeat constructor; intros []|].
    intros x Hx [<-|[]]. apply in_map_iff in Hx.
    destruct Hx as (y & Hy & Hin). exact (Hfresh y Hin Hy).
  - apply Forall_app. split; [exact F|]. constructor; [|constructor].
    now apply candidate_complete.
Qed.

Lemma message_request_keeps_sound_witness :
  sound [reply; hello_read] /\
  sound (db (snd (post_messages create_unique "5b1c" 1700000500000
                    (VObj [("wa_id", VStr "919937320320");
                           ("text", VStr "hello again")])
                    (mkWorld [reply; hello_read] [])))).
Proof.
  assert (sound [reply; hello_read]) as S.
  { split.
    - repeat constructor; simpl; intuition discriminate.
    - repeat constructor. }
  split; [exact S|].
  apply (message_request_keeps_sound create_unique "5b1c" 1700000500000
           (VObj [("wa_id", VStr "919937320320");
                  ("text", VStr "hello again")])
           (mkWorld [reply; hello_read] [])).
  - exact create_unique_appends.
  - discriminate.
  - exact S.
Defined.

End ServerFacts.
